(** * The runtime contract of the Notion command-line client

    A shallow embedding of the cross-cutting runtime of the client: the error
    taxonomy ([src/core/errors.ts]), the HTTP request engine
    ([src/core/http.ts]), the pagination engine ([src/core/pagination.ts]),
    the asynchronous operation registry ([src/ops/registry.ts]), the
    [ops wait] command ([src/commands/ops.ts]) and the command harness
    ([src/core/cli.ts], [src/core/config.ts], [src/index.ts]).

    Effects (network, clock, timers, files, the standard streams, process
    exit) are threaded through an explicit [World]; exceptions, process exit
    and loops that run out of fuel are results of the monad [M].

    Part I holds the embedding, Part II the properties, and Part III
    further properties, with the commands that they are about. *)

From Stdlib Require Import ZArith NArith Lia.
From stdpp Require Import gmap strings list pretty.

Set Warnings "-register-all".

(* ===================================================================== *)
(** * Part I: the embedding                                               *)
(* ===================================================================== *)

(** ** JavaScript values *)

Module Js.

(** A JavaScript string is a sequence of UTF-16 code units. Record fields
    that the claims never inspect unit by unit are kept as [string]; the
    request path, which is decoded and searched, is a [jsstr]. *)
Definition jsstr := list N.

Fixpoint units (s : string) : jsstr :=
  match s with
  | EmptyString => []
  | String a s' => Ascii.N_of_ascii a :: units s'
  end.

(** JSON data ([unknown] payloads, response bodies, metadata values). *)
Inductive Json :=
| JNull
| JBool (b : bool)
| JNum (z : Z)
| JStr (s : string)
| JArr (l : list Json)
| JObj (l : list (string * Json)).

(** [o?.key]: property read, [None] standing for [undefined]. *)
Fixpoint assoc (key : string) (l : list (string * Json)) : option Json :=
  match l with
  | [] => None
  | (k, v) :: l' => if String.eqb k key then Some v else assoc key l'
  end.

Definition jget (key : string) (j : Json) : option Json :=
  match j with
  | JObj l => assoc key l
  | _ => None
  end.

(** ToBoolean *)
Definition truthy (j : Json) : bool :=
  match j with
  | JNull => false
  | JBool b => b
  | JNum z => negb (z =? 0)%Z
  | JStr s => negb (String.eqb s "")
  | JArr _ | JObj _ => true
  end.

Definition truthyStr (s : option string) : bool :=
  match s with
  | Some s => negb (String.eqb s "")
  | None => false
  end.

(** ToString, as applied by the [Error] constructor to its message. *)
Fixpoint jsToString (j : Json) : string :=
  match j with
  | JNull => "null"
  | JBool true => "true"
  | JBool false => "false"
  | JNum z => pretty z
  | JStr s => s
  | JArr l =>
      String.concat ","
        (List.map (fun x => match x with JNull => "" | _ => jsToString x end) l)
  | JObj _ => "[object Object]"
  end.

(** [s.includes(pat)] *)
Fixpoint startsWith (pat s : jsstr) : bool :=
  match pat, s with
  | [], _ => true
  | _ :: _, [] => false
  | p :: pat', c :: s' => (p =? c)%N && startsWith pat' s'
  end.

Fixpoint includes (s pat : jsstr) : bool :=
  startsWith pat s ||
  match s with
  | [] => false
  | _ :: s' => includes s' pat
  end.

End Js.
Export Js.

(** ** Constants ([src/core/constants.ts], not part of the sources at hand) *)

Module Constants.

(** Modelled from the spec: the retention window of the registry, "a fixed
    retention window (30 days)"; [constants.ts] is missing. *)
Definition RETENTION_DAYS : Z := 30.

(** Modelled from the spec: the base address of the upstream API
    ("Base API: https://api.notion.com/v1"); [constants.ts] is missing. *)
Definition BASE_URL : string := "https://api.notion.com/v1".

(** Modelled from the spec: tool and schema version of the envelope
    metadata ([docs/output-envelope.md]); [constants.ts] is missing. *)
Definition CLI_VERSION : string := "1.0.0".
Definition SCHEMA_VERSION : Z := 1.

(** Modelled from the spec: built-in defaults of the configuration
    ("Default Notion API version: 2025-09-03"); the numeric defaults are
    not documented and only need to exist. *)
Definition DEFAULT_NOTION_VERSION : string := "2025-09-03".
Definition DEFAULT_TIMEOUT_MS : Z := 30000.
Definition DEFAULT_RETRIES : Z := 3.

End Constants.

(** ** Error taxonomy ([src/core/errors.ts]) *)

Module Errors.

Inductive ErrorCode :=
| INVALID_ARGUMENT
| MISSING_ARGUMENT
| RESOURCE_NOT_FOUND
| ALREADY_EXISTS
| PERMISSION_DENIED
| AUTH_FAILED
| RATE_LIMITED
| TIMEOUT
| CONFLICT
| PRECONDITION_FAILED
| CONFIRMATION_REQUIRED
| IDEMPOTENCY_KEY_CONFLICT
| UNSUPPORTED_SCHEMA_VERSION
| INTERNAL_ERROR
| DEPENDENCY_MISSING
| CONFIG_ERROR
| UNSUPPORTED_OPERATION.

#[global] Instance ErrorCode_eq_dec : EqDecision ErrorCode.
Proof. solve_decision. Defined.

Definition codeName (c : ErrorCode) : string :=
  match c with
  | INVALID_ARGUMENT => "INVALID_ARGUMENT"
  | MISSING_ARGUMENT => "MISSING_ARGUMENT"
  | RESOURCE_NOT_FOUND => "RESOURCE_NOT_FOUND"
  | ALREADY_EXISTS => "ALREADY_EXISTS"
  | PERMISSION_DENIED => "PERMISSION_DENIED"
  | AUTH_FAILED => "AUTH_FAILED"
  | RATE_LIMITED => "RATE_LIMITED"
  | TIMEOUT => "TIMEOUT"
  | CONFLICT => "CONFLICT"
  | PRECONDITION_FAILED => "PRECONDITION_FAILED"
  | CONFIRMATION_REQUIRED => "CONFIRMATION_REQUIRED"
  | IDEMPOTENCY_KEY_CONFLICT => "IDEMPOTENCY_KEY_CONFLICT"
  | UNSUPPORTED_SCHEMA_VERSION => "UNSUPPORTED_SCHEMA_VERSION"
  | INTERNAL_ERROR => "INTERNAL_ERROR"
  | DEPENDENCY_MISSING => "DEPENDENCY_MISSING"
  | CONFIG_ERROR => "CONFIG_ERROR"
  | UNSUPPORTED_OPERATION => "UNSUPPORTED_OPERATION"
  end.

(** Keys of [EXIT_CODES]: an error code, ["PARTIAL"] or ["SUCCESS"]. *)
Inductive ExitKey :=
| SUCCESS
| PARTIAL
| OfCode (c : ErrorCode).

Definition EXIT_CODES (k : ExitKey) : Z :=
  match k with
  | SUCCESS => 0
  | PARTIAL => 3
  | OfCode INVALID_ARGUMENT => 2
  | OfCode MISSING_ARGUMENT => 2
  | OfCode RESOURCE_NOT_FOUND => 4
  | OfCode ALREADY_EXISTS => 1
  | OfCode PERMISSION_DENIED => 11
  | OfCode AUTH_FAILED => 10
  | OfCode RATE_LIMITED => 12
  | OfCode TIMEOUT => 20
  | OfCode CONFLICT => 5
  | OfCode PRECONDITION_FAILED => 1
  | OfCode CONFIRMATION_REQUIRED => 1
  | OfCode IDEMPOTENCY_KEY_CONFLICT => 1
  | OfCode UNSUPPORTED_SCHEMA_VERSION => 1
  | OfCode INTERNAL_ERROR => 125
  | OfCode DEPENDENCY_MISSING => 30
  | OfCode CONFIG_ERROR => 1
  | OfCode UNSUPPORTED_OPERATION => 1
  end.

(** The [context] of an error: an object whose values are JSON data, a
    string given by its code units, or [undefined]. *)
Inductive CtxVal :=
| CUndefined
| CJson (j : Json)
| CString (s : jsstr).

Definition ErrContext := list (string * CtxVal).

(** [class CliError extends Error] *)
Record CliError := mkCliError {
  code : ErrorCode;
  message : string;
  recoverable : bool;
  suggestedAction : option string;
  context : option ErrContext
}.

(** The [options] argument of the constructor. *)
Record CliErrorOptions := {
  opt_recoverable : option bool;
  opt_suggestedAction : option string;
  opt_context : option ErrContext
}.

Definition newCliError (c : ErrorCode) (msg : string)
    (options : option CliErrorOptions) : CliError :=
  {| code := c;
     message := msg;
     recoverable := default false (options ≫= opt_recoverable);
     suggestedAction := options ≫= opt_suggestedAction;
     context := options ≫= opt_context |}.

(** Whatever a [throw] can carry: a [CliError], another [Error] (with its
    [name] and [message]) or a value that is no [Error] at all. *)
Inductive Exn :=
| ECli (e : CliError)
| EError (name msg : string)
| EValue (v : Json).

Definition instanceofError (e : Exn) : bool :=
  match e with
  | ECli _ | EError _ _ => true
  | EValue _ => false
  end.

Definition exnName (e : Exn) : option string :=
  match e with
  | ECli _ => Some "Error"
  | EError n _ => Some n
  | EValue v => match jget "name" v with Some (JStr n) => Some n | _ => None end
  end.

Definition exnMessage (e : Exn) : string :=
  match e with
  | ECli c => message c
  | EError _ m => m
  | EValue _ => ""
  end.

Definition mapHttpStatusToError (status : Z) : ErrorCode :=
  if (status =? 400)%Z then INVALID_ARGUMENT
  else if (status =? 401)%Z then AUTH_FAILED
  else if (status =? 403)%Z then PERMISSION_DENIED
  else if (status =? 404)%Z then RESOURCE_NOT_FOUND
  else if (status =? 409)%Z then CONFLICT
  else if (status =? 412)%Z then PRECONDITION_FAILED
  else if (status =? 429)%Z then RATE_LIMITED
  else if (status =? 408)%Z then TIMEOUT
  else if (status >=? 500)%Z then INTERNAL_ERROR
  else INTERNAL_ERROR.

End Errors.
Export Errors.

(** ** Data carried between the components *)

Module Types.

(** *** Operation receipts (the type [OperationReceipt]) *)

Inductive Status :=
| PENDING
| IN_PROGRESS
| COMPLETED
| FAILED.

#[global] Instance Status_eq_dec : EqDecision Status.
Proof. solve_decision. Defined.

Record Poll := {
  poll_method : string;
  poll_path : string
}.

Record OpError := {
  err_code : string;
  err_message : string
}.

(** Optional and nullable fields are [option]s; [metadata] is an open map. *)
Record OperationReceipt := mkReceipt {
  op_id : string;
  type : string;
  status : Status;
  resource_id : option string;
  resource_type : option string;
  created_at : string;
  updated_at : string;
  metadata : option (gmap string Json);
  poll : option Poll;
  error : option OpError
}.

(** [Partial<OperationReceipt>]: every key may be absent ([None]); a key that
    is present carries a value of the field's type. *)
Record ReceiptPatch := mkPatch {
  p_op_id : option string;
  p_type : option string;
  p_status : option Status;
  p_resource_id : option (option string);
  p_resource_type : option (option string);
  p_created_at : option string;
  p_updated_at : option string;
  p_metadata : option (option (gmap string Json));
  p_poll : option (option Poll);
  p_error : option (option OpError)
}.

Definition emptyPatch : ReceiptPatch :=
  mkPatch None None None None None None None None None None.

(** The registry file [ops.jsonl], seen through [JSON.parse] of its lines. *)
Inductive OpsFile :=
| OpsMissing
| OpsLines (ops : list OperationReceipt)
| OpsUnreadable (e : Exn).

(** *** Requests and responses ([src/core/http.ts]) *)

Inductive QueryVal :=
| QStr (s : string)
| QNum (z : Z)
| QBool (b : bool)
| QNull.

Inductive Body :=
| BodyJson (j : Json)
| BodyForm (parts : list (string * string)).

Record RequestOptions := {
  method : string;
  path : jsstr;
  query : option (list (string * QueryVal));
  body : option Body;
  token : option string;
  notionVersion : string;
  timeoutMs : Z;
  retries : Z;
  idempotencyKey : option string;
  contentType : option string;
  extraHeaders : option (gmap string string)
}.

(** The address [`${BASE_URL}${path}${encodeQuery(query)}`]; the query is
    kept as the list of pairs handed to [URLSearchParams.append]. *)
Record Url := {
  url_base : string;
  url_path : jsstr;
  url_query : list (string * string)
}.

(** [init.body]: a form passed through, or [JSON.stringify(body)]. *)
Inductive InitBody :=
| InitForm (parts : list (string * string))
| InitJson (j : Json).

Record RequestInit := {
  init_method : string;
  init_headers : gmap string string;
  init_body : option InitBody
}.

(** One physical attempt. *)
Record FetchCall := {
  fc_url : Url;
  fc_init : RequestInit;
  fc_timeoutMs : Z
}.

(** The text of a response body, as [JSON.parse] will see it. *)
Inductive BodyText :=
| TextEmpty
| TextJson (j : Json)
| TextMalformed.

(** What [fetch] followed by [response.text()] does on one attempt. *)
Inductive NetOutcome :=
| NetResponse (status : Z) (text : BodyText) (headers : list (string * string))
| NetThrows (e : Exn).

Record HttpResponse := {
  resp_status : Z;
  resp_data : Json;
  resp_headers : list (string * string)
}.

(** Arguments of [setTimeout] in the engine: a literal number of
    milliseconds, or [Number(retryAfter) * 1000]. *)
Inductive Delay :=
| Millis (ms : Z)
| RetryAfterSeconds (header : string).

(** *** Envelopes and output lines ([src/core/output.ts]) *)

Record ErrorBody := {
  eb_code : ErrorCode;
  eb_message : string;
  eb_recoverable : bool;
  eb_suggested_action : option string;
  eb_context : option ErrContext
}.

Inductive Envelope :=
| SuccessEnvelope (data : Json) (warnings : list string)
    (metadata : gmap string Json)
| PartialEnvelope (data : Json) (metadata : gmap string Json)
| ErrorEnvelope (error : ErrorBody) (metadata : gmap string Json).

(** A line on the primary channel: [writeJson] of an envelope, or
    [writeNdjsonLine] of an item or of the summary. *)
Inductive OutLine :=
| OutEnvelope (e : Envelope) (pretty : bool)
| OutItem (data : Json)
| OutSummary (count : nat).

Definition isSummary (l : OutLine) : bool :=
  match l with OutSummary _ => true | _ => false end.

(** *** Configuration ([src/core/config.ts], [src/core/cli.ts]) *)

Record Profile := {
  pf_token : option string;
  pf_notion_version : option string;
  pf_timeout_ms : option Z;
  pf_retries : option Z;
  pf_pretty : option bool
}.

Record FileConfig := {
  default_profile : option string;
  profiles : gmap string Profile
}.

Inductive ConfigText :=
| CfgBlank
| CfgJson (c : FileConfig)
| CfgMalformed (msg : string).

(** The configuration file: absent ([ENOENT]), failing in [stat] or
    [readFile] with another error, or readable with some mode bits. *)
Inductive ConfigFile :=
| CfgMissing
| CfgFails (e : Exn)
| CfgReadable (openToOthers : bool) (text : ConfigText).

Record ResolvedConfig := {
  cfg_token : option string;
  cfg_notionVersion : string;
  cfg_timeoutMs : Z;
  cfg_retries : Z;
  cfg_pretty : bool;
  cfg_profile : option string
}.

Record GlobalOptions := {
  o_token : option string;
  o_tokenStdin : option bool;
  o_profile : option string;
  o_notionVersion : option string;
  o_timeout : option Z;
  o_retries : option Z;
  o_outputFile : option string;
  o_pretty : option bool;
  o_ndjson : option bool;
  o_validate : option bool;
  o_debug : option bool;
  o_verbose : option bool;
  o_quiet : option bool
}.

Record Context := {
  ctx_command : string;
  ctx_config : ResolvedConfig;
  ctx_outputFile : option string;
  ctx_pretty : bool;
  ctx_ndjson : bool;
  ctx_validate : bool
}.

(** [ActionResult<T>] *)
Record ActionResult (T : Type) := {
  data : T;
  exitCode : option Z
}.
Arguments data {T} _.
Arguments exitCode {T} _.

(** [JSON.stringify] of a handler's payload. *)
Class ToJson (T : Type) := toJson : T -> Json.

#[global] Instance Json_ToJson : ToJson Json := fun j => j.

End Types.
Export Types.

(** ** Host functions

    Functions of the JavaScript runtime whose tables are not part of the
    repository. Every definition and theorem below is parametric in them. *)

Class Runtime := {
  (** [toLowerCase] on a code unit outside ASCII, given the units before
      and after it (the Unicode mapping is context sensitive). *)
  unicodeLower : jsstr -> N -> jsstr -> jsstr;
  (** [new Date(s).getTime()], [None] standing for [NaN]. *)
  dateGetTime : string -> option Z;
  (** [new Date(ms).toISOString()] *)
  toISOString : Z -> string;
  (** [Number(s)] on the strings of the environment. *)
  toNumber : string -> Z;
  (** [s.trim()] *)
  trim : string -> string
}.

(** ** The world and the monad of effects *)

Module Sys.

Record World := mkWorld {
  (** [Date.now()]: the successive readings of the clock. *)
  clock : nat -> Z;
  clockReads : nat;
  (** The upstream: outcome of the k-th physical attempt. *)
  upstream : nat -> FetchCall -> NetOutcome;
  netLog : list FetchCall;
  (** Timers awaited so far. *)
  slept : list Delay;
  (** Files. *)
  opsFile : OpsFile;
  configFile : ConfigFile;
  writeFails : string -> option Exn;
  written : list (string * Envelope);
  (** Process. *)
  env : gmap string string;
  stdin : string;
  stdout : list OutLine;
  stderr : list string
}.

Inductive Res (A : Type) :=
| Ok (a : A)
| Throw (e : Exn)
| Exit (code : Z)
| OutOfFuel.
Arguments Ok {A} a.
Arguments Throw {A} e.
Arguments Exit {A} code.
Arguments OutOfFuel {A}.

Definition M (A : Type) := World -> Res A * World.

Definition ret {A} (a : A) : M A := fun w => (Ok a, w).

Definition bind {A B} (m : M A) (k : A -> M B) : M B :=
  fun w =>
    match m w with
    | (Ok a, w') => k a w'
    | (Throw e, w') => (Throw e, w')
    | (Exit c, w') => (Exit c, w')
    | (OutOfFuel, w') => (OutOfFuel, w')
    end.

Definition throw {A} (e : Exn) : M A := fun w => (Throw e, w).

Definition throwCli {A} (c : CliError) : M A := throw (ECli c).

(** [try { m } catch (error) { h error }]: only a thrown value is caught. *)
Definition tryCatch {A} (m : M A) (h : Exn -> M A) : M A :=
  fun w =>
    match m w with
    | (Throw e, w') => h e w'
    | r => r
    end.

(** [process.exit(code)] *)
Definition processExit {A} (code : Z) : M A := fun w => (Exit code, w).

Definition outOfFuel {A} : M A := fun w => (OutOfFuel, w).

Definition modify (f : World -> World) : M unit := fun w => (Ok tt, f w).

Definition gets {A} (f : World -> A) : M A := fun w => (Ok (f w), w).

(** [Date.now()] *)
Definition dateNow : M Z :=
  fun w =>
    (Ok (clock w (clockReads w)),
     mkWorld (clock w) (S (clockReads w)) (upstream w) (netLog w) (slept w)
       (opsFile w) (configFile w) (writeFails w) (written w) (env w)
       (stdin w) (stdout w) (stderr w)).

(** [process.stdout.write] of one line. *)
Definition writeStdout (l : OutLine) : M unit :=
  modify (fun w =>
    mkWorld (clock w) (clockReads w) (upstream w) (netLog w) (slept w)
      (opsFile w) (configFile w) (writeFails w) (written w) (env w)
      (stdin w) (stdout w ++ [l]) (stderr w)).

(** [process.stderr.write] *)
Definition writeStderr (s : string) : M unit :=
  modify (fun w =>
    mkWorld (clock w) (clockReads w) (upstream w) (netLog w) (slept w)
      (opsFile w) (configFile w) (writeFails w) (written w) (env w)
      (stdin w) (stdout w) (stderr w ++ [s])).

(** [await new Promise((resolve) => setTimeout(resolve, delay))] *)
Definition sleep (d : Delay) : M unit :=
  modify (fun w =>
    mkWorld (clock w) (clockReads w) (upstream w) (netLog w)
      (slept w ++ [d]) (opsFile w) (configFile w) (writeFails w) (written w)
      (env w) (stdin w) (stdout w) (stderr w)).

End Sys.
Export Sys.

Notation "'do' x <- m ; k" := (bind m (fun x => k))
  (at level 10, x name, m at level 100, k at level 200,
   format "'[v' 'do'  x  <-  m ; '/' k ']'").
Notation "m ;; k" := (bind m (fun _ => k))
  (at level 100, k at level 200, right associativity).

(** ** HTTP request engine ([src/core/http.ts]) *)

Module Http.

#[local] Open Scope N_scope.

(** *** [decodeURIComponent]

    The Decode operation of ECMA-262 with an empty reserved set, as a
    one-pass scanner over the code units. [None] stands for a thrown
    [URIError]. *)

Definition hexVal (c : N) : option N :=
  if (48 <=? c) && (c <=? 57) then Some (c - 48)
  else if (65 <=? c) && (c <=? 70) then Some (c - 55)
  else if (97 <=? c) && (c <=? 102) then Some (c - 87)
  else None.

(** Number of leading 1 bits of an octet. *)
Definition leadingOnes (b : N) : nat :=
  if b <? 128 then 0%nat
  else if b <? 192 then 1%nat
  else if b <? 224 then 2%nat
  else if b <? 240 then 3%nat
  else if b <? 248 then 4%nat
  else 5%nat.

Definition isContinuation (b : N) : bool := (128 <=? b) && (b <? 192).

Definition isSurrogate (v : N) : bool := (55296 <=? v) && (v <=? 57343).

(** The code point of a well-formed UTF-8 sequence (neither overlong, nor a
    surrogate, nor beyond U+10FFFF). *)
Definition utf8CodePoint (lead : N) (conts : list N) : option N :=
  match conts with
  | [c1] =>
      let v := N.lor (N.shiftl (N.land lead 31) 6) (N.land c1 63) in
      if 128 <=? v then Some v else None
  | [c1; c2] =>
      let v := N.lor (N.shiftl (N.land lead 15) 12)
                 (N.lor (N.shiftl (N.land c1 63) 6) (N.land c2 63)) in
      if (2048 <=? v) && negb (isSurrogate v) then Some v else None
  | [c1; c2; c3] =>
      let v := N.lor (N.shiftl (N.land lead 7) 18)
                 (N.lor (N.shiftl (N.land c1 63) 12)
                    (N.lor (N.shiftl (N.land c2 63) 6) (N.land c3 63))) in
      if (65536 <=? v) && (v <=? 1114111) then Some v else None
  | _ => None
  end.

Definition utf16Encode (v : N) : jsstr :=
  if v <? 65536 then [v]
  else [55296 + N.shiftr (v - 65536) 10; 56320 + N.land (v - 65536) 1023].

(** A multi-octet sequence under way: its first octet, the number of
    continuation octets still to read, those read so far. *)
Record Pending := {
  lead : N;
  need : nat;
  got : list N
}.

Inductive Scan :=
| Top
| Hex1 (p : option Pending)
| Hex2 (p : option Pending) (hi : N)
| Pct (p : Pending).

Definition percent : N := 37.

Definition octetDone (p : option Pending) (b : N) : option (Scan * jsstr) :=
  match p with
  | None =>
      if b <? 128 then Some (Top, [b])
      else
        let n := leadingOnes b in
        if (n =? 1)%nat || (4 <? n)%nat then None
        else Some (Pct {| lead := b; need := (n - 1)%nat; got := [] |}, [])
  | Some pd =>
      if isContinuation b then
        let got' := got pd ++ [b] in
        match need pd with
        | 1%nat =>
            match utf8CodePoint (lead pd) got' with
            | Some v => Some (Top, utf16Encode v)
            | None => None
            end
        | n => Some (Pct {| lead := lead pd; need := (n - 1)%nat; got := got' |}, [])
        end
      else None
  end.

Definition scanStep (st : Scan) (c : N) : option (Scan * jsstr) :=
  match st with
  | Top => if c =? percent then Some (Hex1 None, []) else Some (Top, [c])
  | Hex1 p =>
      match hexVal c with
      | Some hi => Some (Hex2 p hi, [])
      | None => None
      end
  | Hex2 p hi =>
      match hexVal c with
      | Some lo => octetDone p (16 * hi + lo)
      | None => None
      end
  | Pct p => if c =? percent then Some (Hex1 (Some p), []) else None
  end.

Fixpoint scan (st : Scan) (s : jsstr) : option jsstr :=
  match s with
  | [] => match st with Top => Some [] | _ => None end
  | c :: s' =>
      match scanStep st c with
      | Some (st', out) =>
          match scan st' s' with
          | Some r => Some (out ++ r)
          | None => None
          end
      | None => None
      end
  end.

Definition decodeURIComponent (s : jsstr) : option jsstr := scan Top s.

(** *** [toLowerCase] *)

Definition asciiLower (c : N) : N :=
  if (65 <=? c) && (c <=? 90) then c + 32 else c.

Fixpoint lowerFrom `{Runtime} (before s : jsstr) : jsstr :=
  match s with
  | [] => []
  | c :: rest =>
      (if c <? 128 then [asciiLower c] else unicodeLower before c rest)
        ++ lowerFrom (before ++ [c]) rest
  end.

Definition toLowerCase `{Runtime} (s : jsstr) : jsstr := lowerFrom [] s.

(** *** [validatePath] *)

Definition pathTraversalError (pathValue : jsstr) : CliError :=
  newCliError INVALID_ARGUMENT "Path traversal is not allowed"
    (Some {| opt_recoverable := Some true;
             opt_suggestedAction := Some "Provide a safe API path";
             opt_context := Some [("path", CString pathValue)] |}).

Definition validatePath `{Runtime} (pathValue : jsstr) : M unit :=
  match decodeURIComponent pathValue with
  | None => throw (EError "URIError" "URI malformed")
  | Some decoded =>
      let lowered := toLowerCase decoded in
      if includes lowered (units "..") || includes lowered (units "%2e")
      then throwCli (pathTraversalError pathValue)
      else ret tt
  end.

(** *** [encodeQuery] *)

Definition queryString (v : QueryVal) : option string :=
  match v with
  | QNull => None
  | QStr s => Some s
  | QNum z => Some (pretty z)
  | QBool b => Some (if b then "true" else "false")
  end.

Definition encodeQuery (query : option (list (string * QueryVal)))
    : list (string * string) :=
  match query with
  | None => []
  | Some q => omap (fun kv => (fun s => (kv.1, s)) <$> queryString kv.2) q
  end.

(** *** [doFetch] *)

Definition timeoutError (timeoutMs : Z) : CliError :=
  newCliError TIMEOUT
    ("Request timed out after " +:+ pretty timeoutMs +:+ "ms")
    (Some {| opt_recoverable := Some true;
             opt_suggestedAction := Some "Retry with a higher --timeout value";
             opt_context := Some [("timeout_ms", CJson (JNum timeoutMs))] |}).

(** [fetch(url, init)] and [response.text()]: one physical attempt. *)
Definition fetchText (call : FetchCall)
    : M (Z * BodyText * list (string * string)) :=
  fun w =>
    let w' := mkWorld (clock w) (clockReads w) (upstream w)
                (netLog w ++ [call]) (slept w) (opsFile w) (configFile w)
                (writeFails w) (written w) (env w) (stdin w) (stdout w)
                (stderr w) in
    match upstream w (length (netLog w)) call with
    | NetResponse status text headers => (Ok (status, text, headers), w')
    | NetThrows e => (Throw e, w')
    end.

Definition jsonParse (t : BodyText) : M Json :=
  match t with
  | TextEmpty => ret (JObj [])
  | TextJson j => ret j
  | TextMalformed => throw (EError "SyntaxError" "Unexpected token in JSON")
  end.

Definition doFetch (url : Url) (init : RequestInit) (timeoutMs : Z)
    : M HttpResponse :=
  tryCatch
    (do r <- fetchText {| fc_url := url; fc_init := init;
                          fc_timeoutMs := timeoutMs |};
     do data <- jsonParse r.1.2;
     ret {| resp_status := r.1.1; resp_data := data; resp_headers := r.2 |})
    (fun error =>
       match error with
       | EValue JNull =>
           (* [error.name] on [null] or [undefined] *)
           throw (EError "TypeError" "Cannot read properties of null")
       | _ =>
           if bool_decide (exnName error = Some "AbortError")
           then throwCli (timeoutError timeoutMs)
           else throw error
       end).

(** *** [request] *)

Definition bodyTruthy (b : option Body) : bool :=
  match b with
  | None => false
  | Some (BodyForm _) => true
  | Some (BodyJson j) => truthy j
  end.

Definition isFormData (b : option Body) : bool :=
  match b with
  | Some (BodyForm _) => true
  | _ => false
  end.

Definition buildHeaders (options : RequestOptions) : gmap string string :=
  let headers : gmap string string :=
    {[ "Notion-Version" := notionVersion options ]} in
  let headers :=
    if truthyStr (token options)
    then <[ "Authorization" := "Bearer " +:+ default "" (token options) ]> headers
    else headers in
  let headers :=
    if truthyStr (contentType options)
    then <[ "Content-Type" := default "" (contentType options) ]> headers
    else if bodyTruthy (body options) && negb (isFormData (body options))
    then <[ "Content-Type" := "application/json" ]> headers
    else headers in
  let headers :=
    if truthyStr (idempotencyKey options)
    then <[ "Idempotency-Key" := default "" (idempotencyKey options) ]> headers
    else headers in
  match extraHeaders options with
  | Some extra => extra ∪ headers
  | None => headers
  end.

Definition buildInit (options : RequestOptions) : RequestInit :=
  {| init_method := method options;
     init_headers := buildHeaders options;
     init_body :=
       match body options with
       | None => None
       | Some (BodyForm parts) => Some (InitForm parts)
       | Some (BodyJson j) => Some (InitJson j)
       end |}.

Definition buildUrl (options : RequestOptions) : Url :=
  {| url_base := Constants.BASE_URL;
     url_path := path options;
     url_query := encodeQuery (query options) |}.

(** [headers.get(name)] *)
Fixpoint headersGet (name : string) (h : list (string * string))
    : option string :=
  match h with
  | [] => None
  | (k, v) :: h' => if String.eqb k name then Some v else headersGet name h'
  end.

Definition httpError (response : HttpResponse) : CliError :=
  let status := resp_status response in
  let errorData := resp_data response in
  let notionCode := jget "code" errorData in
  let message :=
    match jget "message" errorData with
    | Some m =>
        if truthy m then jsToString m
        else "Request failed with " +:+ pretty status
    | None => "Request failed with " +:+ pretty status
    end in
  let mapped := mapHttpStatusToError status in
  newCliError mapped message
    (Some {| opt_recoverable := Some ((status =? 429)%Z || (status >=? 500)%Z);
             opt_suggestedAction :=
               if (status =? 429)%Z
               then Some "Retry after the Retry-After interval"
               else None;
             opt_context :=
               Some [("status", CJson (JNum status));
                     ("notion_code",
                      match notionCode with
                      | Some c => CJson c
                      | None => CUndefined
                      end)] |}).

(** How one pass through the body of the [while] loop ends. *)
Inductive Step :=
| Continue
| Break
| Return (response : HttpResponse).

(** The [try] block of the loop, for the attempt numbered [attempt]. *)
Definition tryBlock (url : Url) (init : RequestInit)
    (options : RequestOptions) (attempt : Z) : M Step :=
  do response <- doFetch url init (timeoutMs options);
  if (200 <=? resp_status response)%Z && (resp_status response <? 300)%Z
  then ret (Return response)
  else
    if (resp_status response =? 429)%Z && (attempt <=? retries options)%Z
    then
      sleep (if truthyStr (headersGet "retry-after" (resp_headers response))
             then RetryAfterSeconds
                    (default "" (headersGet "retry-after" (resp_headers response)))
             else Millis 1000) ;;
      ret Continue
    else throwCli (httpError response).

(** The [catch] block: the step taken and the new [lastError]. *)
Definition catchBlock (options : RequestOptions) (attempt : Z) (error : Exn)
    : M (Step * option Exn) :=
  match error with
  | ECli e =>
      if bool_decide (code e = TIMEOUT) && (attempt <=? retries options)%Z
      then ret (Continue, Some error)
      else throw error
  | _ =>
      if (attempt >? retries options)%Z
      then ret (Break, Some error)
      else ret (Continue, Some error)
  end.

Definition afterLoop {A} (lastError : option Exn) : M A :=
  match lastError with
  | Some e =>
      if instanceofError e then throw e
      else throwCli (newCliError INTERNAL_ERROR "Request failed"
             (Some {| opt_recoverable := Some false;
                      opt_suggestedAction := None;
                      opt_context := None |}))
  | None =>
      throwCli (newCliError INTERNAL_ERROR "Request failed"
        (Some {| opt_recoverable := Some false;
                 opt_suggestedAction := None;
                 opt_context := None |}))
  end.

Fixpoint requestLoop (fuel : nat) (url : Url) (init : RequestInit)
    (options : RequestOptions) (attempt : Z) (lastError : option Exn)
    : M HttpResponse :=
  if (attempt <=? retries options)%Z then
    match fuel with
    | O => outOfFuel
    | S fuel' =>
        let attempt := (attempt + 1)%Z in
        do r <- tryCatch
                  (do s <- tryBlock url init options attempt;
                   ret (s, lastError))
                  (catchBlock options attempt);
        match r.1 with
        | Return response => ret response
        | Continue => requestLoop fuel' url init options attempt r.2
        | Break => afterLoop r.2
        end
    end
  else afterLoop lastError.

(** The loop makes at most [retries + 1] passes, which is the fuel given. *)
Definition request `{Runtime} (options : RequestOptions) : M HttpResponse :=
  validatePath (path options) ;;
  requestLoop (Z.to_nat (retries options + 1)) (buildUrl options)
    (buildInit options) options 0%Z None.

End Http.

(** ** Envelopes and output ([src/core/output.ts]) *)

Module Output.

(** [?? 0] on a metadata value: [null] and [undefined] give the default. *)
Definition nullish (v : option Json) (d : Json) : Json :=
  match v with
  | None | Some JNull => d
  | Some j => j
  end.

(** The metadata object: the four standard keys, overridden by whatever
    the caller's metadata carries. *)
Definition envelopeMetadata (command : string) (metadata : gmap string Json)
    : gmap string Json :=
  metadata ∪
  <[ "command" := JStr command ]>
    (<[ "duration_ms" := nullish (metadata !! "duration_ms") (JNum 0) ]>
       (<[ "version" := JStr Constants.CLI_VERSION ]>
          {[ "schema_version" := JNum Constants.SCHEMA_VERSION ]})).

Definition successEnvelope (command : string) (data : Json)
    (warnings : list string) (metadata : gmap string Json) : Envelope :=
  SuccessEnvelope data warnings (envelopeMetadata command metadata).

Definition partialEnvelope (command : string) (data : Json)
    (metadata : gmap string Json) : Envelope :=
  PartialEnvelope data (envelopeMetadata command metadata).

Definition errorEnvelope (command : string) (error : ErrorBody)
    (metadata : gmap string Json) : Envelope :=
  ErrorEnvelope error (envelopeMetadata command metadata).

Definition writeJson (value : Envelope) (pretty : bool) : M unit :=
  writeStdout (OutEnvelope value pretty).

Definition writeNdjsonLine (value : OutLine) : M unit := writeStdout value.

End Output.

(** ** Pagination engine ([src/core/pagination.ts]) *)

Module Pagination.

Import Output.

Record PaginatedResponse := {
  results : list Json;
  has_more : bool;
  next_cursor : option string
}.

(** The value returned without streaming. *)
Record Collected := {
  all_results : list Json;
  total : nat
}.

(** [for (const item of page.results) { writeNdjsonLine(...); total += 1 }] *)
Fixpoint emitItems (items : list Json) (total : nat) : M nat :=
  match items with
  | [] => ret total
  | item :: rest =>
      writeNdjsonLine (OutItem item) ;;
      emitItems rest (total + 1)
  end.

(** [!page.has_more || !page.next_cursor] *)
Definition lastPage (page : PaginatedResponse) : bool :=
  negb (has_more page) || negb (truthyStr (next_cursor page)).

(** The [while (true)] loop; the result is [(total, all)]. *)
Fixpoint paginateLoop (fuel : nat)
    (fetchPage : option string -> M PaginatedResponse) (ndjson : bool)
    (cursor : option string) (total : nat) (all : list Json)
    : M (nat * list Json) :=
  match fuel with
  | O => outOfFuel
  | S fuel' =>
      do page <- fetchPage cursor;
      do acc <- (if ndjson
                 then do t <- emitItems (results page) total; ret (t, all)
                 else ret (length (all ++ results page), all ++ results page));
      if lastPage page then ret acc
      else paginateLoop fuel' fetchPage ndjson (next_cursor page) acc.1 acc.2
  end.

Definition paginateAll (fuel : nat)
    (fetchPage : option string -> M PaginatedResponse)
    (ndjson : option bool) : M (option Collected) :=
  do r <- paginateLoop fuel fetchPage (default false ndjson) None 0 [];
  if default false ndjson
  then writeNdjsonLine (OutSummary r.1) ;; ret None
  else ret (Some {| all_results := r.2; total := r.1 |}).

End Pagination.

(** ** Asynchronous operation registry ([src/ops/registry.ts]) *)

Module Registry.

#[local] Open Scope Z_scope.

(** Modelled from the spec: the location of the registry file ("JSONL file
    at ~/.config/notion-cli/ops.jsonl"); [constants.ts] is missing. *)
Definition OPS_PATH : string := "~/.config/notion-cli/ops.jsonl".

Definition MILLIS_PER_DAY : Z := 24 * 60 * 60 * 1000.

Definition nowIso `{Runtime} : M string :=
  do t <- dateNow; ret (toISOString t).

Definition readOps : M (list OperationReceipt) :=
  fun w =>
    match opsFile w with
    | OpsMissing => (Ok [], w)
    | OpsLines ops => (Ok ops, w)
    | OpsUnreadable e => (Throw e, w)
    end.

Definition writeOps (ops : list OperationReceipt) : M unit :=
  fun w =>
    match writeFails w OPS_PATH with
    | Some e => (Throw e, w)
    | None =>
        (Ok tt,
         mkWorld (clock w) (clockReads w) (upstream w) (netLog w) (slept w)
           (OpsLines ops) (configFile w) (writeFails w) (written w) (env w)
           (stdin w) (stdout w) (stderr w))
    end.

(** [new Date(op.updated_at).getTime() >= cutoff]; a comparison with [NaN]
    is false. *)
Definition fresh `{Runtime} (cutoff : Z) (op : OperationReceipt) : bool :=
  match dateGetTime (updated_at op) with
  | Some t => t >=? cutoff
  | None => false
  end.

Definition cleanupOps `{Runtime} (ops : list OperationReceipt)
    : M (list OperationReceipt) :=
  do now <- dateNow;
  ret (List.filter (fresh (now - Constants.RETENTION_DAYS * MILLIS_PER_DAY)) ops).

Definition appendOp `{Runtime} (op : OperationReceipt) : M unit :=
  do ops <- readOps;
  do cleaned <- cleanupOps ops;
  writeOps (cleaned ++ [op]).

Definition updateOp `{Runtime} (op : OperationReceipt) : M unit :=
  do ops <- readOps;
  do cleaned <- cleanupOps ops;
  writeOps
    (List.map
       (fun existing =>
          if String.eqb (op_id existing) (op_id op) then op else existing)
       cleaned).

(** [{ ...op, ...patch, updated_at: nowIso() }] *)
Definition touchOp `{Runtime} (op : OperationReceipt) (patch : ReceiptPatch)
    : M OperationReceipt :=
  do now <- nowIso;
  ret {| op_id := default (op_id op) (p_op_id patch);
         type := default (type op) (p_type patch);
         status := default (status op) (p_status patch);
         resource_id := default (resource_id op) (p_resource_id patch);
         resource_type := default (resource_type op) (p_resource_type patch);
         created_at := default (created_at op) (p_created_at patch);
         updated_at := now;
         metadata := default (metadata op) (p_metadata patch);
         poll := default (poll op) (p_poll patch);
         error := default (error op) (p_error patch) |}.

End Registry.

(** ** Configuration ([src/core/config.ts]) *)

Module Config.

#[local] Open Scope Z_scope.

Definition loadConfigFile : M (option FileConfig) :=
  do file <- gets configFile;
  match file with
  | CfgMissing => ret None
  | CfgFails e => throw e
  | CfgReadable openToOthers text =>
      (if openToOthers
       then writeStderr
              "WARN: Config file permissions are too open. Run: chmod 600 ~/.config/notion-cli/config.json"
       else ret tt) ;;
      match text with
      | CfgBlank => ret None
      | CfgJson c => ret (Some c)
      | CfgMalformed msg => throw (EError "SyntaxError" msg)
      end
  end.

(** The argument of [resolveConfig]. *)
Record ConfigOptions := {
  co_token : option string;
  co_tokenStdin : option bool;
  co_profile : option string;
  co_notionVersion : option string;
  co_timeoutMs : option Z;
  co_retries : option Z;
  co_pretty : option bool;
  co_stdinToken : option string
}.

(** [a ?? b] *)
Definition orElse {A} (a b : option A) : option A :=
  match a with
  | Some _ => a
  | None => b
  end.

(** [process.env.X ? f(process.env.X) : undefined] *)
Definition envVar {A} (e : gmap string string) (name : string)
    (f : string -> A) : option A :=
  match e !! name with
  | Some s => if String.eqb s "" then None else Some (f s)
  | None => None
  end.

Definition resolveConfig `{Runtime} (options : ConfigOptions)
    : M ResolvedConfig :=
  do fileConfig <- loadConfigFile;
  do e <- gets env;
  let profileName := orElse (co_profile options) (fileConfig ≫= default_profile) in
  let profile :=
    if truthyStr profileName
    then fileConfig ≫= (fun c => profiles c !! default "" profileName)
    else None in
  ret {| cfg_token :=
           orElse (co_token options)
             (orElse (co_stdinToken options)
                (orElse (e !! "NOTION_TOKEN") (profile ≫= pf_token)));
         cfg_notionVersion :=
           default Constants.DEFAULT_NOTION_VERSION
             (orElse (co_notionVersion options)
                (orElse (e !! "NOTION_VERSION") (profile ≫= pf_notion_version)));
         cfg_timeoutMs :=
           default Constants.DEFAULT_TIMEOUT_MS
             (orElse (co_timeoutMs options)
                (orElse (envVar e "NOTION_TIMEOUT" toNumber)
                   (profile ≫= pf_timeout_ms)));
         cfg_retries :=
           default Constants.DEFAULT_RETRIES
             (orElse (co_retries options)
                (orElse (envVar e "NOTION_RETRIES" toNumber)
                   (profile ≫= pf_retries)));
         cfg_pretty :=
           default false
             (orElse (co_pretty options)
                (orElse (envVar e "NOTION_PRETTY" (fun s => String.eqb s "1"))
                   (profile ≫= pf_pretty)));
         cfg_profile := profileName |}.

End Config.

(** ** Command harness ([src/core/cli.ts], [src/index.ts]) *)

Module Cli.

#[local] Open Scope Z_scope.

Import Output Config.

(** [readStdin()]: the whole of the standard input, which is then spent. *)
Definition readStdin : M string :=
  fun w =>
    (Ok (stdin w),
     mkWorld (clock w) (clockReads w) (upstream w) (netLog w) (slept w)
       (opsFile w) (configFile w) (writeFails w) (written w) (env w)
       "" (stdout w) (stderr w)).

Definition resolveContext `{Runtime} (commandName : string)
    (options : GlobalOptions) : M Context :=
  do stdinToken <-
    (if default false (o_tokenStdin options)
     then do raw <- readStdin;
          ret (if String.eqb (trim raw) "" then None else Some (trim raw))
     else ret None);
  do config <- resolveConfig
    {| co_token := o_token options;
       co_tokenStdin := o_tokenStdin options;
       co_profile := o_profile options;
       co_notionVersion := o_notionVersion options;
       co_timeoutMs := o_timeout options;
       co_retries := o_retries options;
       co_pretty := o_pretty options;
       co_stdinToken := stdinToken |};
  ret {| ctx_command := commandName;
         ctx_config := config;
         ctx_outputFile := o_outputFile options;
         ctx_pretty := default (cfg_pretty config) (o_pretty options);
         ctx_ndjson := default false (o_ndjson options);
         ctx_validate := default true (o_validate options) |}.

Definition requireToken (config : ResolvedConfig) : M string :=
  if truthyStr (cfg_token config)
  then ret (default "" (cfg_token config))
  else throwCli (newCliError AUTH_FAILED "Missing Notion token"
         (Some {| opt_recoverable := Some false;
                  opt_suggestedAction :=
                    Some "Provide --token, --token-stdin, or NOTION_TOKEN";
                  opt_context := None |})).

(** [fs.writeFile(path, JSON.stringify(envelope, ...), "utf8")] *)
Definition writeFile (file : string) (envelope : Envelope) : M unit :=
  fun w =>
    match writeFails w file with
    | Some e => (Throw e, w)
    | None =>
        (Ok tt,
         mkWorld (clock w) (clockReads w) (upstream w) (netLog w) (slept w)
           (opsFile w) (configFile w) (writeFails w)
           (written w ++ [(file, envelope)]) (env w) (stdin w) (stdout w)
           (stderr w))
    end.

Definition emitOutput (ctx : Context) (envelope : Envelope) : M unit :=
  writeJson envelope (ctx_pretty ctx) ;;
  if truthyStr (ctx_outputFile ctx)
  then writeFile (default "" (ctx_outputFile ctx)) envelope
  else ret tt.

Definition ensureTokenStdinSafe (options : GlobalOptions)
    (inputs : list (option string)) : M unit :=
  if negb (default false (o_tokenStdin options)) then ret tt
  else if existsb (fun value => bool_decide (value = Some "-")) inputs
  then throwCli (newCliError INVALID_ARGUMENT
         "--token-stdin cannot be used with stdin JSON input"
         (Some {| opt_recoverable := Some true;
                  opt_suggestedAction := Some "Use --token or avoid '-' JSON inputs";
                  opt_context := Some [("conflict", CJson (JStr "stdin"))] |}))
  else ret tt.

(** [error instanceof CliError ? error : new CliError("INTERNAL_ERROR", ...)] *)
Definition asCliError (error : Exn) : CliError :=
  match error with
  | ECli e => e
  | EError _ msg =>
      newCliError INTERNAL_ERROR msg
        (Some {| opt_recoverable := Some false; opt_suggestedAction := None;
                 opt_context := None |})
  | EValue _ =>
      newCliError INTERNAL_ERROR "Unknown error"
        (Some {| opt_recoverable := Some false; opt_suggestedAction := None;
                 opt_context := None |})
  end.

Definition handleError `{Runtime} (command : string) (error : Exn)
    (start : Z) (options : GlobalOptions) : M unit :=
  do ctx <- resolveContext command options;
  let cliError := asCliError error in
  do now <- dateNow;
  let envelope :=
    errorEnvelope command
      {| eb_code := code cliError;
         eb_message := message cliError;
         eb_recoverable := recoverable cliError;
         eb_suggested_action := suggestedAction cliError;
         eb_context := context cliError |}
      {[ "duration_ms" := JNum (now - start) ]} in
  emitOutput ctx envelope ;;
  (if negb (default false (o_quiet options))
   then writeStderr (codeName (code cliError) +:+ ": " +:+ message cliError)
   else ret tt) ;;
  processExit (EXIT_CODES (OfCode (code cliError))).

(** [(result.data as any)?.streamed === true] *)
Definition streamed (d : Json) : bool :=
  match jget "streamed" d with
  | Some (JBool true) => true
  | _ => false
  end.

(** [options] stands for [mergedOptions], the options of the command merged
    with the global ones. *)
Definition runAction `{Runtime} {T} `{ToJson T} (command : string)
    (options : GlobalOptions) (handler : Context -> M (ActionResult T))
    (stdinInputs : list (option string)) : M unit :=
  do start <- dateNow;
  tryCatch
    (ensureTokenStdinSafe options stdinInputs ;;
     do ctx <- resolveContext command options;
     do result <- handler ctx;
     (if negb (ctx_ndjson ctx && streamed (toJson (data result)))
      then do now <- dateNow;
           emitOutput ctx
             (successEnvelope command (toJson (data result)) []
                {[ "duration_ms" := JNum (now - start) ]})
      else ret tt) ;;
     processExit (default (EXIT_CODES SUCCESS) (exitCode result)))
    (fun error => handleError command error start options).

Definition parseId (positional flagValue : option string) : string :=
  default (default "" positional) flagValue.

(** The end of [src/index.ts]: [run().catch(...)], for a rejection that is
    no [CommanderError]. *)
Definition main (run : M unit) : M unit :=
  tryCatch run
    (fun error =>
       writeStderr
         ("INTERNAL_ERROR: " +:+
          (if instanceofError error then exnMessage error else "Unknown error")) ;;
       processExit (EXIT_CODES (OfCode INTERNAL_ERROR))).

End Cli.

(** ** The [ops wait] command ([src/commands/ops.ts]) *)

Module OpsCommand.

#[local] Open Scope Z_scope.

Import Registry Http.

#[global] Instance Poll_ToJson : ToJson Poll :=
  fun p => JObj [("method", JStr (poll_method p)); ("path", JStr (poll_path p))].

#[global] Instance OpError_ToJson : ToJson OpError :=
  fun e => JObj [("code", JStr (err_code e)); ("message", JStr (err_message e))].

Definition statusName (s : Status) : string :=
  match s with
  | PENDING => "PENDING"
  | IN_PROGRESS => "IN_PROGRESS"
  | COMPLETED => "COMPLETED"
  | FAILED => "FAILED"
  end.

Definition nullable {A} (f : A -> Json) (o : option A) : Json :=
  match o with
  | Some a => f a
  | None => JNull
  end.

#[global] Instance Receipt_ToJson : ToJson OperationReceipt :=
  fun r =>
    JObj [("op_id", JStr (op_id r));
          ("type", JStr (type r));
          ("status", JStr (statusName (status r)));
          ("resource_id", nullable JStr (resource_id r));
          ("resource_type", nullable JStr (resource_type r));
          ("created_at", JStr (created_at r));
          ("updated_at", JStr (updated_at r));
          ("metadata", nullable (fun m => JObj (map_to_list m)) (metadata r));
          ("poll", nullable toJson (poll r));
          ("error", nullable toJson (error r))].

Definition opNotFound (id : string) : CliError :=
  newCliError RESOURCE_NOT_FOUND "Op not found"
    (Some {| opt_recoverable := Some true;
             opt_suggestedAction := Some "Verify the op id";
             opt_context := Some [("op_id", CJson (JStr id))] |}).

Definition isTerminal (s : Status) : bool :=
  bool_decide (s = COMPLETED) || bool_decide (s = FAILED).

(** The [if (found.poll) { try { ... } catch (error) { ... } }] statement:
    [Some failed] when the [catch] block returns from the handler. *)
Definition pollOnce `{Runtime} (ctx : Context) (found : OperationReceipt)
    : M (option OperationReceipt) :=
  match poll found with
  | Some p =>
      tryCatch
        (do response <- request
           {| method := poll_method p;
              path := units (poll_path p);
              query := None;
              body := None;
              token := cfg_token (ctx_config ctx);
              notionVersion := cfg_notionVersion (ctx_config ctx);
              timeoutMs := cfg_timeoutMs (ctx_config ctx);
              retries := cfg_retries (ctx_config ctx);
              idempotencyKey := None;
              contentType := None;
              extraHeaders := None |};
         do updated <- touchOp found
           (mkPatch None None None None None None None
              (Some (Some {[ "poll" := resp_data response ]})) None None);
         updateOp updated ;;
         ret None)
        (fun error =>
           do failed <- touchOp found
             (mkPatch None None (Some FAILED) None None None None None None
                (Some (Some {| err_code := "POLL_FAILED";
                               err_message :=
                                 if instanceofError error
                                 then exnMessage error
                                 else "Poll failed" |})));
           updateOp failed ;;
           ret (Some failed))
  | None => ret None
  end.

(** The [while (Date.now() < deadline)] loop and the [throw] after it. *)
Fixpoint waitLoop `{Runtime} (fuel : nat) (ctx : Context) (id : string)
    (deadline : Z) : M (ActionResult OperationReceipt) :=
  match fuel with
  | O => outOfFuel
  | S fuel' =>
      do now <- dateNow;
      if now <? deadline then
        do opsList <- readOps;
        match List.find (fun item => String.eqb (op_id item) id) opsList with
        | None => throwCli (opNotFound id)
        | Some found =>
            if isTerminal (status found)
            then ret {| data := found; exitCode := None |}
            else
              do early <- pollOnce ctx found;
              match early with
              | Some failed => ret {| data := failed; exitCode := None |}
              | None => sleep (Millis 2000) ;; waitLoop fuel' ctx id deadline
              end
        end
      else
        throwCli (newCliError TIMEOUT "Op wait timed out"
          (Some {| opt_recoverable := Some true;
                   opt_suggestedAction := Some "Increase --timeout";
                   opt_context := Some [("op_id", CJson (JStr id))] |}))
  end.

(** The handler of [ops wait [op_id] --id <id> --timeout <sec>]. *)
Definition opsWait `{Runtime} (fuel : nat) (opId optsId : option string)
    (timeout : Z) (ctx : Context) : M (ActionResult OperationReceipt) :=
  let id := Cli.parseId opId optsId in
  if String.eqb id "" then
    throwCli (newCliError MISSING_ARGUMENT "Op id is required"
      (Some {| opt_recoverable := Some true;
               opt_suggestedAction := Some "Provide <op_id> or --id";
               opt_context := None |}))
  else
    do now <- dateNow;
    waitLoop fuel ctx id (now + timeout * 1000).

End OpsCommand.

(* ===================================================================== *)
(** * Part II: properties                                                 *)
(* ===================================================================== *)

(** ** A concrete host, for the examples

    The examples below run the embedding on one instance of [Runtime]:
    ISO 8601 timestamps of the shape produced by [toISOString]
    (YYYY-MM-DDTHH:MM:SS.mmmZ), decimal numbers, ASCII white space, and no
    case mapping outside ASCII. *)

Module Host.

#[local] Open Scope Z_scope.

Definition digit (a : Ascii.ascii) : option Z :=
  let n := Z.of_N (Ascii.N_of_ascii a) in
  if (48 <=? n) && (n <=? 57) then Some (n - 48) else None.

Fixpoint digitsFrom (acc : Z) (s : string) : option Z :=
  match s with
  | EmptyString => Some acc
  | String a s' =>
      match digit a with
      | Some d => digitsFrom (10 * acc + d) s'
      | None => None
      end
  end.

Definition number (s : string) : option Z :=
  match s with
  | EmptyString => None
  | _ => digitsFrom 0 s
  end.

(** Days from 1970-01-01 to a civil date of the Gregorian calendar. *)
Definition daysFromCivil (y m d : Z) : Z :=
  let y := if m <=? 2 then y - 1 else y in
  let era := y / 400 in
  let yoe := y - era * 400 in
  let doy := (153 * (if m >? 2 then m - 3 else m + 9) + 2) / 5 + d - 1 in
  let doe := yoe * 365 + yoe / 4 - yoe / 100 + doy in
  era * 146097 + doe - 719468.

Definition isoGetTime (s : string) : option Z :=
  if negb (Nat.eqb (String.length s) 24) then None
  else if negb (String.eqb (String.substring 4 1 s) "-" && String.eqb (String.substring 7 1 s) "-"
                && String.eqb (String.substring 10 1 s) "T" && String.eqb (String.substring 13 1 s) ":"
                && String.eqb (String.substring 16 1 s) ":" && String.eqb (String.substring 19 1 s) "."
                && String.eqb (String.substring 23 1 s) "Z") then None
  else
    match number (String.substring 0 4 s), number (String.substring 5 2 s),
          number (String.substring 8 2 s), number (String.substring 11 2 s),
          number (String.substring 14 2 s), number (String.substring 17 2 s),
          number (String.substring 20 3 s) with
    | Some y, Some mo, Some d, Some h, Some mi, Some sec, Some ms =>
        if (1 <=? mo) && (mo <=? 12) && (1 <=? d) && (d <=? 31)
           && (h <=? 23) && (mi <=? 59) && (sec <=? 59)
        then Some ((((daysFromCivil y mo d * 24 + h) * 60 + mi) * 60 + sec) * 1000 + ms)
        else None
    | _, _, _, _, _, _, _ => None
    end.

(** A number in decimal, padded with zeros to [width] digits. *)
Fixpoint padded (width : nat) (z : Z) : string :=
  match width with
  | O => ""
  | S width' =>
      padded width' (z / 10)
        +:+ String (Ascii.ascii_of_N (Z.to_N (48 + z mod 10))) ""
  end.

Definition isoOfMillis (t : Z) : string :=
  let days := t / 86400000 in
  let rest := t mod 86400000 in
  let z := days + 719468 in
  let era := z / 146097 in
  let doe := z - era * 146097 in
  let yoe := (doe - doe / 1460 + doe / 36524 - doe / 146096) / 365 in
  let doy := doe - (365 * yoe + yoe / 4 - yoe / 100) in
  let mp := (5 * doy + 2) / 153 in
  let d := doy - (153 * mp + 2) / 5 + 1 in
  let m := if mp <? 10 then mp + 3 else mp - 9 in
  let y := yoe + era * 400 + (if m <=? 2 then 1 else 0) in
  padded 4 y +:+ "-" +:+ padded 2 m +:+ "-" +:+ padded 2 d +:+ "T"
    +:+ padded 2 (rest / 3600000) +:+ ":" +:+ padded 2 (rest / 60000 mod 60)
    +:+ ":" +:+ padded 2 (rest / 1000 mod 60) +:+ "." +:+ padded 3 (rest mod 1000)
    +:+ "Z".

Definition isSpace (a : Ascii.ascii) : bool :=
  let n := Ascii.N_of_ascii a in
  ((9 <=? n) && (n <=? 13))%N || (n =? 32)%N.

Fixpoint trimLeft (s : string) : string :=
  match s with
  | String a s' => if isSpace a then trimLeft s' else s
  | EmptyString => EmptyString
  end.

Fixpoint trimRight (s : string) : string :=
  match s with
  | EmptyString => EmptyString
  | String a s' =>
      match trimRight s' with
      | EmptyString => if isSpace a then EmptyString else String a EmptyString
      | t => String a t
      end
  end.

Definition runtime : Runtime :=
  {| unicodeLower := fun _ c _ => [c];
     dateGetTime := isoGetTime;
     toISOString := isoOfMillis;
     toNumber := fun s => default 0 (number s);
     trim := fun s => trimRight (trimLeft s) |}.

(** A world in which nothing has happened yet: the clock reads [now] for
    ever, no file exists, every write succeeds. *)
Definition quiet (now : Z) (net : nat -> FetchCall -> NetOutcome) : World :=
  {| clock := fun _ => now; clockReads := 0;
     upstream := net; netLog := [];
     slept := [];
     opsFile := OpsMissing; configFile := CfgMissing;
     writeFails := fun _ => None; written := [];
     env := ∅; stdin := ""; stdout := []; stderr := [] |}.

(** A GET of [path] with the given retry count. *)
Definition get (path : string) (retries : Z) : RequestOptions :=
  {| method := "GET"; path := units path; query := None; body := None;
     token := Some "secret"; notionVersion := "2025-09-03";
     timeoutMs := 30000; retries := retries; idempotencyKey := None;
     contentType := None; extraHeaders := None |}.

(** The scenario of the specification: a first page [1, 2] with a cursor,
    a second page [3] without. *)
Definition twoPages (cursor : option string)
    : M Pagination.PaginatedResponse :=
  ret (match cursor with
       | None =>
           {| Pagination.results := [JNum 1; JNum 2];
              Pagination.has_more := true;
              Pagination.next_cursor := Some "a" |}
       | Some _ =>
           {| Pagination.results := [JNum 3];
              Pagination.has_more := false;
              Pagination.next_cursor := None |}
       end).

(** The registry file holding [ops]. *)
Definition withOps (ops : list OperationReceipt) (w : World) : World :=
  {| clock := clock w; clockReads := clockReads w;
     upstream := upstream w; netLog := netLog w;
     slept := slept w;
     opsFile := OpsLines ops; configFile := configFile w;
     writeFails := writeFails w; written := written w;
     env := env w; stdin := stdin w; stdout := stdout w; stderr := stderr w |}.

(** A receipt last updated on 2024-01-01, and one updated on 2025-11-02. *)
Definition oldReceipt : OperationReceipt :=
  {| op_id := "op-old"; type := "upload"; status := IN_PROGRESS;
     resource_id := None; resource_type := None;
     created_at := "2024-01-01T00:00:00.000Z";
     updated_at := "2024-01-01T00:00:00.000Z";
     metadata := Some {[ "attempt" := JNum 1 ]};
     poll := None; error := None |}.

Definition newReceipt : OperationReceipt :=
  {| op_id := "op-new"; type := "upload"; status := PENDING;
     resource_id := None; resource_type := None;
     created_at := "2025-11-02T00:00:00.000Z";
     updated_at := "2025-11-02T00:00:00.000Z";
     metadata := Some ∅;
     poll := None; error := None |}.

Definition doneReceipt : OperationReceipt :=
  {| op_id := "op-done"; type := "upload"; status := COMPLETED;
     resource_id := Some "file-1"; resource_type := Some "file_upload";
     created_at := "2025-11-01T00:00:00.000Z";
     updated_at := "2025-11-02T00:00:00.000Z";
     metadata := Some ∅;
     poll := Some {| poll_method := "GET"; poll_path := "/file_uploads/file-1" |};
     error := None |}.

(** The context of a command run with the built-in defaults. *)
Definition context : Context :=
  {| ctx_command := "ops wait";
     ctx_config :=
       {| cfg_token := Some "secret";
          cfg_notionVersion := Constants.DEFAULT_NOTION_VERSION;
          cfg_timeoutMs := Constants.DEFAULT_TIMEOUT_MS;
          cfg_retries := Constants.DEFAULT_RETRIES;
          cfg_pretty := false;
          cfg_profile := None |};
     ctx_outputFile := None;
     ctx_pretty := false;
     ctx_ndjson := false;
     ctx_validate := true |}.

(** The configuration file in state [file]. *)
Definition withConfig (file : ConfigFile) (w : World) : World :=
  {| clock := clock w; clockReads := clockReads w;
     upstream := upstream w; netLog := netLog w;
     slept := slept w;
     opsFile := opsFile w; configFile := file;
     writeFails := writeFails w; written := written w;
     env := env w; stdin := stdin w; stdout := stdout w; stderr := stderr w |}.

(** No flag given on the command line. *)
Definition noOptions : GlobalOptions :=
  {| o_token := None; o_tokenStdin := None; o_profile := None;
     o_notionVersion := None; o_timeout := None; o_retries := None;
     o_outputFile := None; o_pretty := None; o_ndjson := None;
     o_validate := None; o_debug := None; o_verbose := None;
     o_quiet := None |}.

End Host.

(** ** The request engine: attempts, retries and status mapping *)

Section RequestEngine.

Import Http.
Context `{rt : Runtime}.
#[local] Open Scope Z_scope.

(** The physical attempt made for [options]. *)
Definition theCall (url : Url) (init : RequestInit) (options : RequestOptions)
    : FetchCall :=
  {| fc_url := url; fc_init := init; fc_timeoutMs := timeoutMs options |}.

(** Number of physical attempts made between two worlds. *)
Definition attempts (w w' : World) : Z :=
  Z.of_nat (length (netLog w')) - Z.of_nat (length (netLog w)).

(** An upstream that answers 429 to every attempt, with a body that is
    empty or JSON. *)
Definition always429 (w : World) : Prop :=
  forall k call, exists text headers,
    upstream w k call = NetResponse 429 text headers /\ text <> TextMalformed.

(** The path passes [validatePath]. *)
Definition pathAccepted (p : jsstr) : Prop :=
  forall w, validatePath p w = (Ok tt, w).

Lemma validatePath_frame p w r w' :
  validatePath p w = (r, w') ->
  w' = w /\ (r = Ok tt \/ exists e, r = Throw e).
Proof.
  unfold validatePath, throw, throwCli, throw, ret. intros Hrun.
  repeat (case_match; simplify_eq/=); eauto.
Qed.

Lemma validatePath_world p w1 w2 :
  (validatePath p w1).1 = (validatePath p w2).1.
Proof.
  unfold validatePath, throw, throwCli, throw, ret.
  repeat case_match; done.
Qed.

Lemma doFetch_log url init t w r w' :
  doFetch url init t w = (r, w') ->
  netLog w' = netLog w ++ [{| fc_url := url; fc_init := init; fc_timeoutMs := t |}]
  /\ upstream w' = upstream w /\ r <> OutOfFuel /\ (forall c, r <> Exit c).
Proof.
  unfold doFetch, tryCatch, bind, fetchText, jsonParse, ret, throw, throwCli, throw.
  intros Hrun.
  repeat (case_match; simplify_eq/=); try done.
Qed.

Lemma tryBlock_log url init options attempt w r w' :
  tryBlock url init options attempt w = (r, w') ->
  netLog w' = netLog w ++ [theCall url init options]
  /\ upstream w' = upstream w /\ r <> OutOfFuel /\ (forall c, r <> Exit c).
Proof.
  unfold tryBlock, bind. intros Hrun.
  destruct (doFetch _ _ _ w) as [r0 w0] eqn:Hfetch.
  apply doFetch_log in Hfetch as (Hlog & Hup & Hfuel & Hexit).
  unfold sleep, modify, ret, throwCli, throw in Hrun.
  repeat (case_match; simplify_eq/=); try done.
  by destruct (Hexit code0).
Qed.

Lemma catchBlock_frame options attempt e w r w' :
  catchBlock options attempt e w = (r, w') ->
  w' = w /\ r <> OutOfFuel /\ (forall c, r <> Exit c).
Proof.
  unfold catchBlock, ret, throw. intros Hrun.
  repeat (case_match; simplify_eq/=); done.
Qed.

Lemma afterLoop_frame {A} lastError w (r : Res A) w' :
  afterLoop lastError w = (r, w') ->
  w' = w /\ exists e, r = Throw e.
Proof.
  unfold afterLoop, throwCli, throw. intros Hrun.
  repeat (case_match; simplify_eq/=); eauto.
Qed.

(** One pass through the loop body makes exactly one physical attempt. *)
Lemma pass_log url init options attempt lastError w r w' :
  tryCatch (do s <- tryBlock url init options attempt; ret (s, lastError))
    (catchBlock options attempt) w = (r, w') ->
  netLog w' = netLog w ++ [theCall url init options]
  /\ upstream w' = upstream w /\ r <> OutOfFuel /\ (forall c, r <> Exit c).
Proof.
  unfold tryCatch, bind. intros Hrun.
  destruct (tryBlock _ _ _ _ w) as [r0 w0] eqn:Htry.
  apply tryBlock_log in Htry as (Hlog & Hup & Hfuel & Hexit).
  destruct r0; simplify_eq/=; try done.
  - apply catchBlock_frame in Hrun as (-> & ? & ?). done.
  - by destruct (Hexit code0).
Qed.

(** The loop started at [attempt] makes at most [retries + 1 - attempt]
    attempts, and that much fuel is enough for it. *)
Lemma requestLoop_bound fuel url init options :
  forall attempt lastError w r w',
  requestLoop fuel url init options attempt lastError w = (r, w') ->
  exists calls,
    netLog w' = netLog w ++ calls
    /\ (length calls <= Z.to_nat (retries options + 1 - attempt))%nat
    /\ upstream w' = upstream w
    /\ (forall c, r <> Exit c)
    /\ ((Z.to_nat (retries options + 1 - attempt) <= fuel)%nat -> r <> OutOfFuel).
Proof.
  induction fuel as [|fuel IH]; intros attempt lastError w r w' Hrun;
    simpl in Hrun.
  - destruct (attempt <=? retries options) eqn:Hle.
    + unfold outOfFuel in Hrun. simplify_eq. exists []. rewrite app_nil_r.
      repeat split; [simpl; lia | done | lia].
    + apply afterLoop_frame in Hrun as (-> & e & ->). exists [].
      rewrite app_nil_r. repeat split; [simpl; lia | done | done].
  - destruct (attempt <=? retries options) eqn:Hle.
    + unfold bind at 1 in Hrun.
      destruct (tryCatch _ _ w) as [r0 w0] eqn:Hpass.
      apply pass_log in Hpass as (Hlog & Hup & Hfuel & Hexit).
      destruct r0 as [[s le]| | |]; simplify_eq/=; try done.
      * destruct s.
        -- apply IH in Hrun as (calls & Hlog' & Hlen & Hup' & Hexit' & Hfuel').
           exists (theCall url init options :: calls).
           rewrite Hlog', Hlog, <- app_assoc.
           repeat split; [simpl; lia | congruence | done | ].
           intros ?. apply Hfuel'. lia.
        -- apply afterLoop_frame in Hrun as (-> & e & ->).
           exists [theCall url init options].
           repeat split; [done | simpl; lia | done | done | done].
        -- unfold ret in Hrun. simplify_eq.
           exists [theCall url init options].
           repeat split; [done | simpl; lia | done | done | done].
      * exists [theCall url init options].
        repeat split; [done | simpl; lia | done | done | done].
      * by destruct (Hexit code0).
    + apply afterLoop_frame in Hrun as (-> & e & ->). exists [].
      rewrite app_nil_r. repeat split; [simpl; lia | done | done].
Qed.

Lemma httpError_429 response :
  resp_status response = 429 ->
  code (httpError response) = RATE_LIMITED
  /\ recoverable (httpError response) = true.
Proof. intros H. unfold httpError. rewrite H. done. Qed.

Lemma tryBlock_429 url init options attempt w :
  always429 w ->
  exists r w',
    tryBlock url init options attempt w = (r, w')
    /\ netLog w' = netLog w ++ [theCall url init options]
    /\ upstream w' = upstream w
    /\ (if attempt <=? retries options
        then r = Ok Continue /\ length (slept w') = S (length (slept w))
        else (exists e, r = Throw (ECli e) /\ code e = RATE_LIMITED)
             /\ slept w' = slept w).
Proof.
  intros H429.
  destruct (H429 (length (netLog w)) (theCall url init options))
    as (text & headers & Hup & Htext).
  unfold tryBlock, bind, doFetch, tryCatch, bind, fetchText.
  unfold theCall in Hup. rewrite Hup.
  destruct text; try done; simpl.
  all: destruct (attempt <=? retries options); simpl.
  all: eexists _, _; split; [reflexivity|]; simpl.
  all: repeat split; try done; try (rewrite length_app; simpl; lia).
  all: eexists; split; [reflexivity|]; by apply httpError_429.
Qed.

(** Against a permanent 429 the loop uses every attempt it has, sleeps
    between them, and ends with [RATE_LIMITED]. *)
Lemma requestLoop_429 url init options : forall fuel attempt lastError w,
  always429 w ->
  attempt <= retries options ->
  (Z.to_nat (retries options + 1 - attempt) <= fuel)%nat ->
  exists e w',
    requestLoop fuel url init options attempt lastError w = (Throw (ECli e), w')
    /\ code e = RATE_LIMITED
    /\ length (netLog w')
       = (length (netLog w) + Z.to_nat (retries options + 1 - attempt))%nat
    /\ length (slept w')
       = (length (slept w) + Z.to_nat (retries options - attempt))%nat.
Proof.
  induction fuel as [|fuel IH]; intros attempt lastError w H429 Hle Hfuel; [lia|].
  simpl. destruct (attempt <=? retries options) eqn:Hb; [|lia].
  destruct (tryBlock_429 url init options (attempt + 1) w H429)
    as (r & w1 & Htry & Hlog & Hup & Hcase).
  unfold bind at 1, tryCatch, bind at 1. rewrite Htry.
  destruct (attempt + 1 <=? retries options) eqn:Hb'.
  - destruct Hcase as [-> Hslept]. simpl.
    destruct (IH (attempt + 1) lastError w1) as (e & w' & Hrun & Hcode & Hlen & Hsl).
    { intros k call. rewrite Hup. apply H429. }
    { lia. }
    { lia. }
    exists e, w'. rewrite Hrun. repeat split; [done| |].
    + rewrite Hlen, Hlog, length_app. simpl. lia.
    + rewrite Hsl, Hslept. lia.
  - destruct Hcase as [(e & -> & Hcode) Hslept]. simpl.
    unfold catchBlock. rewrite Hcode. simpl. unfold throw.
    exists e, w1. repeat split; [done| |].
    + rewrite Hlog, length_app. simpl. lia.
    + rewrite Hslept. lia.
Qed.

(** Whatever [validatePath] throws is what [request] throws, and the world
    is left as it was: nothing has been sent. *)
Lemma request_rejected options w e :
  validatePath (path options) w = (Throw e, w) ->
  request options w = (Throw e, w).
Proof. intros Hv. unfold request, bind. by rewrite Hv. Qed.

Lemma request_accepted options w :
  pathAccepted (path options) ->
  request options w =
    requestLoop (Z.to_nat (retries options + 1)) (buildUrl options)
      (buildInit options) options 0 None w.
Proof. intros Hv. unfold request, bind. by rewrite Hv. Qed.

(** C5: with [retries = N] (a count, so [0 <= N]) the engine makes at most
    [N + 1] physical attempts and always comes back; against an upstream
    that answers 429 to every attempt it makes exactly [N + 1] attempts
    (sleeping [N] times in between) and then raises [RATE_LIMITED]. *)
Theorem request_retry_bound (options : RequestOptions) (w : World) :
  0 <= retries options ->
  (attempts w (request options w).2 <= retries options + 1
   /\ (request options w).1 <> OutOfFuel)
  /\ (pathAccepted (path options) -> always429 w ->
      attempts w (request options w).2 = retries options + 1
      /\ Z.of_nat (length (slept (request options w).2))
         = Z.of_nat (length (slept w)) + retries options
      /\ exists e, (request options w).1 = Throw (ECli e)
                   /\ code e = RATE_LIMITED).
Proof.
  intros Hn. split.
  - unfold request, bind.
    destruct (validatePath (path options) w) as [r0 w0] eqn:Hv.
    apply validatePath_frame in Hv as (-> & [-> | [e ->]]); simpl.
    + destruct (requestLoop _ _ _ _ _ _ w) as [r w'] eqn:Hrun.
      apply requestLoop_bound in Hrun as (calls & Hlog & Hlen & _ & _ & Hfuel).
      simpl. split.
      * unfold attempts. rewrite Hlog, length_app. lia.
      * apply Hfuel. lia.
    + split; [unfold attempts; lia | done].
  - intros Hpath H429. rewrite request_accepted by done.
    destruct (requestLoop_429 (buildUrl options) (buildInit options) options
                (Z.to_nat (retries options + 1)) 0 None w H429)
      as (e & w' & Hrun & Hcode & Hlen & Hsl); [lia | lia |].
    rewrite Hrun. simpl. repeat split.
    + unfold attempts. rewrite Hlen. lia.
    + rewrite Hsl. lia.
    + by exists e.
Qed.

(** The status mapping for one attempt answered 404 with a JSON body that
    carries a message. *)
Lemma tryBlock_404 url init options attempt w body headers msg :
  upstream w (length (netLog w)) (theCall url init options)
    = NetResponse 404 (TextJson body) headers ->
  jget "message" body = Some (JStr msg) ->
  msg <> "" ->
  exists e w',
    tryBlock url init options attempt w = (Throw (ECli e), w')
    /\ code e = RESOURCE_NOT_FOUND
    /\ message e = msg
    /\ recoverable e = false
    /\ attempts w w' = 1.
Proof.
  intros Hup Hmsg Hne.
  unfold tryBlock, bind, doFetch, tryCatch, bind, fetchText.
  unfold theCall in Hup. rewrite Hup. simpl.
  eexists _, _. split; [reflexivity|].
  unfold httpError. simpl. rewrite Hmsg. simpl.
  assert (String.eqb msg "" = false) as -> by by apply String.eqb_neq.
  simpl. repeat split. unfold attempts. simpl. rewrite length_app. simpl. lia.
Qed.

(** C2: a request answered 404 with a JSON body that carries a message is
    surfaced, after that single attempt, as the taxonomy error
    [RESOURCE_NOT_FOUND] with the upstream message and exit code 4; its
    [recoverable] flag is [false], the engine marking only 429 and 5xx as
    recoverable. *)
Theorem request_404_not_recoverable (options : RequestOptions) (w : World)
    (body : Json) (headers : list (string * string)) (msg : string) :
  pathAccepted (path options) ->
  0 <= retries options ->
  upstream w (length (netLog w))
    (theCall (buildUrl options) (buildInit options) options)
    = NetResponse 404 (TextJson body) headers ->
  jget "message" body = Some (JStr msg) ->
  msg <> "" ->
  exists e,
    (request options w).1 = Throw (ECli e)
    /\ code e = RESOURCE_NOT_FOUND
    /\ message e = msg
    /\ recoverable e = false
    /\ EXIT_CODES (OfCode (code e)) = 4
    /\ attempts w (request options w).2 = 1.
Proof.
  intros Hpath Hn Hup Hmsg Hne. rewrite request_accepted by done.
  destruct (Z.to_nat (retries options + 1)) as [|fuel] eqn:Hfuel; [lia|].
  destruct (tryBlock_404 _ _ _ (0 + 1) _ _ _ _ Hup Hmsg Hne)
    as (e & w' & Htry & Hcode & Hm & Hrec & Hatt).
  assert (requestLoop (S fuel) (buildUrl options) (buildInit options) options
            0 None w = (Throw (ECli e), w')) as ->.
  { simpl. destruct (0 <=? retries options) eqn:Hb; [|lia].
    unfold bind at 1, tryCatch, bind at 1. rewrite Htry. simpl.
    unfold catchBlock. rewrite Hcode. reflexivity. }
  exists e. rewrite Hcode. done.
Qed.

End RequestEngine.

(** The scenario of the specification: one GET answered 404 with the body
    [{"message":"not found"}]. *)
Lemma request_404_not_recoverable_witness :
  exists e,
    (Http.request (H := Host.runtime) (Host.get "/pages/abc" 3)
       (Host.quiet 0 (fun _ _ =>
          NetResponse 404 (TextJson (JObj [("message", JStr "not found")])) []))).1
      = Throw (ECli e)
    /\ code e = RESOURCE_NOT_FOUND
    /\ message e = "not found"
    /\ recoverable e = false
    /\ EXIT_CODES (OfCode (code e)) = 4%Z
    /\ attempts
         (Host.quiet 0 (fun _ _ =>
            NetResponse 404 (TextJson (JObj [("message", JStr "not found")])) []))
         (Http.request (H := Host.runtime) (Host.get "/pages/abc" 3)
            (Host.quiet 0 (fun _ _ =>
               NetResponse 404 (TextJson (JObj [("message", JStr "not found")])) []))).2
       = 1%Z.
Proof.
  apply (request_404_not_recoverable (rt := Host.runtime)
           (Host.get "/pages/abc" 3) _ (JObj [("message", JStr "not found")]) []
           "not found").
  - intros w. reflexivity.
  - simpl. lia.
  - reflexivity.
  - reflexivity.
  - discriminate.
Defined.

(** Three retries against a permanent 429: four attempts, three sleeps,
    then [RATE_LIMITED]. *)
Lemma request_retry_bound_witness :
  (attempts (Host.quiet 0 (fun _ _ => NetResponse 429 TextEmpty []))
     (Http.request (H := Host.runtime) (Host.get "/users" 3)
        (Host.quiet 0 (fun _ _ => NetResponse 429 TextEmpty []))).2 = 4%Z)
  /\ exists e,
       (Http.request (H := Host.runtime) (Host.get "/users" 3)
          (Host.quiet 0 (fun _ _ => NetResponse 429 TextEmpty []))).1
         = Throw (ECli e)
       /\ code e = RATE_LIMITED.
Proof.
  destruct (request_retry_bound (rt := Host.runtime) (Host.get "/users" 3)
              (Host.quiet 0 (fun _ _ => NetResponse 429 TextEmpty [])))
    as [_ H429].
  - simpl. lia.
  - destruct H429 as (Hatt & _ & He).
    + intros w. reflexivity.
    + intros k call. exists TextEmpty, []. split; [reflexivity | discriminate].
    + split; [exact Hatt | exact He].
Defined.


(** ** Path safety *)

Section PathSafety.

Import Http.
Context `{rt : Runtime}.
#[local] Open Scope N_scope.

(** [contains s pat]: [pat] occurs in [s] as a contiguous run. *)
Definition contains (s pat : jsstr) : Prop :=
  exists a b, s = a ++ pat ++ b.

Lemma startsWith_spec pat : forall s,
  startsWith pat s = true <-> exists b, s = pat ++ b.
Proof.
  induction pat as [|p pat IH]; intros s; simpl.
  - split; [eauto | done].
  - destruct s as [|c s]; [split; [done | intros [b Hb]; done]|].
    rewrite andb_true_iff, N.eqb_eq, IH. split.
    + intros [-> [b ->]]. eauto.
    + intros [b Hb]. simplify_eq. eauto.
Qed.

Lemma includes_spec pat : forall s,
  includes s pat = true <-> contains s pat.
Proof.
  induction s as [|c s IH]; simpl.
  - rewrite orb_false_r, startsWith_spec. split.
    + intros [b Hb]. by exists [], b.
    + intros (a & b & Hab). destruct a; [by exists b|done].
  - rewrite orb_true_iff, startsWith_spec, IH. split.
    + intros [[b Hb] | (a & b & ->)].
      * by exists [], b.
      * by exists (c :: a), b.
    + intros (a & b & Hab). destruct a as [|c' a]; simpl in Hab.
      * left. by exists b.
      * right. simplify_eq. by exists a, b.
Qed.

(** The scanner, stopped after a prefix: the state reached and the output. *)
Fixpoint scanPrefix (st : Scan) (s : jsstr) : option (Scan * jsstr) :=
  match s with
  | [] => Some (st, [])
  | c :: s' =>
      match scanStep st c with
      | Some (st', out) =>
          match scanPrefix st' s' with
          | Some (st'', r) => Some (st'', out ++ r)
          | None => None
          end
      | None => None
      end
  end.

Lemma scan_app a : forall st t r,
  scan st (a ++ t) = Some r ->
  exists st' ra rt,
    scanPrefix st a = Some (st', ra) /\ scan st' t = Some rt /\ r = ra ++ rt.
Proof.
  induction a as [|c a IH]; intros st t r Hscan; simpl in *.
  - by exists st, [], r.
  - destruct (scanStep st c) as [[st1 out]|]; [|done].
    destruct (scan st1 (a ++ t)) as [r1|] eqn:Hrest; [|done].
    simplify_eq. apply IH in Hrest as (st' & ra & rt' & -> & Ht & ->).
    exists st', (out ++ ra), rt'. by rewrite app_assoc.
Qed.

(** The three spellings of a dot that decode to a dot. *)
Definition dots : list jsstr := [units "."; units "%2e"; units "%2E"].

(** A dot, plain or percent-encoded, can only be read at the top level of
    the scanner, where it yields a dot. *)
Lemma scan_dot dot st t r :
  dot ∈ dots ->
  scan st (dot ++ t) = Some r ->
  st = Top /\ exists r', scan Top t = Some r' /\ r = 46 :: r'.
Proof.
  unfold dots. rewrite !elem_of_cons, elem_of_nil.
  intros [-> | [-> | [-> | []]]] Hscan.
  all: destruct st as [| [p|] | [p|] hi | p]; simpl in Hscan; try done.
  all: try (destruct (scan Top t) as [r'|]; [|done]; simplify_eq; eauto).
  all: try (destruct (hexVal hi); done).
  all: try (unfold octetDone in Hscan; simpl in Hscan; done).
Qed.

Lemma lowerFrom_app x : forall before y,
  exists pre, lowerFrom before (x ++ y) = pre ++ lowerFrom (before ++ x) y.
Proof.
  induction x as [|c x IH]; intros before y; simpl.
  - exists []. by rewrite app_nil_r.
  - destruct (IH (before ++ [c]) y) as [pre Hpre]. rewrite Hpre.
    eexists. rewrite (app_assoc _ pre), <- (app_assoc before [c] x).
    reflexivity.
Qed.

Lemma toLowerCase_keeps_dots a b :
  contains (toLowerCase (a ++ 46 :: 46 :: b)) (units "..").
Proof.
  unfold toLowerCase.
  destruct (lowerFrom_app a [] (46 :: 46 :: b)) as [pre ->].
  exists pre. eexists. reflexivity.
Qed.

Definition slashes : list jsstr := [units "/"; units "%2f"; units "%2F"].

(** A parent-directory traversal sequence: dot, dot, slash, each of them
    plain or percent-encoded in either case. *)
Definition isTraversal (pat : jsstr) : Prop :=
  exists d1 d2 sl, d1 ∈ dots /\ d2 ∈ dots /\ sl ∈ slashes /\ pat = d1 ++ d2 ++ sl.

Definition hasTraversal (p : jsstr) : Prop :=
  exists pat, isTraversal pat /\ contains p pat.

Lemma decoded_traversal_has_dots p decoded :
  hasTraversal p ->
  decodeURIComponent p = Some decoded ->
  contains (toLowerCase decoded) (units "..").
Proof.
  intros (pat & (d1 & d2 & sl & Hd1 & Hd2 & _ & ->) & a & b & ->) Hdec.
  unfold decodeURIComponent in Hdec. rewrite <- !app_assoc in Hdec.
  apply scan_app in Hdec as (st & ra & rt' & _ & Hrest & ->).
  apply (scan_dot d1) in Hrest as (_ & r1 & Hrest & ->); [|done].
  apply (scan_dot d2) in Hrest as (_ & r2 & _ & ->); [|done].
  apply toLowerCase_keeps_dots.
Qed.

Lemma validatePath_rejects p decoded w :
  decodeURIComponent p = Some decoded ->
  contains (toLowerCase decoded) (units "..")
  \/ contains (toLowerCase decoded) (units "%2e") ->
  validatePath p w = (Throw (ECli (pathTraversalError p)), w).
Proof.
  intros Hdec Hc. unfold validatePath. rewrite Hdec.
  rewrite <- !includes_spec in Hc. apply orb_true_iff in Hc. by rewrite Hc.
Qed.

Lemma traversal_rejected_when_decodable options decoded w :
  hasTraversal (path options) ->
  decodeURIComponent (path options) = Some decoded ->
  request options w = (Throw (ECli (pathTraversalError (path options))), w)
  /\ code (pathTraversalError (path options)) = INVALID_ARGUMENT.
Proof.
  intros Ht Hdec. split; [|done]. apply request_rejected.
  eapply validatePath_rejects; [done|]. left.
  by eapply decoded_traversal_has_dots.
Qed.

Lemma traversal_never_sent options w :
  hasTraversal (path options) ->
  (request options w).2 = w /\ exists e, (request options w).1 = Throw e.
Proof.
  intros Ht. destruct (decodeURIComponent (path options)) as [d|] eqn:Hdec.
  - destruct (traversal_rejected_when_decodable options d w Ht Hdec) as [-> _].
    eauto.
  - rewrite (request_rejected options w (EError "URIError" "URI malformed")).
    + eauto.
    + unfold validatePath. by rewrite Hdec.
Qed.

(** Segments of a path, and the detection of a parent-directory segment
    (a segment that is exactly two dots): what the specification calls
    traversal-segment detection. *)
Fixpoint segments (s : jsstr) : list jsstr :=
  match s with
  | [] => [[]]
  | c :: s' =>
      if c =? 47 then [] :: segments s'
      else match segments s' with
           | seg :: segs => (c :: seg) :: segs
           | [] => [[c]]
           end
  end.

Definition hasParentSegment (s : jsstr) : bool :=
  existsb (fun seg => bool_decide (seg = units "..")) (segments s).

Lemma segments_head s :
  exists seg segs b, segments s = seg :: segs /\ s = seg ++ b.
Proof.
  induction s as [|c s (seg & segs & b & Hs & Hb)]; simpl.
  - by exists [], [], [].
  - destruct (c =? 47).
    + by exists [], (segments s), (c :: s).
    + rewrite Hs. exists (c :: seg), segs, b. by rewrite Hb at 1.
Qed.

Lemma segments_contains s : forall seg, seg ∈ segments s -> contains s seg.
Proof.
  induction s as [|c s IH]; intros seg; simpl.
  - rewrite list_elem_of_singleton. intros ->. by exists [], [].
  - destruct (c =? 47).
    + rewrite elem_of_cons. intros [-> | Hin].
      * by exists [], (c :: s).
      * destruct (IH _ Hin) as (a & b & ->). by exists (c :: a), b.
    + destruct (segments_head s) as (seg0 & segs & b & Hs & Hb).
      rewrite Hs in *. rewrite elem_of_cons. intros [-> | Hin].
      * exists [], b. simpl. by rewrite Hb at 1.
      * destruct (IH seg) as (a & b' & ->); [by right|]. by exists (c :: a), b'.
Qed.

Lemma parentSegment_has_dots s :
  hasParentSegment s = true -> contains s (units "..").
Proof.
  unfold hasParentSegment. rewrite existsb_exists.
  intros (seg & Hin & Heq). apply bool_decide_eq_true in Heq as ->.
  apply segments_contains. by apply list_elem_of_In.
Qed.

(** C10: a path whose percent-decoded, lower-cased form contains two dots
    in a row anywhere, or the text %2e, is rejected by the request engine
    with [INVALID_ARGUMENT] and nothing is sent. This is strictly broader
    than detecting a parent-directory segment: every path with such a
    segment has two dots in a row, while /blocks/a..b has no such segment
    and is rejected all the same. *)
Theorem validatePath_broader_than_segments (options : RequestOptions)
    (w : World) (decoded : jsstr) :
  decodeURIComponent (path options) = Some decoded ->
  contains (toLowerCase decoded) (units "..")
  \/ contains (toLowerCase decoded) (units "%2e") ->
  (request options w = (Throw (ECli (pathTraversalError (path options))), w)
   /\ code (pathTraversalError (path options)) = INVALID_ARGUMENT
   /\ netLog (request options w).2 = netLog w)
  /\ (forall s, hasParentSegment s = true -> contains s (units ".."))
  /\ (decodeURIComponent (units "/blocks/a..b") = Some (units "/blocks/a..b")
      /\ hasParentSegment (toLowerCase (units "/blocks/a..b")) = false
      /\ contains (toLowerCase (units "/blocks/a..b")) (units "..")).
Proof.
  intros Hdec Hc.
  assert (request options w
          = (Throw (ECli (pathTraversalError (path options))), w)) as Hreq.
  { apply request_rejected. by eapply validatePath_rejects. }
  repeat split.
  - done.
  - by rewrite Hreq.
  - apply parentSegment_has_dots.
  - apply includes_spec. reflexivity.
Qed.


(** C8: the path /../%zz contains the traversal sequence ../ and is turned
    down before anything is sent, but not with [INVALID_ARGUMENT]:
    [decodeURIComponent] throws a [URIError] on the malformed escape, which
    leaves [validatePath] and [request] as it is and which the harness
    reports as [INTERNAL_ERROR], exit code 125. *)
Theorem request_traversal_malformed_escape (n : Z) (w : World) :
  hasTraversal (units "/../%zz")
  /\ request (Host.get "/../%zz" n) w
     = (Throw (EError "URIError" "URI malformed"), w)
  /\ code (Cli.asCliError (EError "URIError" "URI malformed")) = INTERNAL_ERROR
  /\ EXIT_CODES (OfCode INTERNAL_ERROR) = 125%Z.
Proof.
  split; [|split; [|split]].
  - exists (units "../"). split.
    + exists (units "."), (units "."), (units "/").
      unfold dots, slashes. rewrite !elem_of_cons. auto.
    + by exists (units "/"), (units "%zz").
  - apply request_rejected. reflexivity.
  - reflexivity.
  - reflexivity.
Qed.

End PathSafety.

(** The identifier a..b is no parent-directory segment, and the request is
    rejected nevertheless. *)
Lemma validatePath_broader_than_segments_witness :
  Http.request (H := Host.runtime) (Host.get "/blocks/a..b" 3)
    (Host.quiet 0 (fun _ _ => NetThrows (EValue JNull)))
  = (Throw (ECli (Http.pathTraversalError (units "/blocks/a..b"))),
     Host.quiet 0 (fun _ _ => NetThrows (EValue JNull))).
Proof.
  destruct (validatePath_broader_than_segments (rt := Host.runtime)
              (Host.get "/blocks/a..b" 3)
              (Host.quiet 0 (fun _ _ => NetThrows (EValue JNull)))
              (units "/blocks/a..b")) as [[Hreq _] _].
  - reflexivity.
  - left. apply includes_spec. reflexivity.
  - exact Hreq.
Defined.


(** ** The pagination engine *)

Section PaginationEngine.

Import Output Pagination.

(** The world after [lines] were written to the primary channel. *)
Definition addStdout (lines : list OutLine) (w : World) : World :=
  mkWorld (clock w) (clockReads w) (upstream w) (netLog w) (slept w)
    (opsFile w) (configFile w) (writeFails w) (written w) (env w) (stdin w)
    (stdout w ++ lines) (stderr w).

Lemma addStdout_nil w : addStdout [] w = w.
Proof. destruct w. unfold addStdout. simpl. by rewrite app_nil_r. Qed.

Lemma addStdout_app l1 l2 w :
  addStdout l2 (addStdout l1 w) = addStdout (l1 ++ l2) w.
Proof. unfold addStdout. simpl. by rewrite app_assoc. Qed.

Lemma emitItems_spec items : forall total w,
  emitItems items total w
  = (Ok (total + length items), addStdout (List.map OutItem items) w).
Proof.
  induction items as [|item items IH]; intros total w; simpl.
  - unfold ret. by rewrite addStdout_nil, Nat.add_0_r.
  - unfold bind, writeNdjsonLine, writeStdout, modify. simpl.
    rewrite IH. f_equal; [f_equal; lia|].
    unfold addStdout. simpl. by rewrite <- app_assoc.
Qed.

(** What the engine does to the world with one page: nothing, or one item
    line for each of its results. *)
Definition emitPage (ndjson : bool) (page : PaginatedResponse) (w : World)
    : World :=
  if ndjson then addStdout (List.map OutItem (results page)) w else w.

(** A run of the engine over a fetch function: from [cursor] in world [w] it
    fetches [pages], following the cursors, up to the first page that ends
    the loop, and leaves the world [w']. *)
Inductive PageRun (ndjson : bool)
    (fetchPage : option string -> M PaginatedResponse)
    : option string -> World -> list PaginatedResponse -> World -> Prop :=
| run_last cursor w page w' :
    fetchPage cursor w = (Ok page, w') ->
    lastPage page = true ->
    PageRun ndjson fetchPage cursor w [page] (emitPage ndjson page w')
| run_more cursor w page w' pages w'' :
    fetchPage cursor w = (Ok page, w') ->
    lastPage page = false ->
    PageRun ndjson fetchPage (next_cursor page) (emitPage ndjson page w')
      pages w'' ->
    PageRun ndjson fetchPage cursor w (page :: pages) w''.

(** All the items of a sequence of pages, in page order. *)
Definition itemsOf (pages : list PaginatedResponse) : list Json :=
  concat (List.map results pages).

Lemma lastPage_either page :
  has_more page = false \/ next_cursor page = None -> lastPage page = true.
Proof.
  unfold lastPage. intros [-> | ->]; [done|]. simpl. by rewrite orb_true_r.
Qed.

Lemma paginateLoop_run ndjson fetchPage cursor w pages w' :
  PageRun ndjson fetchPage cursor w pages w' ->
  forall fuel total all,
  length pages <= fuel ->
  paginateLoop fuel fetchPage ndjson cursor total all w
  = (Ok (if ndjson then (total + length (itemsOf pages), all)
         else (length (all ++ itemsOf pages), all ++ itemsOf pages)),
     w').
Proof.
  induction 1 as [cursor w page w' Hfetch Hlast
                 |cursor w page w' pages w'' Hfetch Hlast Hrun IH];
    intros fuel total all Hfuel; (destruct fuel as [|fuel]; [simpl in Hfuel; lia|]).
  - simpl. unfold bind at 1. rewrite Hfetch. unfold itemsOf. simpl.
    rewrite app_nil_r. destruct ndjson; simpl.
    + unfold bind. rewrite emitItems_spec. simpl. by rewrite Hlast.
    + unfold bind. simpl. by rewrite Hlast.
  - simpl. unfold bind at 1. rewrite Hfetch. unfold itemsOf. simpl.
    destruct ndjson; simpl.
    + unfold bind at 1. unfold bind at 1. rewrite emitItems_spec. simpl.
      rewrite Hlast. simpl in IH. rewrite IH by (simpl in Hfuel; lia).
      rewrite length_app. fold (itemsOf pages). do 3 f_equal. lia.
    + unfold bind at 1. simpl. rewrite Hlast. simpl in IH.
      rewrite IH by (simpl in Hfuel; lia).
      by rewrite <- (app_assoc all).
Qed.

(** C6: when the run of the engine over a fetch function reaches a page
    that ends the loop, the engine terminates (any fuel that covers the
    pages fetched is enough) and, without streaming, returns the
    concatenation of the results of all pages in page order, with [total]
    its length. A page ends the loop as soon as [has_more] is false or
    [next_cursor] is null, either alone, so also when [has_more] is true
    and no cursor is given. *)
Theorem paginateAll_terminates
    (fetchPage : option string -> M PaginatedResponse) (w w' : World)
    (pages : list PaginatedResponse) (fuel : nat) :
  PageRun false fetchPage None w pages w' ->
  length pages <= fuel ->
  paginateAll fuel fetchPage (Some false) w
  = (Ok (Some {| all_results := itemsOf pages;
                 total := length (itemsOf pages) |}), w')
  /\ (forall page,
        has_more page = false \/ next_cursor page = None ->
        lastPage page = true).
Proof.
  intros Hrun Hfuel. split; [|apply lastPage_either].
  unfold paginateAll, bind. simpl.
  by rewrite (paginateLoop_run _ _ _ _ _ _ Hrun fuel 0 [] Hfuel).
Qed.

(** The fetch function writes nothing to the primary channel. *)
Definition fetchQuiet (fetchPage : option string -> M PaginatedResponse) : Prop :=
  forall cursor w r w', fetchPage cursor w = (r, w') -> stdout w' = stdout w.

Lemma streamed_items fetchPage cursor w pages w' :
  fetchQuiet fetchPage ->
  PageRun true fetchPage cursor w pages w' ->
  stdout w' = stdout w ++ List.map OutItem (itemsOf pages).
Proof.
  intros Hquiet. induction 1 as [cursor w page w' Hfetch Hlast
                 |cursor w page w' pages w'' Hfetch Hlast Hrun IH].
  - unfold itemsOf. simpl. rewrite app_nil_r. by rewrite (Hquiet _ _ _ _ Hfetch).
  - rewrite IH. unfold itemsOf. simpl. rewrite (Hquiet _ _ _ _ Hfetch).
    by rewrite List.map_app, app_assoc.
Qed.

Lemma items_no_summary (items : list Json) :
  List.filter isSummary (List.map OutItem items) = [].
Proof. induction items as [|item items IH]; [done | exact IH]. Qed.

(** C7: for one sequence of pages, fetched by a function that writes
    nothing to the primary channel itself, streaming mode returns no result
    and writes one item line for each item that the other mode accumulates,
    in the same order, followed by exactly one summary line whose count is
    the number of items. *)
Theorem streaming_matches_accumulation
    (fetchPage : option string -> M PaginatedResponse) (w ws wn : World)
    (pages : list PaginatedResponse) (fuel : nat) :
  fetchQuiet fetchPage ->
  PageRun true fetchPage None w pages ws ->
  PageRun false fetchPage None w pages wn ->
  length pages <= fuel ->
  paginateAll fuel fetchPage (Some true) w
  = (Ok None, addStdout [OutSummary (length (itemsOf pages))] ws)
  /\ stdout (addStdout [OutSummary (length (itemsOf pages))] ws)
     = stdout w ++ List.map OutItem (itemsOf pages)
         ++ [OutSummary (length (itemsOf pages))]
  /\ List.filter isSummary
       (List.map OutItem (itemsOf pages)
          ++ [OutSummary (length (itemsOf pages))])
     = [OutSummary (length (itemsOf pages))]
  /\ paginateAll fuel fetchPage (Some false) w
     = (Ok (Some {| all_results := itemsOf pages;
                    total := length (itemsOf pages) |}), wn).
Proof.
  intros Hquiet Hs Hn Hfuel. split; [|split; [|split]].
  - unfold paginateAll, bind. simpl.
    by rewrite (paginateLoop_run _ _ _ _ _ _ Hs fuel 0 [] Hfuel).
  - simpl. rewrite (streamed_items _ _ _ _ _ Hquiet Hs). by rewrite <- app_assoc.
  - rewrite List.filter_app, items_no_summary. reflexivity.
  - unfold paginateAll, bind. simpl.
    by rewrite (paginateLoop_run _ _ _ _ _ _ Hn fuel 0 [] Hfuel).
Qed.

End PaginationEngine.

(** The two pages of the scenario of the specification. *)
Lemma paginateAll_terminates_witness :
  Pagination.paginateAll 2 Host.twoPages (Some false)
    (Host.quiet 0 (fun _ _ => NetThrows (EValue JNull)))
  = (Ok (Some {| Pagination.all_results := [JNum 1; JNum 2; JNum 3];
                 Pagination.total := 3 |}),
     Host.quiet 0 (fun _ _ => NetThrows (EValue JNull))).
Proof.
  apply (paginateAll_terminates Host.twoPages
           (Host.quiet 0 (fun _ _ => NetThrows (EValue JNull)))
           (Host.quiet 0 (fun _ _ => NetThrows (EValue JNull)))
           [ {| Pagination.results := [JNum 1; JNum 2];
                Pagination.has_more := true;
                Pagination.next_cursor := Some "a" |};
             {| Pagination.results := [JNum 3];
                Pagination.has_more := false;
                Pagination.next_cursor := None |} ] 2).
  - eapply run_more; [reflexivity | reflexivity |].
    eapply (run_last false Host.twoPages); [reflexivity | reflexivity].
  - simpl. lia.
Defined.

Lemma streaming_matches_accumulation_witness :
  stdout (Pagination.paginateAll 2 Host.twoPages (Some true)
            (Host.quiet 0 (fun _ _ => NetThrows (EValue JNull)))).2
  = [OutItem (JNum 1); OutItem (JNum 2); OutItem (JNum 3); OutSummary 3]
  /\ (Pagination.paginateAll 2 Host.twoPages (Some true)
        (Host.quiet 0 (fun _ _ => NetThrows (EValue JNull)))).1 = Ok None.
Proof.
  destruct (streaming_matches_accumulation Host.twoPages
              (Host.quiet 0 (fun _ _ => NetThrows (EValue JNull)))
              (addStdout [OutItem (JNum 3)]
                 (addStdout [OutItem (JNum 1); OutItem (JNum 2)]
                    (Host.quiet 0 (fun _ _ => NetThrows (EValue JNull)))))
              (Host.quiet 0 (fun _ _ => NetThrows (EValue JNull)))
              [ {| Pagination.results := [JNum 1; JNum 2];
                   Pagination.has_more := true;
                   Pagination.next_cursor := Some "a" |};
                {| Pagination.results := [JNum 3];
                   Pagination.has_more := false;
                   Pagination.next_cursor := None |} ] 2)
    as (Hs & Hout & _ & _).
  - intros cursor w r w' Hrun. unfold Host.twoPages, ret in Hrun. by simplify_eq.
  - eapply run_more; [reflexivity | reflexivity |].
    eapply (run_last true Host.twoPages); [reflexivity | reflexivity].
  - eapply run_more; [reflexivity | reflexivity |].
    eapply (run_last false Host.twoPages); [reflexivity | reflexivity].
  - simpl. lia.
  - rewrite Hs. split; [exact Hout | reflexivity].
Defined.

(** ** The operation registry *)

Section RegistryProps.

Import Registry.
Context `{rt : Runtime}.
#[local] Open Scope Z_scope.

(** A receipt whose [updated_at] is more than 30 days before [now]. *)
Definition expired (now : Z) (op : OperationReceipt) : Prop :=
  exists t, dateGetTime (updated_at op) = Some t
            /\ t < now - 30 * (24 * 60 * 60 * 1000).

Lemma expired_not_fresh now op :
  expired now op ->
  fresh (now - Constants.RETENTION_DAYS * MILLIS_PER_DAY) op = false.
Proof.
  intros (t & Ht & Hlt). unfold fresh. rewrite Ht.
  unfold Constants.RETENTION_DAYS, MILLIS_PER_DAY. lia.
Qed.

Lemma cleanupOps_spec ops w :
  cleanupOps ops w
  = (Ok (List.filter
           (fresh (clock w (clockReads w)
                   - Constants.RETENTION_DAYS * MILLIS_PER_DAY)) ops),
     (dateNow w).2).
Proof. reflexivity. Qed.

Lemma expired_filtered now r ops :
  expired now r ->
  r ∉ List.filter (fresh (now - Constants.RETENTION_DAYS * MILLIS_PER_DAY)) ops.
Proof.
  intros Hexp Hin. apply list_elem_of_In, filter_In in Hin as [_ Hfresh].
  by rewrite (expired_not_fresh _ _ Hexp) in Hfresh.
Qed.

(** C3, as it holds of the code: a receipt whose [updated_at] is more than
    30 days before the current time is absent from the registry file after
    the next write, be it an append or an update, of a receipt that is not
    itself that old; a read returns the receipts of the file as they are,
    without pruning. *)
Theorem expired_pruned_on_write (w : World) (ops : list OperationReceipt)
    (r op : OperationReceipt) :
  opsFile w = OpsLines ops ->
  writeFails w OPS_PATH = None ->
  expired (clock w (clockReads w)) r ->
  ~ expired (clock w (clockReads w)) op ->
  (exists ops', opsFile (appendOp op w).2 = OpsLines ops'
                /\ (appendOp op w).1 = Ok tt /\ r ∉ ops')
  /\ (exists ops', opsFile (updateOp op w).2 = OpsLines ops'
                   /\ (updateOp op w).1 = Ok tt /\ r ∉ ops')
  /\ readOps w = (Ok ops, w).
Proof.
  intros Hfile Hwrite Hexp Hop.
  assert (r <> op) as Hne by (intros ->; done).
  split; [|split].
  - unfold appendOp, bind, readOps. rewrite Hfile.
    rewrite cleanupOps_spec. unfold writeOps. simpl. rewrite Hwrite. simpl.
    eexists. split; [reflexivity|]. split; [done|].
    rewrite elem_of_app, list_elem_of_singleton.
    intros [Hin | ?]; [|done]. by apply (expired_filtered _ _ _ Hexp) in Hin.
  - unfold updateOp, bind, readOps. rewrite Hfile.
    rewrite cleanupOps_spec. unfold writeOps. simpl. rewrite Hwrite. simpl.
    eexists. split; [reflexivity|]. split; [done|].
    rewrite list_elem_of_In, in_map_iff. intros (x & Hx & Hin).
    destruct (String.eqb (op_id x) (op_id op)); [done|]. subst x.
    by apply list_elem_of_In, (expired_filtered _ _ _ Hexp) in Hin.
  - unfold readOps. by rewrite Hfile.
Qed.

(** C4, as it holds of the code: the touch helper overlays the top-level
    fields of the update on a copy of the receipt and refreshes
    [updated_at]: every field that the update does not mention is kept, so
    the metadata map is kept whole when the update has no [metadata]; an
    update that has one replaces the map as a whole. *)
Theorem touchOp_shallow_merge (op : OperationReceipt) (patch : ReceiptPatch)
    (w : World) :
  exists r',
    touchOp op patch w = (Ok r', (dateNow w).2)
    /\ updated_at r' = toISOString (clock w (clockReads w))
    /\ (p_metadata patch = None -> metadata r' = metadata op)
    /\ (forall m, p_metadata patch = Some m -> metadata r' = m)
    /\ (p_op_id patch = None -> op_id r' = op_id op)
    /\ (p_type patch = None -> type r' = type op)
    /\ (p_status patch = None -> status r' = status op)
    /\ (p_resource_id patch = None -> resource_id r' = resource_id op)
    /\ (p_resource_type patch = None -> resource_type r' = resource_type op)
    /\ (p_created_at patch = None -> created_at r' = created_at op)
    /\ (p_poll patch = None -> poll r' = poll op)
    /\ (p_error patch = None -> error r' = error op).
Proof.
  eexists. split; [reflexivity|]. simpl.
  repeat split; try (by intros ->). by intros m ->.
Qed.

End RegistryProps.

(** Reading does not prune: a receipt last updated on 2024-01-01 is still
    returned on 2025-11-03. *)
Lemma readOps_keeps_expired :
  expired (rt := Host.runtime) 1762128000000 Host.oldReceipt
  /\ exists l,
       (Registry.readOps
          (Host.withOps [Host.oldReceipt]
             (Host.quiet 1762128000000 (fun _ _ => NetThrows (EValue JNull))))).1
       = Ok l
       /\ Host.oldReceipt ∈ l.
Proof.
  split.
  - exists 1704067200000%Z. split; [reflexivity | lia].
  - exists [Host.oldReceipt]. split; [reflexivity | apply list_elem_of_here].
Qed.

Lemma expired_pruned_on_write_witness :
  (exists ops',
     opsFile (Registry.appendOp (H := Host.runtime) Host.newReceipt
                (Host.withOps [Host.oldReceipt]
                   (Host.quiet 1762128000000
                      (fun _ _ => NetThrows (EValue JNull))))).2
     = OpsLines ops'
     /\ (Registry.appendOp (H := Host.runtime) Host.newReceipt
           (Host.withOps [Host.oldReceipt]
              (Host.quiet 1762128000000
                 (fun _ _ => NetThrows (EValue JNull))))).1 = Ok tt
     /\ Host.oldReceipt ∉ ops').
Proof.
  apply (expired_pruned_on_write (rt := Host.runtime)
           (Host.withOps [Host.oldReceipt]
              (Host.quiet 1762128000000 (fun _ _ => NetThrows (EValue JNull))))
           [Host.oldReceipt] Host.oldReceipt Host.newReceipt).
  - reflexivity.
  - reflexivity.
  - exists 1704067200000%Z. split; [reflexivity | simpl; lia].
  - intros (t & Ht & Hlt). vm_compute in Ht. simplify_eq. simpl in Hlt. lia.
Defined.

(** A receipt with the metadata key attempt, touched as the wait command
    does it, with a metadata that has the key poll only: attempt is gone. *)
Lemma touchOp_drops_metadata_keys :
  exists r',
    (Registry.touchOp (H := Host.runtime) Host.oldReceipt
       (mkPatch None None None None None None None
          (Some (Some {[ "poll" := JStr "done" ]})) None None)
       (Host.quiet 1762128000000 (fun _ _ => NetThrows (EValue JNull)))).1
    = Ok r'
    /\ (metadata Host.oldReceipt ≫= (fun m => m !! "attempt")) = Some (JNum 1)
    /\ ({[ "poll" := JStr "done" ]} : gmap string Json) !! "attempt" = None
    /\ (metadata r' ≫= (fun m => m !! "attempt")) = None.
Proof.
  eexists. split; [reflexivity|]. split; [|split]; reflexivity.
Qed.

(** ** The wait command *)

Section WaitCommand.

Import Registry OpsCommand.
Context `{rt : Runtime}.
#[local] Open Scope Z_scope.

(** One step of the wait loop on a receipt that is terminal: the clock is
    read, the registry is read, and the loop is left. *)
Lemma waitLoop_terminal_step (fuel : nat) (ctx : Context) (id : string)
    (deadline : Z) (w : World) (ops : list OperationReceipt)
    (found : OperationReceipt) :
  opsFile w = OpsLines ops ->
  List.find (fun item => String.eqb (op_id item) id) ops = Some found ->
  status found = COMPLETED \/ status found = FAILED ->
  waitLoop (S fuel) ctx id deadline w
  = (if clock w (clockReads w) <? deadline
     then Ok {| data := found; exitCode := None |}
     else Throw (ECli (newCliError TIMEOUT "Op wait timed out"
            (Some {| opt_recoverable := Some true;
                     opt_suggestedAction := Some "Increase --timeout";
                     opt_context := Some [("op_id", CJson (JStr id))] |}))),
     (dateNow w).2).
Proof.
  intros Hfile Hfind Hterm.
  assert (isTerminal (status found) = true) as Hterminal.
  { unfold isTerminal. destruct Hterm as [-> | ->]; reflexivity. }
  simpl. unfold bind at 1. simpl.
  destruct (clock w (clockReads w) <? deadline); [|reflexivity].
  unfold bind, readOps. simpl. rewrite Hfile, Hfind, Hterminal. reflexivity.
Qed.

(** The same at the level of the command: [ops wait] on a terminal receipt,
    when the deadline has not passed by the time the loop is entered. *)
Lemma opsWait_terminal (fuel : nat) (opId optsId : option string)
    (timeout : Z) (ctx : Context) (w : World)
    (ops : list OperationReceipt) (found : OperationReceipt) :
  Cli.parseId opId optsId <> "" ->
  opsFile w = OpsLines ops ->
  List.find (fun item => String.eqb (op_id item) (Cli.parseId opId optsId)) ops
    = Some found ->
  status found = COMPLETED \/ status found = FAILED ->
  clock w (S (clockReads w)) < clock w (clockReads w) + timeout * 1000 ->
  (opsWait (S fuel) opId optsId timeout ctx w).1
    = Ok {| data := found; exitCode := None |}
  /\ opsFile (opsWait (S fuel) opId optsId timeout ctx w).2 = OpsLines ops
  /\ netLog (opsWait (S fuel) opId optsId timeout ctx w).2 = netLog w
  /\ slept (opsWait (S fuel) opId optsId timeout ctx w).2 = slept w.
Proof.
  intros Hid Hfile Hfind Hterm Hlt.
  assert (opsWait (S fuel) opId optsId timeout ctx w
          = waitLoop (S fuel) ctx (Cli.parseId opId optsId)
              (clock w (clockReads w) + timeout * 1000) (dateNow w).2) as ->.
  { unfold opsWait. by apply String.eqb_neq in Hid as ->. }
  rewrite (waitLoop_terminal_step fuel ctx _ _ _ ops found) by done.
  simpl. apply Z.ltb_lt in Hlt as ->. done.
Qed.

(** C9: a step of the wait loop that finds the receipt in a terminal
    status ([COMPLETED] or [FAILED]) returns that very receipt: it only
    reads the clock, it neither polls nor sleeps, and the registry file is
    left as it was. The one path that rewrites the registry, [updateOp],
    leaves every receipt either as it was or replaced by the receipt it is
    given. *)
Theorem terminal_receipt_returned_as_is (fuel : nat) (ctx : Context)
    (id : string) (deadline : Z) (w : World)
    (ops : list OperationReceipt) (found : OperationReceipt) :
  opsFile w = OpsLines ops ->
  List.find (fun item => String.eqb (op_id item) id) ops = Some found ->
  status found = COMPLETED \/ status found = FAILED ->
  ((waitLoop (S fuel) ctx id deadline w).2 = (dateNow w).2
   /\ opsFile (waitLoop (S fuel) ctx id deadline w).2 = OpsLines ops
   /\ netLog (waitLoop (S fuel) ctx id deadline w).2 = netLog w
   /\ slept (waitLoop (S fuel) ctx id deadline w).2 = slept w)
  /\ (clock w (clockReads w) < deadline ->
      (waitLoop (S fuel) ctx id deadline w).1
      = Ok {| data := found; exitCode := None |})
  /\ (forall op w0 ops0,
        opsFile w0 = OpsLines ops0 ->
        forall ops', opsFile (updateOp op w0).2 = OpsLines ops' ->
        forall r, r ∈ ops' -> r = op \/ r ∈ ops0).
Proof.
  intros Hfile Hfind Hterm.
  rewrite (waitLoop_terminal_step fuel ctx id deadline w ops found) by done.
  split; [|split].
  - simpl. done.
  - intros Hlt. simpl. by apply Z.ltb_lt in Hlt as ->.
  - intros op w0 ops0 Hfile0 ops' Hupd r Hin.
    unfold updateOp, bind, readOps in Hupd. rewrite Hfile0 in Hupd.
    rewrite cleanupOps_spec in Hupd. unfold writeOps in Hupd. simpl in Hupd.
    destruct (writeFails w0 OPS_PATH); simpl in Hupd.
    + rewrite Hfile0 in Hupd. simplify_eq. by right.
    + simplify_eq. apply list_elem_of_In, in_map_iff in Hin as (x & Hx & Hin).
      destruct (String.eqb (op_id x) (op_id op)); [by left|].
      subst x. right. apply filter_In in Hin as [Hin _].
      by apply list_elem_of_In.
Qed.

End WaitCommand.

(** A completed receipt, waited for with a minute to go. *)
Lemma terminal_receipt_returned_as_is_witness :
  (OpsCommand.waitLoop (H := Host.runtime) 1 Host.context "op-done" 60000
     (Host.withOps [Host.oldReceipt; Host.doneReceipt]
        (Host.quiet 0 (fun _ _ => NetThrows (EValue JNull))))).1
  = Ok {| data := Host.doneReceipt; exitCode := None |}.
Proof.
  destruct (terminal_receipt_returned_as_is (rt := Host.runtime) 0
              Host.context "op-done" 60000
              (Host.withOps [Host.oldReceipt; Host.doneReceipt]
                 (Host.quiet 0 (fun _ _ => NetThrows (EValue JNull))))
              [Host.oldReceipt; Host.doneReceipt] Host.doneReceipt)
    as (_ & Hret & _).
  - reflexivity.
  - reflexivity.
  - left. reflexivity.
  - apply Hret. simpl. lia.
Defined.

(** ** The command harness *)

Section Harness.

Import Output Config Cli.
Context `{rt : Runtime}.
#[local] Open Scope Z_scope.

Lemma loadConfigFile_malformed w o msg :
  configFile w = CfgReadable o (CfgMalformed msg) ->
  exists w',
    loadConfigFile w = (Throw (EError "SyntaxError" msg), w')
    /\ stdout w' = stdout w /\ configFile w' = configFile w
    /\ clock w' = clock w /\ clockReads w' = clockReads w.
Proof.
  intros Hcfg. unfold loadConfigFile, bind, gets. rewrite Hcfg.
  destruct o; simpl; eexists; (split; [reflexivity|]); simpl; by rewrite ?Hcfg.
Qed.

Lemma resolveContext_malformed command options w o msg :
  configFile w = CfgReadable o (CfgMalformed msg) ->
  exists w',
    resolveContext command options w = (Throw (EError "SyntaxError" msg), w')
    /\ stdout w' = stdout w /\ configFile w' = configFile w.
Proof.
  intros Hcfg. unfold resolveContext, bind at 1.
  destruct (default false (o_tokenStdin options)).
  - unfold bind at 1, readStdin, ret. simpl.
    unfold resolveConfig, bind at 1, bind at 1.
    edestruct loadConfigFile_malformed as (w' & -> & Hout & Hc & _);
      [simpl; exact Hcfg|].
    exists w'. by rewrite Hout, Hc.
  - unfold ret at 1. unfold resolveConfig, bind at 1, bind at 1.
    edestruct loadConfigFile_malformed as (w' & -> & Hout & Hc & _);
      [exact Hcfg|].
    by exists w'.
Qed.

Lemma handleError_malformed command error start options w o msg :
  configFile w = CfgReadable o (CfgMalformed msg) ->
  exists w',
    handleError command error start options w
    = (Throw (EError "SyntaxError" msg), w')
    /\ stdout w' = stdout w.
Proof.
  intros Hcfg. unfold handleError, bind at 1.
  destruct (resolveContext_malformed command options w o msg Hcfg)
    as (w' & -> & Hout & _).
  by exists w'.
Qed.

Lemma ensureTokenStdinSafe_frame options inputs w r w' :
  ensureTokenStdinSafe options inputs w = (r, w') ->
  w' = w /\ (r = Ok tt \/ exists e, r = Throw e).
Proof.
  unfold ensureTokenStdinSafe, ret, throwCli, throw. intros Hrun.
  repeat (case_match; simplify_eq/=); eauto.
Qed.

(** A configuration file that [loadConfigFile] can load. *)
Definition loadable (file : ConfigFile) : Prop :=
  match file with
  | CfgMissing => True
  | CfgReadable _ CfgBlank => True
  | CfgReadable _ (CfgJson _) => True
  | _ => False
  end.

Lemma loadConfigFile_ok w :
  loadable (configFile w) ->
  exists c w',
    loadConfigFile w = (Ok c, w')
    /\ stdout w' = stdout w /\ configFile w' = configFile w.
Proof.
  intros Hcfg. unfold loadConfigFile, bind, gets.
  destruct (configFile w) as [| e | o [| c | msg]] eqn:Hfile; try done.
  all: try destruct o; simpl; eexists _, _; (split; [reflexivity|]); simpl; done.
Qed.

Lemma resolveContext_ok command options w :
  loadable (configFile w) ->
  exists ctx w',
    resolveContext command options w = (Ok ctx, w')
    /\ stdout w' = stdout w /\ configFile w' = configFile w
    /\ ctx_outputFile ctx = o_outputFile options.
Proof.
  intros Hcfg. unfold resolveContext, bind at 1.
  destruct (default false (o_tokenStdin options)).
  - unfold bind at 1, readStdin, ret at 1. simpl.
    unfold bind at 1, resolveConfig, bind at 1.
    edestruct loadConfigFile_ok as (c & w' & -> & Hout & Hc); [simpl; exact Hcfg|].
    unfold bind, gets, ret. simpl. eexists _, _. split; [reflexivity|]. done.
  - unfold ret at 1. unfold bind at 1, resolveConfig, bind at 1.
    edestruct loadConfigFile_ok as (c & w' & -> & Hout & Hc); [exact Hcfg|].
    unfold bind, gets, ret. simpl. eexists _, _. split; [reflexivity|]. done.
Qed.

Lemma emitOutput_stdout ctx envelope w :
  ctx_outputFile ctx = None ->
  emitOutput ctx envelope w
  = (Ok tt, addStdout [OutEnvelope envelope (ctx_pretty ctx)] w).
Proof. intros Hfile. unfold emitOutput, bind. simpl. by rewrite Hfile. Qed.

Lemma handleError_one_envelope command error start options w :
  loadable (configFile w) ->
  o_outputFile options = None ->
  exists c e p w',
    handleError command error start options w = (Exit c, w')
    /\ c = EXIT_CODES (OfCode (code (asCliError error)))
    /\ stdout w' = stdout w ++ [OutEnvelope e p]
    /\ (exists body metadata, e = ErrorEnvelope body metadata
                              /\ eb_code body = code (asCliError error)).
Proof.
  intros Hcfg Hfile. unfold handleError, bind at 1.
  destruct (resolveContext_ok command options w Hcfg)
    as (ctx & w1 & -> & Hout & _ & Hctx).
  unfold bind at 1. simpl. unfold bind at 1.
  rewrite emitOutput_stdout by (by rewrite Hctx).
  unfold bind, processExit.
  destruct (default false (o_quiet options)); simpl.
  all: eexists _, _, _, _; split; [reflexivity|]; simpl.
  all: rewrite Hout; repeat split; eauto.
Qed.

(** When the configuration loads and no output file is asked for, a
    handler that leaves the primary channel and the configuration alone,
    and that either throws or returns a payload that is not marked as
    streamed, makes [runAction] write exactly one envelope and exit. *)
Lemma runAction_one_envelope {T} `{ToJson T} (command : string)
    (options : GlobalOptions) (handler : Context -> M (ActionResult T))
    (stdinInputs : list (option string)) (w : World) :
  loadable (configFile w) ->
  o_outputFile options = None ->
  (forall ctx w1, exists r w2,
     handler ctx w1 = (r, w2)
     /\ stdout w2 = stdout w1 /\ configFile w2 = configFile w1
     /\ ((exists e, r = Throw e)
         \/ (exists res, r = Ok res /\ streamed (toJson (data res)) = false))) ->
  exists c e p w',
    runAction command options handler stdinInputs w = (Exit c, w')
    /\ stdout w' = stdout w ++ [OutEnvelope e p].
Proof.
  intros Hcfg Hfile Hhandler.
  unfold runAction, bind at 1. simpl. unfold tryCatch, bind at 1.
  set (w0 := mkWorld _ _ _ _ _ _ _ _ _ _ _ _ _).
  assert (loadable (configFile w0)) as Hcfg0 by done.
  destruct (ensureTokenStdinSafe options stdinInputs w0) as [r0 w0'] eqn:Hsafe.
  apply ensureTokenStdinSafe_frame in Hsafe as (-> & [-> | [e ->]]).
  - unfold bind at 1.
    destruct (resolveContext_ok command options w0 Hcfg0)
      as (ctx & w1 & -> & Hout1 & Hc1 & Hctx).
    unfold bind at 1.
    destruct (Hhandler ctx w1) as (r & w2 & -> & Hout2 & Hc2 & Hr).
    destruct Hr as [[e ->] | (res & -> & Hstreamed)].
    + destruct (handleError_one_envelope command e (clock w (clockReads w))
                  options w2) as (c & env & p & w3 & -> & _ & Hout3 & _);
        [by rewrite Hc2, Hc1 | done |].
      exists c, env, p, w3. split; [done|]. by rewrite Hout3, Hout2, Hout1.
    + rewrite Hstreamed, andb_false_r. simpl.
      unfold bind at 1, bind at 1. simpl.
      rewrite emitOutput_stdout by (by rewrite Hctx).
      unfold processExit. eexists _, _, _, _. split; [reflexivity|].
      simpl. by rewrite Hout2, Hout1.
  - destruct (handleError_one_envelope command e (clock w (clockReads w))
                options w0) as (c & env & p & w3 & -> & _ & Hout3 & _);
      [done | done |].
    by exists c, env, p, w3.
Qed.

(** C1: when the configuration file is no JSON, configuration resolution
    fails inside [runAction], and fails again inside [handleError], which
    resolves the context anew before it builds the error envelope: the
    rejection leaves the harness, the end of [index.ts] writes one line to
    the diagnostic channel and exits with code 125, and nothing at all has
    been written to the primary channel. *)
Theorem runAction_config_failure_no_envelope {T} `{ToJson T}
    (command : string) (options : GlobalOptions)
    (handler : Context -> M (ActionResult T))
    (stdinInputs : list (option string)) (w : World)
    (openToOthers : bool) (msg : string) :
  configFile w = CfgReadable openToOthers (CfgMalformed msg) ->
  (runAction command options handler stdinInputs w).1
    = Throw (EError "SyntaxError" msg)
  /\ stdout (runAction command options handler stdinInputs w).2 = stdout w
  /\ (main (runAction command options handler stdinInputs) w).1 = Exit 125
  /\ stdout (main (runAction command options handler stdinInputs) w).2
     = stdout w.
Proof.
  intros Hcfg.
  assert (exists w', runAction command options handler stdinInputs w
                     = (Throw (EError "SyntaxError" msg), w')
                     /\ stdout w' = stdout w) as (w' & Hrun & Hout).
  { unfold runAction, bind at 1. simpl. unfold tryCatch, bind at 1.
    destruct (ensureTokenStdinSafe options stdinInputs _) as [r0 w0] eqn:Hsafe.
    apply ensureTokenStdinSafe_frame in Hsafe as (-> & [-> | [e ->]]).
    - unfold bind at 1.
      edestruct resolveContext_malformed as (w1 & -> & Hout1 & Hc1);
        [simpl; exact Hcfg|].
      edestruct handleError_malformed as (w2 & -> & Hout2);
        [rewrite Hc1; simpl; exact Hcfg|].
      exists w2. split; [done|]. by rewrite Hout2, Hout1.
    - edestruct handleError_malformed as (w2 & -> & Hout2);
        [simpl; exact Hcfg|].
      exists w2. split; [done|]. by rewrite Hout2. }
  unfold main, tryCatch. rewrite Hrun. simpl. done.
Qed.

End Harness.

(** A configuration file that is no JSON: [pages get] ends with exit code
    125 and an empty primary channel, whatever the handler. *)
Lemma runAction_config_failure_no_envelope_witness :
  (Cli.main
     (Cli.runAction (H := Host.runtime) "pages get" Host.noOptions
        (fun _ => ret {| data := JObj [("object", JStr "page")];
                         exitCode := None |}) [])
     (Host.withConfig (CfgReadable false (CfgMalformed "Unexpected token"))
        (Host.quiet 0 (fun _ _ => NetThrows (EValue JNull))))).1 = Exit 125
  /\ stdout
       (Cli.main
          (Cli.runAction (H := Host.runtime) "pages get" Host.noOptions
             (fun _ => ret {| data := JObj [("object", JStr "page")];
                              exitCode := None |}) [])
          (Host.withConfig (CfgReadable false (CfgMalformed "Unexpected token"))
             (Host.quiet 0 (fun _ _ => NetThrows (EValue JNull))))).2 = [].
Proof.
  destruct (runAction_config_failure_no_envelope (rt := Host.runtime)
              "pages get" Host.noOptions
              (fun _ => ret {| data := JObj [("object", JStr "page")];
                               exitCode := None |}) []
              (Host.withConfig
                 (CfgReadable false (CfgMalformed "Unexpected token"))
                 (Host.quiet 0 (fun _ _ => NetThrows (EValue JNull))))
              false "Unexpected token")
    as (_ & _ & Hexit & Hout).
  - reflexivity.
  - split; [exact Hexit | exact Hout].
Defined.

(* ===================================================================== *)
(** * Part III: further properties of the code                            *)
(* ===================================================================== *)

(** ** The request engine: what is retried and what is not *)

Section RetryLoop.

Import Http.
Context `{rt : Runtime}.
#[local] Open Scope Z_scope.

(** [response.status >= 200 && response.status < 300] *)
Definition is2xx (status : Z) : bool := (200 <=? status) && (status <? 300).

(** The outcome of an attempt after which the loop goes round again, as
    long as attempts remain: a 429, a 408 (its error has the code [TIMEOUT],
    which the [catch] block retries), a body that is no JSON, a timeout, or
    any exception that is no [CliError]. *)
Definition transient (o : NetOutcome) : bool :=
  match o with
  | NetResponse _ TextMalformed _ => true
  | NetResponse status _ _ =>
      negb (is2xx status) && ((status =? 429) || (status =? 408))
  | NetThrows (ECli e) => bool_decide (code e = TIMEOUT)
  | NetThrows _ => true
  end.

(** The timer awaited after an attempt: one for each 429 that is read. *)
Definition delayAfter (o : NetOutcome) : list Delay :=
  match o with
  | NetResponse _ TextMalformed _ => []
  | NetResponse status _ headers =>
      if negb (is2xx status) && (status =? 429)
      then [if truthyStr (headersGet "retry-after" headers)
            then RetryAfterSeconds (default "" (headersGet "retry-after" headers))
            else Millis 1000]
      else []
  | NetThrows _ => []
  end.

Lemma httpError_code response :
  code (httpError response) = mapHttpStatusToError (resp_status response).
Proof. reflexivity. Qed.

Lemma mapHttpStatusToError_TIMEOUT status :
  mapHttpStatusToError status = TIMEOUT <-> status = 408.
Proof.
  unfold mapHttpStatusToError. split.
  - repeat case_match; try done. lia.
  - intros ->. reflexivity.
Qed.

Lemma pass_transient url init options attempt lastError w :
  attempt <= retries options ->
  transient (upstream w (length (netLog w)) (theCall url init options)) = true ->
  exists le w',
    tryCatch (do s <- tryBlock url init options attempt; ret (s, lastError))
      (catchBlock options attempt) w = (Ok (Continue, le), w')
    /\ netLog w' = netLog w ++ [theCall url init options]
    /\ upstream w' = upstream w
    /\ slept w'
       = slept w
         ++ delayAfter (upstream w (length (netLog w)) (theCall url init options)).
Proof.
  intros Hle Htr.
  assert ((attempt <=? retries options) = true) as Hleb by lia.
  assert ((attempt >? retries options) = false) as Hgtb by lia.
  unfold tryCatch, bind at 1, tryBlock, bind at 1, doFetch, tryCatch, bind at 1,
    fetchText.
  unfold theCall in *.
  destruct (upstream w (length (netLog w)) _) as [status text headers | e];
    simpl in *.
  - destruct text; simpl.
    1,2: unfold is2xx in *;
      (destruct ((200 <=? status) && (status <? 300)); [done|]);
      simpl in *; rewrite Hleb, andb_true_r;
      (destruct (status =? 429) eqn:H429; simpl;
       [eexists _, _; split; [reflexivity|]; simpl; done|]);
      unfold catchBlock; simpl;
      (assert (mapHttpStatusToError status = TIMEOUT) as ->
         by (apply mapHttpStatusToError_TIMEOUT; lia));
      simpl; rewrite Hleb; simpl;
      eexists _, _; (split; [reflexivity|]); simpl; by rewrite app_nil_r.
    unfold catchBlock. rewrite Hgtb.
    eexists _, _. split; [reflexivity|]. simpl. by rewrite app_nil_r.
  - destruct e as [c | name msg | v]; simpl.
    + unfold catchBlock. rewrite Htr, Hleb. simpl.
      eexists _, _. split; [reflexivity|]. simpl. by rewrite app_nil_r.
    + destruct (bool_decide (Some name = Some "AbortError")); simpl.
      * unfold catchBlock. simpl. rewrite Hleb. simpl.
        eexists _, _. split; [reflexivity|]. simpl. by rewrite app_nil_r.
      * unfold catchBlock. rewrite Hgtb.
        eexists _, _. split; [reflexivity|]. simpl. by rewrite app_nil_r.
    + destruct v; simpl;
        try (unfold catchBlock; rewrite Hgtb;
             eexists _, _; split; [reflexivity|]; simpl; by rewrite app_nil_r).
      destruct (bool_decide _); simpl.
      * unfold catchBlock. simpl. rewrite Hleb. simpl.
        eexists _, _. split; [reflexivity|]. simpl. by rewrite app_nil_r.
      * unfold catchBlock. rewrite Hgtb.
        eexists _, _. split; [reflexivity|]. simpl. by rewrite app_nil_r.
Qed.

(** The outcomes of the [k] attempts that follow those of [w]. *)
Definition outcomes (w : World) (call : FetchCall) (k : nat) : list NetOutcome :=
  List.map (fun i => upstream w (length (netLog w) + i)%nat call) (seq 0 k).

Lemma outcomes_S w call k :
  outcomes w call (S k)
  = upstream w (length (netLog w)) call
    :: List.map (fun i => upstream w (length (netLog w) + S i)%nat call) (seq 0 k).
Proof.
  unfold outcomes. simpl. rewrite Nat.add_0_r. f_equal.
  by rewrite <- seq_shift, List.map_map.
Qed.

Lemma outcomes_next w w1 call c k :
  netLog w1 = netLog w ++ [c] ->
  upstream w1 = upstream w ->
  outcomes w1 call k
  = List.map (fun i => upstream w (length (netLog w) + S i)%nat call) (seq 0 k).
Proof.
  intros Hlog Hup. unfold outcomes. rewrite Hlog, Hup, length_app. simpl.
  apply List.map_ext. intros i. f_equal. lia.
Qed.

(** [k] transient attempts in a row, all within the budget, are passed
    over: the loop is then where it would be had it started [k] attempts
    later, one call logged for each and one timer for each 429. *)
Lemma requestLoop_skip url init options : forall k fuel attempt lastError w,
  attempt + Z.of_nat k <= retries options ->
  Forall (fun o => transient o = true) (outcomes w (theCall url init options) k) ->
  exists le w',
    requestLoop (k + fuel) url init options attempt lastError w
    = requestLoop fuel url init options (attempt + Z.of_nat k) le w'
    /\ netLog w' = netLog w ++ replicate k (theCall url init options)
    /\ upstream w' = upstream w
    /\ slept w'
       = slept w
         ++ concat (List.map delayAfter (outcomes w (theCall url init options) k)).
Proof.
  induction k as [|k IH]; intros fuel attempt lastError w Hle Htr.
  - exists lastError, w. simpl. rewrite Z.add_0_r, !app_nil_r. done.
  - rewrite outcomes_S in *. apply Forall_cons in Htr as [Hfirst Hrest].
    destruct (pass_transient url init options (attempt + 1) lastError w)
      as (le1 & w1 & Hpass & Hlog1 & Hup1 & Hsl1); [lia | done |].
    destruct (IH fuel (attempt + 1) le1 w1) as (le & w' & Hloop & Hlog & Hup & Hsl).
    { lia. }
    { by rewrite (outcomes_next w w1 _ _ k Hlog1 Hup1). }
    exists le, w'. split; [|split; [|split]].
    + change (S k + fuel)%nat with (S (k + fuel)). simpl.
      assert ((attempt <=? retries options) = true) as -> by lia.
      unfold bind at 1. rewrite Hpass. simpl. rewrite Hloop.
      f_equal. lia.
    + rewrite Hlog, Hlog1, <- app_assoc. done.
    + congruence.
    + rewrite Hsl, Hsl1, (outcomes_next w w1 _ _ k Hlog1 Hup1). simpl.
      by rewrite <- app_assoc.
Qed.

(** A body that [JSON.parse] accepts, and what it gives. *)
Definition parsedBody (t : BodyText) : option Json :=
  match t with
  | TextEmpty => Some (JObj [])
  | TextJson j => Some j
  | TextMalformed => None
  end.

Lemma tryBlock_response url init options attempt w status text headers data :
  upstream w (length (netLog w)) (theCall url init options)
    = NetResponse status text headers ->
  parsedBody text = Some data ->
  exists w',
    tryBlock url init options attempt w
    = (if is2xx status
       then Ok (Return {| resp_status := status; resp_data := data;
                          resp_headers := headers |})
       else if (status =? 429) && (attempt <=? retries options)
       then Ok Continue
       else Throw (ECli (httpError {| resp_status := status; resp_data := data;
                                      resp_headers := headers |})),
       w')
    /\ netLog w' = netLog w ++ [theCall url init options]
    /\ upstream w' = upstream w
    /\ (is2xx status = true \/ status <> 429 \/ retries options < attempt ->
        slept w' = slept w).
Proof.
  intros Hup Hdata.
  unfold tryBlock, bind at 1, doFetch, tryCatch, bind at 1, fetchText.
  unfold theCall in Hup. rewrite Hup. unfold is2xx.
  destruct text; simplify_eq/=.
  all: destruct ((200 <=? status) && (status <? 300)) eqn:H2; simpl.
  all: try (eexists; split; [reflexivity|]; simpl; done).
  all: destruct ((status =? 429) && (attempt <=? retries options)) eqn:H429; simpl.
  all: eexists; (split; [reflexivity|]); simpl; repeat split; try done.
  all: intros [? | [? | ?]]; try done; apply andb_true_iff in H429; lia.
Qed.

(** The last pass: an attempt answered with a status and a readable body
    ends the loop unless it is a 429 or a 408 with attempts left. *)
Lemma requestLoop_response url init options fuel attempt lastError w
    status text headers data :
  attempt <= retries options ->
  upstream w (length (netLog w)) (theCall url init options)
    = NetResponse status text headers ->
  parsedBody text = Some data ->
  is2xx status = true \/ (status <> 429 /\ status <> 408)
  \/ retries options < attempt + 1 ->
  exists w',
    requestLoop (S fuel) url init options attempt lastError w
    = (if is2xx status
       then Ok {| resp_status := status; resp_data := data;
                  resp_headers := headers |}
       else Throw (ECli (httpError {| resp_status := status; resp_data := data;
                                      resp_headers := headers |})),
       w')
    /\ netLog w' = netLog w ++ [theCall url init options]
    /\ upstream w' = upstream w
    /\ slept w' = slept w.
Proof.
  intros Hle Hup Hdata Hfinal.
  destruct (tryBlock_response url init options (attempt + 1) w _ _ _ _ Hup Hdata)
    as (w' & Htry & Hlog & Hup' & Hsl).
  exists w'. split; [|repeat split; try done; apply Hsl; tauto].
  simpl. assert ((attempt <=? retries options) = true) as -> by lia.
  unfold bind at 1, tryCatch, bind at 1. rewrite Htry.
  destruct (is2xx status) eqn:H2; [reflexivity|].
  assert ((status =? 429) && (attempt + 1 <=? retries options) = false) as ->.
  { destruct Hfinal as [? | [[? ?] | ?]]; [done | |]; apply andb_false_iff; lia. }
  unfold catchBlock. rewrite httpError_code. simpl.
  destruct (bool_decide (mapHttpStatusToError status = TIMEOUT)) eqn:Hcode;
    [|reflexivity].
  destruct (attempt + 1 <=? retries options) eqn:Hmore; [|reflexivity].
  apply bool_decide_eq_true, mapHttpStatusToError_TIMEOUT in Hcode.
  destruct Hfinal as [? | [[? ?] | ?]]; [done | done | lia].
Qed.

Lemma request_after_transients (options : RequestOptions) (w : World)
    (k : nat) (status : Z) (text : BodyText)
    (headers : list (string * string)) (data : Json) :
  pathAccepted (path options) ->
  Z.of_nat k <= retries options ->
  Forall (fun o => transient o = true)
    (outcomes w (theCall (buildUrl options) (buildInit options) options) k) ->
  upstream w (length (netLog w) + k)%nat
    (theCall (buildUrl options) (buildInit options) options)
    = NetResponse status text headers ->
  parsedBody text = Some data ->
  is2xx status = true \/ (status <> 429 /\ status <> 408) ->
  exists w',
    request options w
    = (if is2xx status
       then Ok {| resp_status := status; resp_data := data;
                  resp_headers := headers |}
       else Throw (ECli (httpError {| resp_status := status; resp_data := data;
                                      resp_headers := headers |})),
       w')
    /\ netLog w'
       = netLog w
         ++ replicate (S k) (theCall (buildUrl options) (buildInit options) options)
    /\ slept w'
       = slept w
         ++ concat (List.map delayAfter
              (outcomes w (theCall (buildUrl options) (buildInit options) options) k)).
Proof.
  intros Hpath Hk Htr Hup Hdata Hfinal. rewrite request_accepted by done.
  assert (Z.to_nat (retries options + 1)
          = (k + S (Z.to_nat (retries options) - k))%nat) as -> by lia.
  destruct (requestLoop_skip (buildUrl options) (buildInit options) options k
              (S (Z.to_nat (retries options) - k)) 0 None w)
    as (le & w1 & -> & Hlog1 & Hup1 & Hsl1); [lia | done |].
  destruct (requestLoop_response (buildUrl options) (buildInit options) options
              (Z.to_nat (retries options) - k) (0 + Z.of_nat k) le w1
              status text headers data)
    as (w' & -> & Hlog & _ & Hsl); [lia | | done | tauto |].
  { rewrite Hup1, Hlog1, length_app, length_replicate. done. }
  exists w'. split; [done|]. split.
  - rewrite Hlog, Hlog1, <- app_assoc. f_equal.
    change (S k) with (1 + k)%nat. rewrite Nat.add_comm, replicate_add. done.
  - by rewrite Hsl, Hsl1.
Qed.

(** X1: the request engine returns the first successful response: when
    the first [k] attempts (with [k] at most the retry count) end in a 429,
    a 408, a timeout, an unreadable body or another exception, and the next
    one is answered 2xx, that response is returned after exactly [k + 1]
    attempts, and a timer was awaited only after each 429 that was read. *)
Theorem request_returns_first_success (options : RequestOptions) (w : World)
    (k : nat) (status : Z) (text : BodyText)
    (headers : list (string * string)) (data : Json) :
  pathAccepted (path options) ->
  Z.of_nat k <= retries options ->
  Forall (fun o => transient o = true)
    (outcomes w (theCall (buildUrl options) (buildInit options) options) k) ->
  upstream w (length (netLog w) + k)%nat
    (theCall (buildUrl options) (buildInit options) options)
    = NetResponse status text headers ->
  parsedBody text = Some data ->
  200 <= status < 300 ->
  exists w',
    request options w
    = (Ok {| resp_status := status; resp_data := data;
             resp_headers := headers |}, w')
    /\ attempts w w' = Z.of_nat k + 1
    /\ slept w'
       = slept w
         ++ concat (List.map delayAfter
              (outcomes w (theCall (buildUrl options) (buildInit options) options) k)).
Proof.
  intros Hpath Hk Htr Hup Hdata H2.
  assert (is2xx status = true) as H2b by (unfold is2xx; lia).
  destruct (request_after_transients options w k status text headers data)
    as (w' & Hreq & Hlog & Hsl); try done; [by left|].
  rewrite H2b in Hreq. exists w'. split; [done|]. split; [|done].
  unfold attempts. rewrite Hlog, length_app, length_replicate. lia.
Qed.


(** What [doFetch] throws when the attempt itself throws [e]. *)
Definition thrownBy (timeoutMs : Z) (e : Exn) : Exn :=
  match e with
  | EValue JNull => EError "TypeError" "Cannot read properties of null"
  | _ =>
      if bool_decide (exnName e = Some "AbortError")
      then ECli (timeoutError timeoutMs)
      else e
  end.

(** What [request] throws when the error [err] ends the last attempt. *)
Definition surfaced (err : Exn) : Exn :=
  match err with
  | ECli _ => err
  | _ =>
      if instanceofError err then err
      else ECli (newCliError INTERNAL_ERROR "Request failed"
             (Some {| opt_recoverable := Some false;
                      opt_suggestedAction := None;
                      opt_context := None |}))
  end.

Lemma doFetch_throws url init t w e :
  upstream w (length (netLog w))
    {| fc_url := url; fc_init := init; fc_timeoutMs := t |} = NetThrows e ->
  exists w',
    doFetch url init t w = (Throw (thrownBy t e), w')
    /\ netLog w' = netLog w ++ [{| fc_url := url; fc_init := init;
                                    fc_timeoutMs := t |}]
    /\ upstream w' = upstream w /\ slept w' = slept w.
Proof.
  intros Hup. unfold doFetch, tryCatch, bind at 1, fetchText. rewrite Hup.
  unfold thrownBy. destruct e as [c | name msg | v]; simpl.
  - eexists. split; [reflexivity|]. done.
  - destruct (bool_decide _); eexists; (split; [reflexivity|]); done.
  - destruct v; simpl; try (eexists; (split; [reflexivity|]); done).
    destruct (bool_decide _); eexists; (split; [reflexivity|]); done.
Qed.

(** The last attempt of the budget, ending in an exception. *)
Lemma requestLoop_throws_last url init options fuel lastError w e :
  upstream w (length (netLog w)) (theCall url init options) = NetThrows e ->
  exists w',
    requestLoop (S fuel) url init options (retries options) lastError w
    = (Throw (surfaced (thrownBy (timeoutMs options) e)), w')
    /\ netLog w' = netLog w ++ [theCall url init options]
    /\ slept w' = slept w.
Proof.
  intros Hup.
  destruct (doFetch_throws url init (timeoutMs options) w e Hup)
    as (w' & Hfetch & Hlog & _ & Hsl).
  exists w'. split; [|done].
  simpl. rewrite Z.leb_refl.
  unfold bind at 1, tryCatch, bind at 1, tryBlock, bind at 1. rewrite Hfetch.
  unfold catchBlock.
  assert ((retries options + 1 <=? retries options) = false) as Hno by lia.
  assert ((retries options + 1 >? retries options) = true) as Hyes by lia.
  destruct (thrownBy (timeoutMs options) e) as [c | name msg | v]; simpl.
  - rewrite Hno, andb_false_r. reflexivity.
  - rewrite Hyes. reflexivity.
  - rewrite Hyes. reflexivity.
Qed.

Lemma no_delay_after_throws (l : list NetOutcome) :
  Forall (fun o => exists e, o = NetThrows e) l ->
  concat (List.map delayAfter l) = [].
Proof.
  induction 1 as [|o l [e ->] _ IH]; [done|]. simpl. exact IH.
Qed.

Lemma request_after_throws (options : RequestOptions) (w : World) (e : Exn) :
  pathAccepted (path options) ->
  0 <= retries options ->
  Forall (fun o => transient o = true /\ exists e', o = NetThrows e')
    (outcomes w (theCall (buildUrl options) (buildInit options) options)
       (Z.to_nat (retries options))) ->
  upstream w (length (netLog w) + Z.to_nat (retries options))%nat
    (theCall (buildUrl options) (buildInit options) options) = NetThrows e ->
  exists w',
    request options w
    = (Throw (surfaced (thrownBy (timeoutMs options) e)), w')
    /\ attempts w w' = retries options + 1
    /\ slept w' = slept w.
Proof.
  intros Hpath Hn Htr Hup. rewrite request_accepted by done.
  assert (Z.to_nat (retries options + 1)
          = (Z.to_nat (retries options) + 1)%nat) as -> by lia.
  destruct (requestLoop_skip (buildUrl options) (buildInit options) options
              (Z.to_nat (retries options)) 1 0 None w)
    as (le & w1 & -> & Hlog1 & Hup1 & Hsl1); [lia | |].
  { eapply Forall_impl; [exact Htr|]. by intros o [? _]. }
  assert (0 + Z.of_nat (Z.to_nat (retries options)) = retries options) as ->
    by lia.
  destruct (requestLoop_throws_last (buildUrl options) (buildInit options)
              options 0 le w1 e) as (w' & -> & Hlog & Hsl).
  { rewrite Hup1, Hlog1, length_app, length_replicate. done. }
  exists w'. split; [done|]. split.
  - unfold attempts. rewrite Hlog, Hlog1, !length_app, length_replicate.
    simpl. lia.
  - rewrite Hsl, Hsl1, no_delay_after_throws, app_nil_r; [done|].
    eapply Forall_impl; [exact Htr|]. by intros o [_ ?].
Qed.

(** X3: when every attempt times out, the engine makes exactly
    [retries + 1] attempts, one right after the other (no timer is awaited),
    and raises the [TIMEOUT] error of the last one: recoverable, exit code
    20. *)
Theorem request_exhausted_by_timeouts (options : RequestOptions) (w : World) :
  pathAccepted (path options) ->
  0 <= retries options ->
  (forall i, (i <= Z.to_nat (retries options))%nat ->
     exists e,
       upstream w (length (netLog w) + i)%nat
         (theCall (buildUrl options) (buildInit options) options) = NetThrows e
       /\ exnName e = Some "AbortError") ->
  exists w',
    request options w = (Throw (ECli (timeoutError (timeoutMs options))), w')
    /\ attempts w w' = retries options + 1
    /\ slept w' = slept w
    /\ code (timeoutError (timeoutMs options)) = TIMEOUT
    /\ recoverable (timeoutError (timeoutMs options)) = true
    /\ EXIT_CODES (OfCode TIMEOUT) = 20.
Proof.
  intros Hpath Hn Habort.
  destruct (Habort (Z.to_nat (retries options))) as (e & Hup & Hname); [lia|].
  destruct (request_after_throws options w e) as (w' & Hreq & Hatt & Hsl);
    try done.
  - unfold outcomes. apply Forall_forall. intros o Hin.
    apply list_elem_of_In, in_map_iff in Hin as (i & <- & Hi). apply in_seq in Hi.
    destruct (Habort i) as (e' & -> & Hname'); [lia|].
    split; [|by eexists]. destruct e' as [c | name msg | v]; done.
  - exists w'. split; [|done].
    rewrite Hreq. unfold thrownBy.
    destruct e as [c | name msg | []]; try done; simpl in *;
      rewrite bool_decide_eq_true_2 by done; done.
Qed.

(** X4: an exception of an attempt that is no timeout (a network failure,
    say) is retried at once, and when the last attempt of the budget fails
    with such an error, that very error leaves [request]; the harness then
    reports it as [INTERNAL_ERROR] with the message kept. *)
Theorem request_rethrows_last_failure (options : RequestOptions) (w : World)
    (name msg : string) :
  pathAccepted (path options) ->
  0 <= retries options ->
  (forall i, (i < Z.to_nat (retries options))%nat ->
     exists n m,
       upstream w (length (netLog w) + i)%nat
         (theCall (buildUrl options) (buildInit options) options)
       = NetThrows (EError n m)) ->
  upstream w (length (netLog w) + Z.to_nat (retries options))%nat
    (theCall (buildUrl options) (buildInit options) options)
    = NetThrows (EError name msg) ->
  name <> "AbortError" ->
  exists w',
    request options w = (Throw (EError name msg), w')
    /\ attempts w w' = retries options + 1
    /\ slept w' = slept w
    /\ code (Cli.asCliError (EError name msg)) = INTERNAL_ERROR
    /\ message (Cli.asCliError (EError name msg)) = msg.
Proof.
  intros Hpath Hn Hfail Hup Hname.
  destruct (request_after_throws options w (EError name msg))
    as (w' & Hreq & Hatt & Hsl); try done.
  - unfold outcomes. apply Forall_forall. intros o Hin.
    apply list_elem_of_In, in_map_iff in Hin as (i & <- & Hi). apply in_seq in Hi.
    destruct (Hfail i) as (n & m & ->); [lia|]. split; [done | by eexists].
  - exists w'. split; [|done]. rewrite Hreq. unfold thrownBy.
    rewrite bool_decide_eq_false_2 by (simpl; intros [=]; done). done.
Qed.

(** X5: an HTTP 408 is retried like a timeout, its error having the code
    [TIMEOUT]: against an upstream that answers 408 to every attempt the
    engine makes exactly [retries + 1] attempts without awaiting any timer
    and raises [TIMEOUT], marked not recoverable. *)
Theorem request_retries_408 (options : RequestOptions) (w : World) :
  pathAccepted (path options) ->
  0 <= retries options ->
  (forall k call, exists text headers,
     upstream w k call = NetResponse 408 text headers /\ text <> TextMalformed) ->
  exists e w',
    request options w = (Throw (ECli e), w')
    /\ code e = TIMEOUT
    /\ recoverable e = false
    /\ attempts w w' = retries options + 1
    /\ slept w' = slept w.
Proof.
  intros Hpath Hn H408. rewrite request_accepted by done.
  assert (Z.to_nat (retries options + 1)
          = (Z.to_nat (retries options) + 1)%nat) as -> by lia.
  destruct (requestLoop_skip (buildUrl options) (buildInit options) options
              (Z.to_nat (retries options)) 1 0 None w)
    as (le & w1 & -> & Hlog1 & Hup1 & Hsl1); [lia | |].
  { unfold outcomes. apply Forall_forall. intros o Hin.
    apply list_elem_of_In, in_map_iff in Hin as (i & <- & _).
    destruct (H408 (length (netLog w) + i)%nat
                (theCall (buildUrl options) (buildInit options) options))
      as (text & headers & -> & Htext).
    by destruct text. }
  destruct (H408 (length (netLog w1))
              (theCall (buildUrl options) (buildInit options) options))
    as (text & headers & Hup & Htext).
  assert (exists data, parsedBody text = Some data) as [data Hdata]
    by (destruct text; [by eexists | by eexists | done]).
  destruct (requestLoop_response (buildUrl options) (buildInit options) options
              0 (0 + Z.of_nat (Z.to_nat (retries options))) le w1
              408 text headers data)
    as (w' & -> & Hlog & _ & Hsl); [lia | by rewrite Hup1 | done | right; right; lia |].
  eexists _, w'. split; [reflexivity|]. repeat split.
  - unfold attempts. rewrite Hlog, Hlog1, !length_app, length_replicate.
    simpl. lia.
  - rewrite Hsl, Hsl1.
    assert (concat (List.map delayAfter
              (outcomes w (theCall (buildUrl options) (buildInit options) options)
                 (Z.to_nat (retries options)))) = []) as ->; [|by rewrite app_nil_r].
    unfold outcomes. induction (seq 0 (Z.to_nat (retries options))) as [|i l IH];
      [done|]. simpl.
    destruct (H408 (length (netLog w) + i)%nat
                (theCall (buildUrl options) (buildInit options) options))
      as (text' & headers' & -> & Htext').
    by destruct text'.
Qed.

End RetryLoop.

(** The scenario of the specification: two timeouts, then a success, with
    two retries. *)
Lemma request_returns_first_success_witness :
  (Http.request (H := Host.runtime) (Host.get "/users/me" 2)
     (Host.quiet 0 (fun k _ =>
        if (k <? 2)%nat then NetThrows (EError "AbortError" "aborted")
        else NetResponse 200 (TextJson (JObj [("object", JStr "user")])) []))).1
  = Ok {| resp_status := 200; resp_data := JObj [("object", JStr "user")];
          resp_headers := [] |}.
Proof.
  destruct (request_returns_first_success (rt := Host.runtime)
              (Host.get "/users/me" 2)
              (Host.quiet 0 (fun k _ =>
                 if (k <? 2)%nat then NetThrows (EError "AbortError" "aborted")
                 else NetResponse 200 (TextJson (JObj [("object", JStr "user")])) []))
              2 200 (TextJson (JObj [("object", JStr "user")])) []
              (JObj [("object", JStr "user")]))
    as (w' & Hreq & _).
  - intros w. reflexivity.
  - simpl. lia.
  - repeat constructor.
  - reflexivity.
  - reflexivity.
  - lia.
  - by rewrite Hreq.
Defined.


Lemma request_exhausted_by_timeouts_witness :
  (Http.request (H := Host.runtime) (Host.get "/users/me" 2)
     (Host.quiet 0 (fun _ _ => NetThrows (EError "AbortError" "aborted")))).1
  = Throw (ECli (Http.timeoutError 30000)).
Proof.
  destruct (request_exhausted_by_timeouts (rt := Host.runtime)
              (Host.get "/users/me" 2)
              (Host.quiet 0 (fun _ _ => NetThrows (EError "AbortError" "aborted"))))
    as (w' & Hreq & _).
  - intros w. reflexivity.
  - simpl. lia.
  - intros i _. by eexists.
  - by rewrite Hreq.
Defined.

Lemma request_rethrows_last_failure_witness :
  (Http.request (H := Host.runtime) (Host.get "/users/me" 1)
     (Host.quiet 0 (fun _ _ => NetThrows (EError "TypeError" "fetch failed")))).1
  = Throw (EError "TypeError" "fetch failed").
Proof.
  destruct (request_rethrows_last_failure (rt := Host.runtime)
              (Host.get "/users/me" 1)
              (Host.quiet 0 (fun _ _ => NetThrows (EError "TypeError" "fetch failed")))
              "TypeError" "fetch failed")
    as (w' & Hreq & _).
  - intros w. reflexivity.
  - simpl. lia.
  - intros i _. by eexists _, _.
  - reflexivity.
  - discriminate.
  - by rewrite Hreq.
Defined.

Lemma request_retries_408_witness :
  attempts (Host.quiet 0 (fun _ _ => NetResponse 408 TextEmpty []))
    (Http.request (H := Host.runtime) (Host.get "/users/me" 2)
       (Host.quiet 0 (fun _ _ => NetResponse 408 TextEmpty []))).2 = 3%Z.
Proof.
  destruct (request_retries_408 (rt := Host.runtime) (Host.get "/users/me" 2)
              (Host.quiet 0 (fun _ _ => NetResponse 408 TextEmpty [])))
    as (e & w' & Hreq & _ & _ & Hatt & _).
  - intros w. reflexivity.
  - simpl. lia.
  - intros k call. by eexists _, _.
  - by rewrite Hreq.
Defined.

(** ** The request engine: what a request touches and what it sends *)

Section RequestFrame.

Import Http.
Context `{rt : Runtime}.
#[local] Open Scope Z_scope.

(** The world after [calls] were sent and [delays] awaited, all else being
    as it was. *)
Definition afterNet (calls : list FetchCall) (delays : list Delay) (w : World)
    : World :=
  mkWorld (clock w) (clockReads w) (upstream w) (netLog w ++ calls)
    (slept w ++ delays) (opsFile w) (configFile w) (writeFails w) (written w)
    (env w) (stdin w) (stdout w) (stderr w).

Lemma afterNet_nil w : afterNet [] [] w = w.
Proof. destruct w. unfold afterNet. simpl. by rewrite !app_nil_r. Qed.

Lemma afterNet_afterNet c1 d1 c2 d2 w :
  afterNet c2 d2 (afterNet c1 d1 w) = afterNet (c1 ++ c2) (d1 ++ d2) w.
Proof. unfold afterNet. simpl. by rewrite !(app_assoc (netLog w)), !(app_assoc (slept w)). Qed.

Lemma doFetch_afterNet url init t w r w' :
  doFetch url init t w = (r, w') ->
  w' = afterNet [{| fc_url := url; fc_init := init; fc_timeoutMs := t |}] [] w.
Proof.
  unfold doFetch, tryCatch, bind, fetchText, jsonParse, ret, throw, throwCli, throw.
  intros Hrun.
  repeat (case_match; simplify_eq/=); unfold afterNet; simpl;
    by rewrite app_nil_r.
Qed.

Lemma pass_afterNet url init options attempt lastError w r w' :
  tryCatch (do s <- tryBlock url init options attempt; ret (s, lastError))
    (catchBlock options attempt) w = (r, w') ->
  exists delays, w' = afterNet [theCall url init options] delays w.
Proof.
  unfold tryCatch, bind at 1, tryBlock, bind at 1. intros Hrun.
  destruct (doFetch _ _ _ w) as [r0 w0] eqn:Hfetch.
  apply doFetch_afterNet in Hfetch as ->.
  unfold catchBlock, sleep, modify, bind, ret, throwCli, throw in Hrun.
  repeat (case_match; simplify_eq/=).
  all: first
    [ by exists []
    | eexists [_]; unfold afterNet; simpl; rewrite app_nil_r; reflexivity ].
Qed.

Lemma requestLoop_afterNet fuel url init options :
  forall attempt lastError w r w',
  requestLoop fuel url init options attempt lastError w = (r, w') ->
  exists n delays,
    w' = afterNet (replicate n (theCall url init options)) delays w.
Proof.
  induction fuel as [|fuel IH]; intros attempt lastError w r w' Hrun;
    simpl in Hrun.
  - exists 0%nat, []. rewrite afterNet_nil.
    destruct (attempt <=? retries options).
    + unfold outOfFuel in Hrun. by simplify_eq.
    + by apply afterLoop_frame in Hrun as [-> _].
  - destruct (attempt <=? retries options).
    + unfold bind at 1 in Hrun.
      destruct (tryCatch _ _ w) as [r0 w0] eqn:Hpass.
      apply pass_afterNet in Hpass as [delays ->].
      destruct r0 as [[s le]| | |]; simplify_eq/=.
      * destruct s.
        -- apply IH in Hrun as (n & delays' & ->).
           exists (S n), (delays ++ delays'). by rewrite afterNet_afterNet.
        -- apply afterLoop_frame in Hrun as [-> _]. by exists 1%nat, delays.
        -- unfold ret in Hrun. simplify_eq. by exists 1%nat, delays.
      * by exists 1%nat, delays.
      * by exists 1%nat, delays.
      * by exists 1%nat, delays.
    + apply afterLoop_frame in Hrun as [-> _]. exists 0%nat, [].
      by rewrite afterNet_nil.
Qed.

(** X6: a request changes nothing but the network log and the timers:
    clock, files, configuration and both output channels are as before, and
    every physical attempt it makes is the same call (same address, same
    headers and body, same timeout). *)
Theorem request_touches_network_only (options : RequestOptions) (w : World) :
  exists n delays,
    (request options w).2
    = afterNet
        (replicate n (theCall (buildUrl options) (buildInit options) options))
        delays w.
Proof.
  unfold request, bind.
  destruct (validatePath (path options) w) as [r0 w0] eqn:Hv.
  apply validatePath_frame in Hv as (-> & [-> | [e ->]]); simpl.
  - destruct (requestLoop _ _ _ _ _ _ w) as [r w'] eqn:Hrun.
    apply requestLoop_afterNet in Hrun as (n & delays & ->). by exists n, delays.
  - exists 0%nat, []. by rewrite afterNet_nil.
Qed.

(** X7: the headers of a request. Whatever the extra headers give is sent
    as given; a header they do not give is the engine's own: the version
    header always, the bearer token when there is one, and as content type
    the explicit override or else JSON for a body that is not a multipart
    form, so a multipart form goes out without a content type. *)
Theorem buildHeaders_priority (options : RequestOptions) :
  (forall extra name value,
     extraHeaders options = Some extra ->
     extra !! name = Some value ->
     buildHeaders options !! name = Some value)
  /\ (forall name,
        (forall extra, extraHeaders options = Some extra -> extra !! name = None) ->
        (name = "Notion-Version" ->
         buildHeaders options !! name = Some (notionVersion options))
        /\ (name = "Content-Type" ->
            truthyStr (contentType options) = false ->
            buildHeaders options !! name
            = if bodyTruthy (body options) && negb (isFormData (body options))
              then Some "application/json" else None)
        /\ (name = "Content-Type" ->
            truthyStr (contentType options) = true ->
            buildHeaders options !! name = contentType options)
        /\ (name = "Authorization" ->
            buildHeaders options !! name
            = if truthyStr (token options)
              then Some ("Bearer " +:+ default "" (token options)) else None)).
Proof.
  split.
  - intros extra name value Hextra Hin. unfold buildHeaders. rewrite Hextra.
    by apply lookup_union_Some_l.
  - intros name Hnone.
    assert (forall m : gmap string string,
              match extraHeaders options with
              | Some extra => extra ∪ m
              | None => m
              end !! name = m !! name) as Hskip.
    { intros m. destruct (extraHeaders options) as [extra|]; [|done].
      rewrite lookup_union_r; [done | by apply Hnone]. }
    unfold buildHeaders. rewrite Hskip.
    repeat split; intros ->.
    + repeat case_match; by simplify_map_eq.
    + intros ->. repeat case_match; by simplify_map_eq.
    + intros Hct. rewrite Hct. destruct (contentType options) as [ct|]; [|done].
      repeat case_match; by simplify_map_eq.
    + repeat case_match; by simplify_map_eq.
Qed.

End RequestFrame.

(** ** Path validation: what is let through and what is not *)

Section PathAcceptance.

Import Http.
Context `{rt : Runtime}.
#[local] Open Scope N_scope.

Lemma scan_plain s :
  Forall (fun c => c <> percent) s -> scan Top s = Some s.
Proof.
  induction 1 as [|c s Hc _ IH]; [done|]. simpl.
  apply N.eqb_neq in Hc as ->. by rewrite IH.
Qed.

Lemma lowerFrom_ascii s : forall before,
  Forall (fun c => c < 128) s ->
  lowerFrom before s = List.map asciiLower s.
Proof.
  induction s as [|c s IH]; intros before Hs; [done|].
  apply Forall_cons in Hs as [Hc Hs]. simpl.
  apply N.ltb_lt in Hc as ->. simpl. by rewrite IH.
Qed.

Lemma asciiLower_fixes c d :
  d < 65 \/ 90 < d -> d < 97 \/ 122 < d -> asciiLower c = d -> c = d.
Proof.
  unfold asciiLower. intros Hd Hd'.
  destruct ((65 <=? c) && (c <=? 90)) eqn:Hup; [|done].
  apply andb_true_iff in Hup as [H1 H2]. apply N.leb_le in H1, H2.
  intros <-. lia.
Qed.

(** Lower-casing an ASCII string creates no dot and no percent sign. *)
Lemma lowered_contains_dots s :
  contains (List.map asciiLower s) (units "..") -> contains s (units "..").
Proof.
  intros (a & b & Hab). change (units "..") with [46; 46] in *.
  apply map_eq_app in Hab as (a' & t & -> & <- & Ht).
  apply map_eq_app in Ht as (p' & b' & -> & Hp & <-).
  destruct p' as [|c1 [|c2 [|]]]; simplify_eq/=.
  apply asciiLower_fixes in H; [|lia|lia].
  apply asciiLower_fixes in H0; [|lia|lia].
  subst. by exists a', b'.
Qed.

Lemma lowered_contains_percent s pat :
  contains (List.map asciiLower s) (percent :: pat) -> percent ∈ s.
Proof.
  intros (a & b & Hab).
  apply map_eq_app in Hab as (a' & t & -> & <- & Ht).
  destruct t as [|c t]; simplify_eq/=.
  apply asciiLower_fixes in H; [|unfold percent; lia|unfold percent; lia].
  subst. apply elem_of_app. right. apply list_elem_of_here.
Qed.

(** X8: path validation lets plain paths through: an ASCII path with no
    percent sign and no two dots in a row decodes to itself and passes
    [validatePath], so that identifiers, slashes and single dots are never
    rejected. *)
Theorem plain_path_accepted (p : jsstr) :
  Forall (fun c => c < 128) p ->
  percent ∉ p ->
  ~ contains p (units "..") ->
  decodeURIComponent p = Some p /\ pathAccepted p.
Proof.
  intros Hascii Hpct Hdots.
  assert (decodeURIComponent p = Some p) as Hdec.
  { apply scan_plain, Forall_forall. intros c Hc ->. done. }
  split; [done|]. intros w. unfold validatePath. rewrite Hdec.
  unfold toLowerCase. rewrite lowerFrom_ascii by done.
  destruct (includes (List.map asciiLower p) (units "..")) eqn:H1.
  { apply includes_spec, lowered_contains_dots in H1. done. }
  destruct (includes (List.map asciiLower p) (units "%2e")) eqn:H2.
  { apply includes_spec, lowered_contains_percent in H2. done. }
  reflexivity.
Qed.

Lemma scan_percent25 st t r :
  scan st (units "%25" ++ t) = Some r ->
  st = Top /\ exists r', scan Top t = Some r' /\ r = percent :: r'.
Proof.
  intros Hscan.
  destruct st as [| [p|] | [p|] hi | p]; simpl in Hscan; try done.
  all: try (destruct (hexVal hi); done).
  destruct (scan Top t) as [r'|]; [|done]. simplify_eq. eauto.
Qed.

Lemma toLowerCase_keeps_escape a b x :
  x = 101 \/ x = 69 ->
  contains (toLowerCase (a ++ percent :: 50 :: x :: b)) (units "%2e").
Proof.
  intros Hx. unfold toLowerCase.
  destruct (lowerFrom_app a [] (percent :: 50 :: x :: b)) as [pre ->].
  exists pre. eexists. destruct Hx as [-> | ->]; reflexivity.
Qed.

(** X9: a doubly encoded dot does not slip through: a path that contains
    %252e (in either case of the last letter) and decodes is decoded to a
    text containing %2e, and the request is rejected with
    [INVALID_ARGUMENT] before anything is sent. *)
Theorem double_encoded_dot_rejected (options : RequestOptions) (w : World)
    (a b decoded : jsstr) (x : N) :
  path options = a ++ units "%252" ++ x :: b ->
  x = 101 \/ x = 69 ->
  decodeURIComponent (path options) = Some decoded ->
  contains (toLowerCase decoded) (units "%2e")
  /\ request options w
     = (Throw (ECli (pathTraversalError (path options))), w).
Proof.
  intros Hpath Hx Hdec.
  assert (contains (toLowerCase decoded) (units "%2e")) as Hc.
  { unfold decodeURIComponent in Hdec. rewrite Hpath in Hdec.
    apply scan_app in Hdec as (st & ra & rt' & _ & Hrest & ->).
    change (units "%252" ++ x :: b) with (units "%25" ++ 50 :: x :: b) in Hrest.
    apply scan_percent25 in Hrest as (_ & r1 & Hrest & ->).
    assert ((x =? percent) = false) as Hxp
      by (destruct Hx as [-> | ->]; reflexivity).
    simpl in Hrest. rewrite Hxp in Hrest.
    destruct (scan Top b) as [rb|]; [|done]. simplify_eq/=.
    by apply toLowerCase_keeps_escape. }
  split; [done|]. apply request_rejected.
  eapply validatePath_rejects; [done | by right].
Qed.

End PathAcceptance.

Lemma plain_path_accepted_witness :
  pathAccepted (rt := Host.runtime)
    (units "/pages/59833787-2cf9-4fdf-8782-e53db20768a5").
Proof.
  apply (plain_path_accepted (rt := Host.runtime)).
  - repeat constructor.
  - apply (bool_decide_eq_false_1 _). vm_compute. reflexivity.
  - intros Hc. apply includes_spec in Hc. vm_compute in Hc. discriminate.
Defined.

Lemma double_encoded_dot_rejected_witness :
  Http.request (H := Host.runtime) (Host.get "/blocks/%252E%252E/x" 3)
    (Host.quiet 0 (fun _ _ => NetThrows (EValue JNull)))
  = (Throw (ECli (Http.pathTraversalError (units "/blocks/%252E%252E/x"))),
     Host.quiet 0 (fun _ _ => NetThrows (EValue JNull))).
Proof.
  apply (double_encoded_dot_rejected (rt := Host.runtime)
           (Host.get "/blocks/%252E%252E/x" 3)
           (Host.quiet 0 (fun _ _ => NetThrows (EValue JNull)))
           (units "/blocks/") (units "%252E/x") (units "/blocks/%2E%2E/x") 69%N).
  - reflexivity.
  - by right.
  - reflexivity.
Defined.

(** ** The pagination engine: a fetch that fails *)

Section PaginationFailure.

Import Output Pagination.

(** A run of the engine that ends in a failure: from [cursor] in world [w]
    it fetches [pages], none of which ends the loop, following the cursors,
    and the next fetch throws [e], leaving the world [w']. *)
Inductive PageFail (ndjson : bool)
    (fetchPage : option string -> M PaginatedResponse)
    : option string -> World -> list PaginatedResponse -> Exn -> World -> Prop :=
| fail_now cursor w e w' :
    fetchPage cursor w = (Throw e, w') ->
    PageFail ndjson fetchPage cursor w [] e w'
| fail_later cursor w page w' pages e w'' :
    fetchPage cursor w = (Ok page, w') ->
    lastPage page = false ->
    PageFail ndjson fetchPage (next_cursor page) (emitPage ndjson page w')
      pages e w'' ->
    PageFail ndjson fetchPage cursor w (page :: pages) e w''.

Lemma paginateLoop_fail ndjson fetchPage cursor w pages e w' :
  PageFail ndjson fetchPage cursor w pages e w' ->
  forall fuel total all,
  length pages < fuel ->
  paginateLoop fuel fetchPage ndjson cursor total all w = (Throw e, w').
Proof.
  induction 1 as [cursor w e w' Hfetch
                 |cursor w page w' pages e w'' Hfetch Hlast Hrun IH];
    intros fuel total all Hfuel; (destruct fuel as [|fuel]; [simpl in Hfuel; lia|]).
  - simpl. unfold bind at 1. by rewrite Hfetch.
  - simpl. unfold bind at 1. rewrite Hfetch.
    destruct ndjson; simpl.
    + unfold bind at 1. unfold bind at 1. rewrite emitItems_spec. simpl.
      rewrite Hlast. simpl in IH. apply IH. simpl in Hfuel. lia.
    + unfold bind at 1. simpl. rewrite Hlast. simpl in IH.
      apply IH. simpl in Hfuel. lia.
Qed.

Lemma failed_stream_items fetchPage cursor w pages e w' :
  fetchQuiet fetchPage ->
  PageFail true fetchPage cursor w pages e w' ->
  stdout w' = stdout w ++ List.map OutItem (itemsOf pages).
Proof.
  intros Hquiet. induction 1 as [cursor w e w' Hfetch
                 |cursor w page w' pages e w'' Hfetch Hlast Hrun IH].
  - unfold itemsOf. simpl. rewrite app_nil_r. by rewrite (Hquiet _ _ _ _ Hfetch).
  - rewrite IH. unfold itemsOf. simpl. rewrite (Hquiet _ _ _ _ Hfetch).
    by rewrite List.map_app, app_assoc.
Qed.

(** X10: when a fetch fails after some pages, the engine throws what the
    fetch threw, in either mode. In streaming mode the items of the pages
    fetched before the failure have already been written, in order, and no
    summary line follows them: the primary channel holds item lines only. *)
Theorem paginateAll_fetch_failure
    (fetchPage : option string -> M PaginatedResponse) (ndjson : bool)
    (w w' : World) (pages : list PaginatedResponse) (e : Exn) (fuel : nat) :
  PageFail ndjson fetchPage None w pages e w' ->
  length pages < fuel ->
  paginateAll fuel fetchPage (Some ndjson) w = (Throw e, w')
  /\ (fetchQuiet fetchPage ->
      stdout w'
      = stdout w ++ (if ndjson then List.map OutItem (itemsOf pages) else [])
      /\ List.filter isSummary
           (if ndjson then List.map OutItem (itemsOf pages) else []) = []).
Proof.
  intros Hrun Hfuel. split.
  - unfold paginateAll, bind. simpl.
    by rewrite (paginateLoop_fail _ _ _ _ _ _ _ Hrun fuel 0 [] Hfuel).
  - intros Hquiet. destruct ndjson.
    + split; [by apply (failed_stream_items fetchPage None w pages e w')|].
      apply items_no_summary.
    + split; [|done]. rewrite app_nil_r. clear Hfuel.
      induction Hrun as [cursor w e w' Hfetch
                        |cursor w page w' pages e w'' Hfetch Hlast Hrun IH].
      * by rewrite (Hquiet _ _ _ _ Hfetch).
      * rewrite IH. simpl. by rewrite (Hquiet _ _ _ _ Hfetch).
Qed.

(** A page that ends the loop is the last one fetched: the cursor it may
    carry is never followed. *)
Lemma paginateLoop_stops fetchPage ndjson cursor w page w' fuel total all :
  fetchPage cursor w = (Ok page, w') ->
  lastPage page = true ->
  paginateLoop (S fuel) fetchPage ndjson cursor total all w
  = (Ok (if ndjson then (total + length (results page), all)
         else (length (all ++ results page), all ++ results page)),
     emitPage ndjson page w').
Proof.
  intros Hfetch Hlast. simpl. unfold bind at 1. rewrite Hfetch.
  destruct ndjson; simpl.
  - unfold bind. rewrite emitItems_spec. simpl. by rewrite Hlast.
  - unfold bind. simpl. by rewrite Hlast.
Qed.

(** X11: a first page that says there is no more, or that carries no
    cursor or an empty one, is the only page fetched: the engine fetches
    exactly once, whatever the fetch function would answer to another
    call, and returns the results of that page. An empty cursor counts as
    no cursor. *)
Theorem paginateAll_single_page
    (fetchPage : option string -> M PaginatedResponse)
    (w w' : World) (page : PaginatedResponse) (fuel : nat) :
  fetchPage None w = (Ok page, w') ->
  has_more page = false \/ next_cursor page = None \/ next_cursor page = Some "" ->
  paginateAll (S fuel) fetchPage (Some false) w
  = (Ok (Some {| all_results := results page;
                 total := length (results page) |}), w')
  /\ paginateAll (S fuel) fetchPage (Some true) w
     = (Ok None,
        addStdout (List.map OutItem (results page)
                     ++ [OutSummary (length (results page))]) w').
Proof.
  intros Hfetch Hend.
  assert (lastPage page = true) as Hlast.
  { unfold lastPage. destruct Hend as [-> | [-> | ->]]; [done| |];
      simpl; by rewrite orb_true_r. }
  split.
  - unfold paginateAll, bind. change (default false (Some false)) with false.
    rewrite (paginateLoop_stops fetchPage false None w page w' fuel 0 []) by done.
    reflexivity.
  - unfold paginateAll, bind. change (default false (Some true)) with true.
    rewrite (paginateLoop_stops fetchPage true None w page w' fuel 0 []) by done.
    simpl. unfold writeNdjsonLine, writeStdout, modify, ret. simpl.
    rewrite <- addStdout_app. reflexivity.
Qed.

End PaginationFailure.

(** The second page cannot be fetched: the two items of the first page are
    on the primary channel, and nothing else. *)
Definition failingSecondPage (cursor : option string)
    : M Pagination.PaginatedResponse :=
  match cursor with
  | None =>
      ret {| Pagination.results := [JNum 1; JNum 2];
             Pagination.has_more := true;
             Pagination.next_cursor := Some "a" |}
  | Some _ => throw (EError "TypeError" "fetch failed")
  end.

Lemma paginateAll_fetch_failure_witness :
  Pagination.paginateAll 5 failingSecondPage (Some true)
    (Host.quiet 0 (fun _ _ => NetThrows (EValue JNull)))
  = (Throw (EError "TypeError" "fetch failed"),
     addStdout [OutItem (JNum 1); OutItem (JNum 2)]
       (Host.quiet 0 (fun _ _ => NetThrows (EValue JNull)))).
Proof.
  apply (paginateAll_fetch_failure failingSecondPage true
           (Host.quiet 0 (fun _ _ => NetThrows (EValue JNull)))
           (addStdout [OutItem (JNum 1); OutItem (JNum 2)]
              (Host.quiet 0 (fun _ _ => NetThrows (EValue JNull))))
           [ {| Pagination.results := [JNum 1; JNum 2];
                Pagination.has_more := true;
                Pagination.next_cursor := Some "a" |} ]
           (EError "TypeError" "fetch failed") 5).
  - eapply fail_later; [reflexivity | reflexivity |].
    apply fail_now. reflexivity.
  - simpl. lia.
Defined.

(** A page with [has_more] true and an empty cursor. *)
Lemma paginateAll_single_page_witness :
  Pagination.paginateAll 1
    (fun _ => ret {| Pagination.results := [JNum 7];
                     Pagination.has_more := true;
                     Pagination.next_cursor := Some "" |})
    (Some false) (Host.quiet 0 (fun _ _ => NetThrows (EValue JNull)))
  = (Ok (Some {| Pagination.all_results := [JNum 7]; Pagination.total := 1 |}),
     Host.quiet 0 (fun _ _ => NetThrows (EValue JNull))).
Proof.
  apply (paginateAll_single_page
           (fun _ => ret {| Pagination.results := [JNum 7];
                            Pagination.has_more := true;
                            Pagination.next_cursor := Some "" |})
           (Host.quiet 0 (fun _ _ => NetThrows (EValue JNull)))
           (Host.quiet 0 (fun _ _ => NetThrows (EValue JNull)))
           {| Pagination.results := [JNum 7];
              Pagination.has_more := true;
              Pagination.next_cursor := Some "" |} 0).
  - reflexivity.
  - right. right. reflexivity.
Defined.

(** ** The command harness: how a command ends *)

Section HarnessOutcomes.

Import Output Config Cli.
Context `{rt : Runtime}.
#[local] Open Scope Z_scope.

(** The fields of a context that come straight from the options. *)
Lemma resolveContext_fields command options w ctx w' :
  resolveContext command options w = (Ok ctx, w') ->
  ctx_command ctx = command
  /\ ctx_outputFile ctx = o_outputFile options
  /\ ctx_ndjson ctx = default false (o_ndjson options)
  /\ ctx_pretty ctx = default (cfg_pretty (ctx_config ctx)) (o_pretty options).
Proof.
  unfold resolveContext, bind at 1. intros Hrun.
  destruct (if default false (o_tokenStdin options) then _ else _) as [r0 w0].
  destruct r0 as [tok| | |]; simplify_eq/=.
  unfold bind at 1 in Hrun.
  destruct (resolveConfig _ w0) as [[cfg| | |] w1]; unfold ret in Hrun;
    by simplify_eq/=.
Qed.

(** Resolving the context leaves the files, the network, the clock and the
    primary channel alone: it may only spend the standard input and write
    a warning to the diagnostic channel. *)
Lemma resolveContext_frame command options w r w' :
  resolveContext command options w = (r, w') ->
  stdout w' = stdout w /\ configFile w' = configFile w
  /\ writeFails w' = writeFails w /\ written w' = written w
  /\ netLog w' = netLog w /\ opsFile w' = opsFile w
  /\ clock w' = clock w /\ clockReads w' = clockReads w.
Proof.
  unfold resolveContext, resolveConfig, loadConfigFile, readStdin, bind, gets,
    ret, throw, writeStderr, modify.
  intros Hrun. repeat (case_match; simplify_eq/=); done.
Qed.

Lemma ensureTokenStdinSafe_ok options inputs w :
  (o_tokenStdin options = Some true -> Some "-" ∉ inputs) ->
  ensureTokenStdinSafe options inputs w = (Ok tt, w).
Proof.
  intros Hsafe. unfold ensureTokenStdinSafe.
  destruct (o_tokenStdin options) as [[|]|]; simpl; try done.
  destruct (existsb _ inputs) eqn:Hex; [|done].
  apply existsb_exists in Hex as (x & Hin & Hx).
  apply bool_decide_eq_true_1 in Hx as ->.
  by apply list_elem_of_In, Hsafe in Hin.
Qed.

(** The success envelope of a command. *)
Definition successOf {T} `{ToJson T} (command : string) (res : ActionResult T)
    (duration : Z) : Envelope :=
  successEnvelope command (toJson (data res)) []
    {[ "duration_ms" := JNum duration ]}.

(** X12: a command whose handler returns ends the process with the exit
    code the handler gave, and with 0 when it gave none. Unless the
    context asks for streaming and the payload is marked as streamed, one
    success envelope is written to the primary channel before that, its
    duration being the time between the first reading of the clock and the
    reading after the handler; in the streaming case nothing is written
    after the handler has returned. *)
Theorem runAction_handler_returns {T} `{ToJson T} (command : string)
    (options : GlobalOptions) (handler : Context -> M (ActionResult T))
    (stdinInputs : list (option string)) (w w1 w2 : World) (ctx : Context)
    (res : ActionResult T) :
  (o_tokenStdin options = Some true -> Some "-" ∉ stdinInputs) ->
  resolveContext command options (dateNow w).2 = (Ok ctx, w1) ->
  handler ctx w1 = (Ok res, w2) ->
  o_outputFile options = None ->
  runAction command options handler stdinInputs w
  = (Exit (default 0 (exitCode res)),
     if ctx_ndjson ctx && streamed (toJson (data res)) then w2
     else addStdout
            [OutEnvelope
               (successOf command res
                  (clock w2 (clockReads w2) - clock w (clockReads w)))
               (ctx_pretty ctx)]
            (dateNow w2).2).
Proof.
  intros Hsafe Hctx Hhandler Hfile.
  destruct (resolveContext_fields _ _ _ _ _ Hctx) as (_ & Hout & _).
  unfold runAction, bind at 1. simpl. unfold tryCatch, bind at 1.
  rewrite ensureTokenStdinSafe_ok by done.
  unfold bind at 1. simpl in Hctx. rewrite Hctx.
  unfold bind at 1. rewrite Hhandler.
  destruct (ctx_ndjson ctx && streamed (toJson (data res))); simpl.
  - reflexivity.
  - unfold bind at 1, bind at 1. simpl.
    rewrite emitOutput_stdout by (by rewrite Hout). reflexivity.
Qed.





(** X15: a handler that throws. The error is reported in one error
    envelope whose code, message and recoverability are those of the error
    when it is a [CliError], and [INTERNAL_ERROR], not recoverable,
    otherwise; the process exits with the exit code of that error code, so
    with 125 for whatever is no [CliError]. *)
Theorem runAction_handler_throws {T} `{ToJson T} (command : string)
    (options : GlobalOptions) (handler : Context -> M (ActionResult T))
    (stdinInputs : list (option string)) (w w1 w2 : World) (ctx : Context)
    (e : Exn) :
  (o_tokenStdin options = Some true -> Some "-" ∉ stdinInputs) ->
  resolveContext command options (dateNow w).2 = (Ok ctx, w1) ->
  handler ctx w1 = (Throw e, w2) ->
  loadable (configFile w2) ->
  o_outputFile options = None ->
  (exists w' body metadata p,
     runAction command options handler stdinInputs w
     = (Exit (EXIT_CODES (OfCode (code (asCliError e)))), w')
     /\ stdout w' = stdout w2 ++ [OutEnvelope (ErrorEnvelope body metadata) p]
     /\ eb_code body = code (asCliError e)
     /\ eb_message body = message (asCliError e)
     /\ eb_recoverable body = recoverable (asCliError e))
  /\ ((forall c, e <> ECli c) ->
      code (asCliError e) = INTERNAL_ERROR
      /\ recoverable (asCliError e) = false
      /\ EXIT_CODES (OfCode (code (asCliError e))) = 125).
Proof.
  intros Hsafe Hctx Hhandler Hcfg Hfile. split.
  - unfold runAction, bind at 1. simpl. unfold tryCatch, bind at 1.
    rewrite ensureTokenStdinSafe_ok by done.
    unfold bind at 1. simpl in Hctx. rewrite Hctx.
    unfold bind at 1. rewrite Hhandler.
    unfold handleError, bind at 1.
    destruct (resolveContext_ok command options w2 Hcfg)
      as (ctx' & w3 & -> & Hout & _ & Hctx').
    unfold bind at 1. simpl. unfold bind at 1.
    rewrite emitOutput_stdout by (by rewrite Hctx').
    unfold bind, processExit.
    destruct (default false (o_quiet options)); simpl.
    all: eexists _, _, _, _; split; [reflexivity|]; simpl.
    all: by rewrite Hout.
  - intros Hne. destruct e as [c | name msg | v]; [by destruct (Hne c)| |]; done.
Qed.

(** X16: an output file that cannot be written. The success envelope is
    already on the primary channel when the write fails; the failure is
    handled as an error, so an error envelope follows it on the primary
    channel, and the write of that envelope to the same file fails in turn:
    the failure leaves [runAction], nothing has been written to the file,
    and the end of [index.ts] exits with code 125. *)
Theorem runAction_output_file_unwritable {T} `{ToJson T} (command : string)
    (options : GlobalOptions) (handler : Context -> M (ActionResult T))
    (stdinInputs : list (option string)) (w w1 w2 : World) (ctx : Context)
    (res : ActionResult T) (file : string) (e : Exn) :
  (o_tokenStdin options = Some true -> Some "-" ∉ stdinInputs) ->
  resolveContext command options (dateNow w).2 = (Ok ctx, w1) ->
  handler ctx w1 = (Ok res, w2) ->
  ctx_ndjson ctx && streamed (toJson (data res)) = false ->
  o_outputFile options = Some file ->
  file <> "" ->
  writeFails w2 file = Some e ->
  loadable (configFile w2) ->
  exists w' duration body metadata p p',
    runAction command options handler stdinInputs w = (Throw e, w')
    /\ stdout w'
       = stdout w2 ++ [OutEnvelope (successOf command res duration) p;
                       OutEnvelope (ErrorEnvelope body metadata) p']
    /\ eb_code body = code (asCliError e)
    /\ written w' = written w2
    /\ (main (runAction command options handler stdinInputs) w).1 = Exit 125.
Proof.
  intros Hsafe Hctx Hhandler Hstream Hfile Hne Hfails Hcfg.
  destruct (resolveContext_fields _ _ _ _ _ Hctx) as (_ & Hout & _).
  assert (forall c : Context, ctx_outputFile c = Some file ->
            truthyStr (ctx_outputFile c) = true) as Htruthy.
  { intros c ->. simpl. by apply String.eqb_neq in Hne as ->. }
  assert (exists w' duration body metadata p p',
    runAction command options handler stdinInputs w = (Throw e, w')
    /\ stdout w'
       = stdout w2 ++ [OutEnvelope (successOf command res duration) p;
                       OutEnvelope (ErrorEnvelope body metadata) p']
    /\ eb_code body = code (asCliError e)
    /\ written w' = written w2) as (w' & d & body & md & p & p' & Hrun & Hrest).
  { unfold runAction, bind at 1. simpl. unfold tryCatch, bind at 1.
    rewrite ensureTokenStdinSafe_ok by done.
    unfold bind at 1. simpl in Hctx. rewrite Hctx.
    unfold bind at 1. rewrite Hhandler.
    rewrite Hstream. simpl.
    unfold bind at 1, bind at 1. simpl.
    unfold emitOutput at 1, bind at 1, writeJson, writeStdout, modify. simpl.
    rewrite (Htruthy ctx) by (by rewrite Hout).
    rewrite Hout, Hfile. simpl. unfold writeFile at 1. simpl. rewrite Hfails.
    unfold handleError, bind at 1.
    match goal with |- context [resolveContext command options ?x] =>
      set (w0 := x)
    end.
    destruct (resolveContext_ok command options w0 Hcfg)
      as (ctx3 & w3 & Hctx3 & _ & _ & Hfile3).
    destruct (resolveContext_frame _ _ _ _ _ Hctx3)
      as (Hout3 & _ & Hwf3 & Hwr3 & _).
    rewrite Hctx3.
    unfold bind at 1. unfold dateNow at 1. unfold bind at 1.
    unfold emitOutput, bind at 1, writeJson, writeStdout, modify.
    rewrite (Htruthy ctx3) by (by rewrite Hfile3).
    rewrite Hfile3, Hfile. unfold writeFile. cbn [writeFails default from_option id].
    rewrite Hwf3. subst w0. cbn [writeFails]. rewrite Hfails.
    eexists _, (clock w2 (clockReads w2) - clock w (clockReads w)),
      {| eb_code := code (asCliError e);
         eb_message := message (asCliError e);
         eb_recoverable := recoverable (asCliError e);
         eb_suggested_action := suggestedAction (asCliError e);
         eb_context := context (asCliError e) |},
      (envelopeMetadata command
         {[ "duration_ms" := JNum (clock w3 (clockReads w3) - clock w (clockReads w)) ]}),
      (ctx_pretty ctx), (ctx_pretty ctx3).
    split; [reflexivity|].
    cbn [stdout written]. rewrite Hout3, Hwr3. cbn [stdout written].
    split; [|done]. rewrite <- (app_assoc (stdout w2)). reflexivity. }
  exists w', d, body, md, p, p'. split; [exact Hrun|].
  destruct Hrest as (H1 & H2 & H3). repeat split; try done.
  unfold main, tryCatch. rewrite Hrun. reflexivity.
Qed.

End HarnessOutcomes.

(** Scenarios for the harness. *)
Definition dryRun (_ : Context) : M (ActionResult Json) :=
  ret {| data := JObj [("dry_run", JBool true)]; exitCode := Some 40%Z |}.


Definition tokenStdinOptions : GlobalOptions :=
  {| o_token := None; o_tokenStdin := Some true; o_profile := None;
     o_notionVersion := None; o_timeout := None; o_retries := None;
     o_outputFile := None; o_pretty := None; o_ndjson := None;
     o_validate := None; o_debug := None; o_verbose := None;
     o_quiet := None |}.

Definition outputFileOptions : GlobalOptions :=
  {| o_token := None; o_tokenStdin := None; o_profile := None;
     o_notionVersion := None; o_timeout := None; o_retries := None;
     o_outputFile := Some "/readonly/out.json"; o_pretty := None;
     o_ndjson := None; o_validate := None; o_debug := None;
     o_verbose := None; o_quiet := None |}.

(** A world where no file can be written. *)
Definition readOnlyDisk : World :=
  {| clock := fun _ => 0%Z; clockReads := 0;
     upstream := fun _ _ => NetThrows (EValue JNull); netLog := [];
     slept := [];
     opsFile := OpsMissing; configFile := CfgMissing;
     writeFails := fun _ => Some (EError "Error" "EACCES: permission denied");
     written := [];
     env := ∅; stdin := ""; stdout := []; stderr := [] |}.

(** A dry run: exit code 40 and one envelope. *)
Lemma runAction_handler_returns_witness :
  (Cli.runAction (H := Host.runtime) "file-uploads create" Host.noOptions
     dryRun [] (Host.quiet 0 (fun _ _ => NetThrows (EValue JNull)))).1
  = Exit 40
  /\ length
       (stdout
          (Cli.runAction (H := Host.runtime) "file-uploads create"
             Host.noOptions dryRun []
             (Host.quiet 0 (fun _ _ => NetThrows (EValue JNull)))).2) = 1.
Proof.
  erewrite (runAction_handler_returns (rt := Host.runtime)
              "file-uploads create" Host.noOptions dryRun []
              (Host.quiet 0 (fun _ _ => NetThrows (EValue JNull))));
    [ | intros [=] | reflexivity | reflexivity | reflexivity ].
  split; reflexivity.
Defined.



(** A handler that fails with a [TypeError]. *)
Lemma runAction_handler_throws_witness :
  exists w',
    Cli.runAction (H := Host.runtime) (T := Json) "pages get" Host.noOptions
      (fun _ => throw (EError "TypeError" "x is not iterable")) []
      (Host.quiet 0 (fun _ _ => NetThrows (EValue JNull)))
    = (Exit 125, w').
Proof.
  edestruct (runAction_handler_throws (rt := Host.runtime) (T := Json)
               "pages get" Host.noOptions
               (fun _ => throw (EError "TypeError" "x is not iterable")) []
               (Host.quiet 0 (fun _ _ => NetThrows (EValue JNull))))
    as ((w' & _ & _ & _ & Hrun & _) & _).
  - intros [=].
  - reflexivity.
  - reflexivity.
  - exact I.
  - reflexivity.
  - exists w'. exact Hrun.
Defined.

(** A dry run whose envelope cannot be written to the output file. *)
Lemma runAction_output_file_unwritable_witness :
  (Cli.main
     (Cli.runAction (H := Host.runtime) "file-uploads create"
        outputFileOptions dryRun []) readOnlyDisk).1 = Exit 125
  /\ length
       (stdout
          (Cli.runAction (H := Host.runtime) "file-uploads create"
             outputFileOptions dryRun [] readOnlyDisk).2) = 2.
Proof.
  edestruct (runAction_output_file_unwritable (rt := Host.runtime)
               "file-uploads create" outputFileOptions dryRun [] readOnlyDisk)
    as (w' & d & body & md & p & p' & Hrun & Hout & _ & _ & Hmain).
  - intros [=].
  - reflexivity.
  - reflexivity.
  - reflexivity.
  - reflexivity.
  - intros [=].
  - reflexivity.
  - exact I.
  - split; [exact Hmain|]. rewrite Hrun. simpl. rewrite Hout. reflexivity.
Defined.

(** ** The registry: appends, updates and what they lose *)

Section RegistryWrites.

Import Registry.
Context `{rt : Runtime}.
#[local] Open Scope Z_scope.

(** The receipts that a write at time [now] keeps. *)
Definition kept (now : Z) (ops : list OperationReceipt) : list OperationReceipt :=
  List.filter (fresh (now - Constants.RETENTION_DAYS * MILLIS_PER_DAY)) ops.

(** The receipts of the registry file, none when there is no file. *)
Definition stored (w : World) : option (list OperationReceipt) :=
  match opsFile w with
  | OpsMissing => Some []
  | OpsLines ops => Some ops
  | OpsUnreadable _ => None
  end.

Lemma readOps_stored w ops :
  stored w = Some ops -> readOps w = (Ok ops, w).
Proof.
  unfold stored, readOps. destruct (opsFile w); intros; by simplify_eq.
Qed.

Lemma appendOp_spec op w ops :
  stored w = Some ops ->
  writeFails w OPS_PATH = None ->
  exists w',
    appendOp op w = (Ok tt, w')
    /\ opsFile w' = OpsLines (kept (clock w (clockReads w)) ops ++ [op])
    /\ writeFails w' = writeFails w
    /\ clock w' = clock w /\ clockReads w' = S (clockReads w)
    /\ netLog w' = netLog w /\ slept w' = slept w /\ stdout w' = stdout w.
Proof.
  intros Hs Hw. unfold appendOp, bind. rewrite (readOps_stored _ _ Hs).
  rewrite cleanupOps_spec. unfold writeOps. simpl. rewrite Hw.
  eexists. split; [reflexivity|]. done.
Qed.

Lemma updateOp_spec op w ops :
  stored w = Some ops ->
  writeFails w OPS_PATH = None ->
  exists w',
    updateOp op w = (Ok tt, w')
    /\ opsFile w'
       = OpsLines
           (List.map
              (fun existing =>
                 if String.eqb (op_id existing) (op_id op) then op else existing)
              (kept (clock w (clockReads w)) ops))
    /\ writeFails w' = writeFails w
    /\ clock w' = clock w /\ clockReads w' = S (clockReads w)
    /\ netLog w' = netLog w /\ slept w' = slept w /\ stdout w' = stdout w.
Proof.
  intros Hs Hw. unfold updateOp, bind. rewrite (readOps_stored _ _ Hs).
  rewrite cleanupOps_spec. unfold writeOps. simpl. rewrite Hw.
  eexists. split; [reflexivity|]. done.
Qed.

(** X17: an append followed by a read. When the registry can be read and
    written, the read returns the appended receipt as its last element,
    whatever its age, after the receipts that were in the file and are not
    older than 30 days, in their order; no receipt is merged or replaced,
    so a receipt with an identifier that is already present is added next
    to it. *)
Theorem appendOp_then_readOps (op : OperationReceipt) (w : World)
    (ops : list OperationReceipt) :
  stored w = Some ops ->
  writeFails w OPS_PATH = None ->
  exists ops',
    (readOps (appendOp op w).2).1 = Ok ops'
    /\ last ops' = Some op
    /\ (forall r, r ∈ ops' <->
          r = op
          \/ (r ∈ ops
              /\ fresh (clock w (clockReads w)
                        - Constants.RETENTION_DAYS * MILLIS_PER_DAY) r = true))
    /\ length ops' = S (length (kept (clock w (clockReads w)) ops))
    /\ ops' = kept (clock w (clockReads w)) ops ++ [op].
Proof.
  intros Hs Hw.
  destruct (appendOp_spec op w ops Hs Hw) as (w' & -> & Hfile & _).
  exists (kept (clock w (clockReads w)) ops ++ [op]). simpl.
  split; [|split; [|split; [|split]]].
  - unfold readOps. by rewrite Hfile.
  - by rewrite last_snoc.
  - intros r. rewrite elem_of_app, list_elem_of_singleton. unfold kept.
    rewrite list_elem_of_In, filter_In, <- list_elem_of_In. tauto.
  - rewrite length_app. simpl. lia.
  - reflexivity.
Qed.

(** X18: an update replaces in place and never adds. The file after
    [updateOp op] has one receipt for each receipt of the file that is not
    older than 30 days: [op] where the identifier is that of [op], the
    receipt itself elsewhere; so every receipt with that identifier is
    [op] afterwards, duplicates included. When no such receipt has the
    identifier of [op], be it that the identifier is unknown or that its
    receipt has expired, the update is lost without an error: no receipt of
    the file has that identifier afterwards. *)
Theorem updateOp_never_adds (op : OperationReceipt) (w : World)
    (ops : list OperationReceipt) :
  stored w = Some ops ->
  writeFails w OPS_PATH = None ->
  exists ops',
    updateOp op w = (Ok tt, (updateOp op w).2)
    /\ opsFile (updateOp op w).2 = OpsLines ops'
    /\ length ops' = length (kept (clock w (clockReads w)) ops)
    /\ (forall i r, kept (clock w (clockReads w)) ops !! i = Some r ->
          ops' !! i = Some (if String.eqb (op_id r) (op_id op) then op else r))
    /\ (forall r, r ∈ ops' -> op_id r = op_id op -> r = op)
    /\ ((forall r, r ∈ kept (clock w (clockReads w)) ops -> op_id r <> op_id op) ->
        ops' = kept (clock w (clockReads w)) ops
        /\ forall r, r ∈ ops' -> op_id r <> op_id op).
Proof.
  intros Hs Hw.
  destruct (updateOp_spec op w ops Hs Hw) as (w' & Hrun & Hfile & _).
  rewrite Hrun. simpl. eexists. split; [reflexivity|]. split; [exact Hfile|].
  split; [by rewrite length_map|]. split; [|split].
  - intros i r Hi. rewrite list_lookup_fmap_Some. exists r. done.
  - intros r Hin Hid. apply list_elem_of_In, in_map_iff in Hin as (x & Hx & _).
    destruct (String.eqb (op_id x) (op_id op)) eqn:Heq; [done|].
    subst x. by apply String.eqb_neq in Heq.
  - intros Hnone.
    assert (List.map
              (fun existing =>
                 if String.eqb (op_id existing) (op_id op) then op else existing)
              (kept (clock w (clockReads w)) ops)
            = kept (clock w (clockReads w)) ops) as ->.
    { revert Hnone. generalize (kept (clock w (clockReads w)) ops).
      intros l. induction l as [|x l IH]; intros Hnone; [done|].
      simpl. rewrite IH.
      - assert (op_id x <> op_id op) as Hx by (apply Hnone; left).
        by apply String.eqb_neq in Hx as ->.
      - intros r Hr. apply Hnone. by right. }
    split; [done | exact Hnone].
Qed.

(** X19: a receipt whose [updated_at] is no date is dropped by the next
    write: its time is [NaN], which is not at or after any cutoff. *)
Theorem unparseable_receipt_pruned (w : World) (ops : list OperationReceipt)
    (r op : OperationReceipt) :
  stored w = Some ops ->
  writeFails w OPS_PATH = None ->
  dateGetTime (updated_at r) = None ->
  r <> op ->
  (exists ops', opsFile (appendOp op w).2 = OpsLines ops' /\ r ∉ ops')
  /\ (exists ops', opsFile (updateOp op w).2 = OpsLines ops' /\ r ∉ ops').
Proof.
  intros Hs Hw Hnan Hne.
  assert (r ∉ kept (clock w (clockReads w)) ops) as Hout.
  { unfold kept. rewrite list_elem_of_In, filter_In. intros [_ Hf].
    unfold fresh in Hf. by rewrite Hnan in Hf. }
  split.
  - destruct (appendOp_spec op w ops Hs Hw) as (w' & -> & Hfile & _).
    eexists. split; [exact Hfile|].
    rewrite elem_of_app, list_elem_of_singleton. tauto.
  - destruct (updateOp_spec op w ops Hs Hw) as (w' & -> & Hfile & _).
    eexists. split; [exact Hfile|].
    rewrite list_elem_of_In, in_map_iff. intros (x & Hx & Hin).
    destruct (String.eqb (op_id x) (op_id op)); [done|]. subst x.
    by apply list_elem_of_In in Hin.
Qed.


End RegistryWrites.

(** Two appends of receipts with one identifier: both are in the file. *)
Lemma appendOp_then_readOps_witness :
  (Registry.readOps
     (Registry.appendOp (H := Host.runtime) Host.newReceipt
        (Host.withOps [Host.newReceipt; Host.oldReceipt]
           (Host.quiet 1762128000000 (fun _ _ => NetThrows (EValue JNull))))).2).1
  = Ok [Host.newReceipt; Host.newReceipt].
Proof.
  destruct (appendOp_then_readOps (rt := Host.runtime) Host.newReceipt
              (Host.withOps [Host.newReceipt; Host.oldReceipt]
                 (Host.quiet 1762128000000 (fun _ _ => NetThrows (EValue JNull))))
              [Host.newReceipt; Host.oldReceipt])
    as (ops' & Hread & _ & _ & _ & ->).
  - reflexivity.
  - reflexivity.
  - exact Hread.
Defined.

(** The receipt of 2024 has expired in November 2025: an update of it,
    with a new date, leaves a file without it. *)
Definition revived : OperationReceipt :=
  {| op_id := "op-old"; type := "upload"; status := COMPLETED;
     resource_id := None; resource_type := None;
     created_at := "2024-01-01T00:00:00.000Z";
     updated_at := "2025-11-03T00:00:00.000Z";
     metadata := Some ∅; poll := None; error := None |}.

Lemma updateOp_never_adds_witness :
  opsFile
    (Registry.updateOp (H := Host.runtime) revived
       (Host.withOps [Host.oldReceipt; Host.newReceipt]
          (Host.quiet 1762128000000 (fun _ _ => NetThrows (EValue JNull))))).2
  = OpsLines [Host.newReceipt].
Proof.
  destruct (updateOp_never_adds (rt := Host.runtime) revived
              (Host.withOps [Host.oldReceipt; Host.newReceipt]
                 (Host.quiet 1762128000000 (fun _ _ => NetThrows (EValue JNull))))
              [Host.oldReceipt; Host.newReceipt])
    as (ops' & _ & Hfile & _ & _ & _ & Hlost).
  - reflexivity.
  - reflexivity.
  - rewrite Hfile. f_equal. apply Hlost.
    intros r Hr. vm_compute in Hr.
    apply list_elem_of_singleton in Hr as ->. intros [=].
Defined.

(** A receipt whose date is the word never. *)
Definition undated : OperationReceipt :=
  {| op_id := "op-undated"; type := "upload"; status := PENDING;
     resource_id := None; resource_type := None;
     created_at := "never"; updated_at := "never";
     metadata := Some ∅; poll := None; error := None |}.

Lemma unparseable_receipt_pruned_witness :
  exists ops',
    opsFile
      (Registry.appendOp (H := Host.runtime) Host.newReceipt
         (Host.withOps [undated]
            (Host.quiet 1762128000000 (fun _ _ => NetThrows (EValue JNull))))).2
    = OpsLines ops'
    /\ undated ∉ ops'.
Proof.
  apply (unparseable_receipt_pruned (rt := Host.runtime)
           (Host.withOps [undated]
              (Host.quiet 1762128000000 (fun _ _ => NetThrows (EValue JNull))))
           [undated] undated Host.newReceipt).
  - reflexivity.
  - reflexivity.
  - reflexivity.
  - intros [=].
Defined.


(** ** The [ops get] and [ops wait] commands *)

Section OpsCommands.

Import Registry OpsCommand Http.
Context `{rt : Runtime}.
#[local] Open Scope Z_scope.

(** The handler of [ops get [op_id] --id <id>] ([src/commands/ops.ts]). *)
Definition opsGet (opId optsId : option string) (_ : Context)
    : M (ActionResult OperationReceipt) :=
  let id := Cli.parseId opId optsId in
  if String.eqb id "" then
    throwCli (newCliError MISSING_ARGUMENT "Op id is required"
      (Some {| opt_recoverable := Some true;
               opt_suggestedAction := Some "Provide <op_id> or --id";
               opt_context := None |}))
  else
    do opsList <- readOps;
    match List.find (fun item => String.eqb (op_id item) id) opsList with
    | None => throwCli (opNotFound id)
    | Some found => ret {| data := found; exitCode := None |}
    end.

(** X21: [ops get] only reads. Whatever the registry holds, the world
    after the command is the world before it: nothing is pruned, nothing is
    sent. It returns the first receipt of the file that has the
    identifier, however old that receipt is; when there is none it fails
    with [RESOURCE_NOT_FOUND] (exit code 4), and without an identifier it
    fails with [MISSING_ARGUMENT] (exit code 2) before the registry is
    read. The identifier given with [--id] wins over the positional one. *)
Theorem opsGet_read_only (opId optsId : option string) (ctx : Context)
    (w : World) :
  (opsGet opId optsId ctx w).2 = w
  /\ (forall ops found,
        stored w = Some ops ->
        Cli.parseId opId optsId <> "" ->
        List.find (fun item => String.eqb (op_id item) (Cli.parseId opId optsId)) ops
          = Some found ->
        (opsGet opId optsId ctx w).1 = Ok {| data := found; exitCode := None |})
  /\ (forall ops,
        stored w = Some ops ->
        Cli.parseId opId optsId <> "" ->
        (forall r, r ∈ ops -> op_id r <> Cli.parseId opId optsId) ->
        (opsGet opId optsId ctx w).1
          = Throw (ECli (opNotFound (Cli.parseId opId optsId)))
        /\ EXIT_CODES (OfCode (code (opNotFound (Cli.parseId opId optsId)))) = 4)
  /\ (Cli.parseId opId optsId = "" ->
      exists c, (opsGet opId optsId ctx w).1 = Throw (ECli c)
                /\ code c = MISSING_ARGUMENT
                /\ EXIT_CODES (OfCode (code c)) = 2)
  /\ (forall flag, optsId = Some flag -> Cli.parseId opId optsId = flag).
Proof.
  split; [|split; [|split; [|split]]].
  - unfold opsGet, bind, readOps, throwCli, throw, ret.
    repeat case_match; simplify_eq/=; done.
  - intros ops found Hs Hid Hfind. unfold opsGet, bind.
    apply String.eqb_neq in Hid as ->. rewrite (readOps_stored _ _ Hs).
    by rewrite Hfind.
  - intros ops Hs Hid Hnone. split; [|reflexivity]. unfold opsGet, bind.
    apply String.eqb_neq in Hid as ->. rewrite (readOps_stored _ _ Hs).
    destruct (List.find _ ops) as [found|] eqn:Hfind; [|done].
    apply find_some in Hfind as [Hin Heq].
    apply String.eqb_eq in Heq. by apply list_elem_of_In, Hnone in Hin.
  - intros Hid. unfold opsGet. rewrite Hid. simpl.
    eexists. split; [reflexivity|]. done.
  - by intros flag ->.
Qed.

(** The request that [ops wait] sends to poll a receipt. *)
Definition pollOptions (ctx : Context) (p : Poll) : RequestOptions :=
  {| method := poll_method p;
     path := units (poll_path p);
     query := None;
     body := None;
     token := cfg_token (ctx_config ctx);
     notionVersion := cfg_notionVersion (ctx_config ctx);
     timeoutMs := cfg_timeoutMs (ctx_config ctx);
     retries := cfg_retries (ctx_config ctx);
     idempotencyKey := None;
     contentType := None;
     extraHeaders := None |}.

Lemma request_afterNet options w r w' :
  request options w = (r, w') ->
  exists calls delays, w' = afterNet calls delays w.
Proof.
  unfold request, bind.
  destruct (validatePath (path options) w) as [r0 w0] eqn:Hv.
  apply validatePath_frame in Hv as (-> & [-> | [e ->]]); simpl; intros Hrun.
  - apply requestLoop_afterNet in Hrun as (n & delays & ->). eauto.
  - simplify_eq. exists [], []. by rewrite afterNet_nil.
Qed.

(** The timeout error of [ops wait]. *)
Definition waitTimedOut (id : string) : CliError :=
  newCliError TIMEOUT "Op wait timed out"
    (Some {| opt_recoverable := Some true;
             opt_suggestedAction := Some "Increase --timeout";
             opt_context := Some [("op_id", CJson (JStr id))] |}).

(** X22: [ops wait] with a timeout of zero seconds, or less, on a clock
    that does not go back between its first two readings: the command
    fails with [TIMEOUT] (exit code 20) without reading the registry, also
    when the receipt has long been completed. *)
Theorem opsWait_zero_timeout (fuel : nat) (opId optsId : option string)
    (timeout : Z) (ctx : Context) (w : World) :
  Cli.parseId opId optsId <> "" ->
  timeout <= 0 ->
  clock w (clockReads w) <= clock w (S (clockReads w)) ->
  opsWait (S fuel) opId optsId timeout ctx w
  = (Throw (ECli (waitTimedOut (Cli.parseId opId optsId))),
     (dateNow (dateNow w).2).2)
  /\ EXIT_CODES (OfCode (code (waitTimedOut (Cli.parseId opId optsId)))) = 20
  /\ opsFile (dateNow (dateNow w).2).2 = opsFile w
  /\ netLog (dateNow (dateNow w).2).2 = netLog w.
Proof.
  intros Hid Htimeout Hclock. split; [|done].
  unfold opsWait. apply String.eqb_neq in Hid as ->.
  unfold bind at 1. simpl. unfold bind at 1. simpl.
  assert ((clock w (S (clockReads w)) <? clock w (clockReads w) + timeout * 1000)
          = false) as -> by lia.
  reflexivity.
Qed.

(** The world after [n] more readings of the clock and [n] waits of two
    seconds. *)
Definition afterRounds (reads n : nat) (w : World) : World :=
  mkWorld (clock w) (clockReads w + reads) (upstream w) (netLog w)
    (slept w ++ replicate n (Millis 2000)) (opsFile w) (configFile w)
    (writeFails w) (written w) (env w) (stdin w) (stdout w) (stderr w).

(** X23: waiting for a receipt that is not terminal and has no poll
    target. Each round reads the clock and the registry and sleeps two
    seconds; nothing is sent and nothing is written. When the clock stays
    below the deadline for [n] readings and has reached it at the next one,
    the loop makes exactly [n] rounds and then fails with [TIMEOUT]. *)
Theorem waitLoop_without_poll (n : nat) :
  forall (fuel : nat) (ctx : Context) (id : string) (deadline : Z) (w : World)
    (ops : list OperationReceipt) (found : OperationReceipt),
  stored w = Some ops ->
  List.find (fun item => String.eqb (op_id item) id) ops = Some found ->
  isTerminal (status found) = false ->
  poll found = None ->
  (forall i, (i < n)%nat -> clock w (clockReads w + i) < deadline) ->
  deadline <= clock w (clockReads w + n) ->
  (n < fuel)%nat ->
  waitLoop fuel ctx id deadline w
  = (Throw (ECli (waitTimedOut id)), afterRounds (S n) n w).
Proof.
  induction n as [|n IH];
    intros fuel ctx id deadline w ops found Hs Hfind Hterm Hpoll Hlt Hge Hfuel;
    (destruct fuel as [|fuel]; [lia|]).
  - simpl. unfold bind at 1. simpl. rewrite Nat.add_0_r in Hge.
    assert ((clock w (clockReads w) <? deadline) = false) as -> by lia.
    unfold throwCli, throw, afterRounds. simpl.
    by rewrite app_nil_r, Nat.add_1_r.
  - simpl. unfold bind at 1. simpl.
    pose proof (Hlt 0%nat ltac:(lia)) as H0. rewrite Nat.add_0_r in H0.
    assert ((clock w (clockReads w) <? deadline) = true) as -> by lia.
    unfold bind at 1.
    rewrite (readOps_stored _ ops) by exact Hs.
    rewrite Hfind, Hterm. unfold bind at 1. unfold pollOnce. rewrite Hpoll.
    unfold ret at 1. unfold bind at 1, sleep, modify.
    erewrite (IH fuel ctx id deadline _ ops found); [| done | done | done | done | | | lia].
    + unfold afterRounds. simpl. f_equal. f_equal; [lia|].
      by rewrite <- app_assoc.
    + intros i Hi. simpl.
      replace (S (clockReads w + i))%nat with (clockReads w + S i)%nat by lia.
      apply Hlt. lia.
    + simpl.
      by replace (S (clockReads w + n))%nat with (clockReads w + S n)%nat by lia.
Qed.


Lemma stored_afterNet calls delays w : stored (afterNet calls delays w) = stored w.
Proof. reflexivity. Qed.


(** The first receipt with the identifier, if the registry has one, is
    not terminal. *)
Definition pending (id : string) (w : World) : Prop :=
  forall ops found,
    stored w = Some ops ->
    List.find (fun item => String.eqb (op_id item) id) ops = Some found ->
    isTerminal (status found) = false.

Lemma pending_frame id w w' :
  opsFile w' = opsFile w -> pending id w -> pending id w'.
Proof.
  intros Hfile Hp ops found Hs. apply Hp. unfold stored in *. by rewrite <- Hfile.
Qed.

(** What an update does to the file: nothing when it fails, and else the
    replacement among the receipts that are kept. *)
Lemma updateOp_file op w r w' :
  updateOp op w = (r, w') ->
  opsFile w' = opsFile w
  \/ exists ops,
       stored w = Some ops
       /\ opsFile w'
          = OpsLines
              (List.map
                 (fun existing =>
                    if String.eqb (op_id existing) (op_id op) then op else existing)
                 (kept (clock w (clockReads w)) ops)).
Proof.
  intros Hrun. destruct (stored w) as [ops|] eqn:Hs.
  - destruct (writeFails w OPS_PATH) as [e|] eqn:Hw.
    + left. unfold updateOp, bind in Hrun. rewrite (readOps_stored _ _ Hs) in Hrun.
      rewrite cleanupOps_spec in Hrun. unfold writeOps in Hrun. simpl in Hrun.
      rewrite Hw in Hrun. by simplify_eq.
    + right. destruct (updateOp_spec op w ops Hs Hw) as (w1 & Hupd & Hfile & _).
      rewrite Hupd in Hrun. simplify_eq. by exists ops.
  - left. unfold updateOp, bind, readOps in Hrun. unfold stored in Hs.
    destruct (opsFile w) eqn:Hf; by simplify_eq.
Qed.

(** An update with a receipt that has the identifier and is not terminal
    keeps the invariant. *)
Lemma pending_updateOp id op w r w' :
  op_id op = id ->
  isTerminal (status op) = false ->
  pending id w ->
  updateOp op w = (r, w') ->
  pending id w'.
Proof.
  intros Hid Hop Hp Hrun.
  destruct (updateOp_file _ _ _ _ Hrun) as [Hfile | (ops & Hs & Hfile)].
  - by eapply pending_frame.
  - intros ops' found Hs' Hfind. unfold stored in Hs'. rewrite Hfile in Hs'.
    simplify_eq. apply find_some in Hfind as [Hin Heq].
    apply String.eqb_eq in Heq. apply in_map_iff in Hin as (x & Hx & _).
    destruct (String.eqb (op_id x) (op_id op)) eqn:Hxo; [by subst found|].
    subst x. apply String.eqb_neq in Hxo. congruence.
Qed.

(** One poll of a receipt that is not terminal: the invariant is kept when
    the loop goes on, and a receipt that is returned is marked as failed. *)
Lemma pollOnce_pending ctx found id w r w' :
  op_id found = id ->
  isTerminal (status found) = false ->
  pending id w ->
  pollOnce ctx found w = (r, w') ->
  match r with
  | Ok None => pending id w'
  | Ok (Some failed) =>
      status failed = FAILED
      /\ exists m, error failed = Some {| err_code := "POLL_FAILED"; err_message := m |}
  | _ => True
  end.
Proof.
  intros Hid Hterm Hp. unfold pollOnce.
  destruct (poll found) as [p|]; [|unfold ret; intros; by simplify_eq].
  fold (pollOptions ctx p). unfold tryCatch, bind at 1.
  destruct (request (pollOptions ctx p) w) as [rr wr] eqn:Hreq.
  destruct (request_afterNet _ _ _ _ Hreq) as (calls & delays & ->).
  assert (pending id (afterNet calls delays w)) as Hp1
    by (by eapply pending_frame).
  assert (forall e w0 r0 w0',
            (do failed <- touchOp found
               (mkPatch None None (Some FAILED) None None None None None None
                  (Some (Some {| err_code := "POLL_FAILED";
                                 err_message :=
                                   if instanceofError e
                                   then exnMessage e
                                   else "Poll failed" |})));
             updateOp failed ;;
             ret (Some failed)) w0 = (r0, w0') ->
            match r0 with
            | Ok None => pending id w0'
            | Ok (Some failed) =>
                status failed = FAILED
                /\ exists m, error failed
                             = Some {| err_code := "POLL_FAILED"; err_message := m |}
            | _ => True
            end) as Hcatch.
  { intros e w0 r0 w0'. unfold bind at 1, touchOp, bind at 1, nowIso, bind at 1.
    unfold dateNow at 1. unfold ret at 1. unfold ret at 1. unfold bind at 1.
    match goal with |- context [updateOp ?f ?x] =>
      destruct (updateOp f x) as [[[]| | |] wu]
    end; unfold ret; intros; simplify_eq; eauto. }
  destruct rr as [response| e | c |].
  - unfold bind at 1, touchOp, bind at 1, nowIso, bind at 1.
    unfold dateNow at 1. unfold ret at 1. unfold ret at 1. unfold bind at 1.
    match goal with |- context [updateOp ?f ?x] =>
      destruct (updateOp f x) as [ru wu] eqn:Hupd
    end.
    apply (pending_updateOp id) in Hupd; [|done|done|by eapply pending_frame].
    destruct ru as [[]| e | c |]; unfold ret; intros Hrun.
    + by simplify_eq.
    + by apply Hcatch in Hrun.
    + by simplify_eq.
    + by simplify_eq.
  - intros Hrun. by apply Hcatch in Hrun.
  - intros; by simplify_eq.
  - intros; by simplify_eq.
Qed.

(** X25: [ops wait] never completes an operation. When the receipt that
    the loop finds is not terminal, and for as long as nothing else
    rewrites the registry, a poll that succeeds only records the response
    in the metadata and leaves the status alone; so whenever the loop
    returns a receipt, that receipt is one it has itself marked [FAILED]
    after a poll that failed. Every other run ends in an error, the timeout
    among them. *)
Theorem waitLoop_never_completes (fuel : nat) (ctx : Context) (id : string)
    (deadline : Z) :
  forall (w w' : World) (res : ActionResult OperationReceipt),
  pending id w ->
  waitLoop fuel ctx id deadline w = (Ok res, w') ->
  status (data res) = FAILED
  /\ exists m, error (data res)
               = Some {| err_code := "POLL_FAILED"; err_message := m |}.
Proof.
  induction fuel as [|fuel IH]; intros w w' res Hp Hrun; [done|].
  simpl in Hrun. unfold bind at 1 in Hrun. simpl in Hrun.
  destruct (clock w (clockReads w) <? deadline); [|done].
  unfold bind at 1 in Hrun.
  match type of Hrun with context [readOps ?x] =>
    set (w1 := x) in *;
    assert (pending id w1) as Hp1 by (by eapply pending_frame);
    destruct (stored w1) as [ops|] eqn:Hs
  end.
  - rewrite (readOps_stored _ _ Hs) in Hrun.
    destruct (List.find _ ops) as [found|] eqn:Hfind; [|done].
    rewrite (Hp1 _ _ Hs Hfind) in Hrun.
    pose proof (find_some _ _ Hfind) as [_ Hid]. apply String.eqb_eq in Hid.
    unfold bind at 1 in Hrun.
    destruct (pollOnce ctx found w1) as [r1 w2] eqn:Hpoll.
    apply (pollOnce_pending ctx found id) in Hpoll;
      [|done|by apply (Hp1 _ _ Hs Hfind)|done].
    destruct r1 as [[failed|]| | |]; try done.
    + unfold ret in Hrun. by simplify_eq.
    + unfold bind at 1, sleep, modify in Hrun.
      eapply IH; [|exact Hrun]. by eapply pending_frame.
  - unfold readOps in Hrun. unfold stored in Hs.
    destruct (opsFile w1); by simplify_eq.
Qed.

End OpsCommands.

(** Scenarios for the [ops] commands. *)

(** A receipt in progress that can be polled. *)
Definition pollable : OperationReceipt :=
  {| op_id := "op-send"; type := "file_upload_send"; status := IN_PROGRESS;
     resource_id := Some "file-1"; resource_type := Some "file_upload";
     created_at := "2025-11-02T00:00:00.000Z";
     updated_at := "2025-11-02T00:00:00.000Z";
     metadata := Some ∅;
     poll := Some {| poll_method := "GET"; poll_path := "/file_uploads/file-1" |};
     error := None |}.

(** A world whose clock advances by one second at each reading, with the
    registry holding [ops]. *)
Definition ticking (ops : list OperationReceipt) : World :=
  {| clock := fun k => (1000 * Z.of_nat k)%Z; clockReads := 0;
     upstream := fun _ _ => NetThrows (EValue JNull); netLog := [];
     slept := [];
     opsFile := OpsLines ops; configFile := CfgMissing;
     writeFails := fun _ => None; written := [];
     env := ∅; stdin := ""; stdout := []; stderr := [] |}.

(** An upstream that does not know the resource. *)
Definition notFound (_ : nat) (_ : FetchCall) : NetOutcome :=
  NetResponse 404 (TextJson (JObj [("message", JStr "not found")])) [].

(** A completed receipt, waited for with no time at all. *)
Lemma opsWait_zero_timeout_witness :
  (OpsCommand.opsWait (H := Host.runtime) 1 (Some "op-done") None 0
     Host.context
     (Host.withOps [Host.doneReceipt]
        (Host.quiet 0 (fun _ _ => NetThrows (EValue JNull))))).1
  = Throw (ECli (waitTimedOut "op-done")).
Proof.
  destruct (opsWait_zero_timeout (rt := Host.runtime) 0 (Some "op-done") None 0
              Host.context
              (Host.withOps [Host.doneReceipt]
                 (Host.quiet 0 (fun _ _ => NetThrows (EValue JNull)))))
    as (Hrun & _).
  - discriminate.
  - lia.
  - simpl. lia.
  - by rewrite Hrun.
Defined.

(** Two and a half seconds of waiting on a clock that ticks once a second
    at each reading: three rounds, then the timeout. *)
Lemma waitLoop_without_poll_witness :
  (OpsCommand.waitLoop (H := Host.runtime) 4 Host.context "op-old" 2500
     (ticking [Host.oldReceipt])).1
  = Throw (ECli (waitTimedOut "op-old"))
  /\ slept (OpsCommand.waitLoop (H := Host.runtime) 4 Host.context "op-old" 2500
              (ticking [Host.oldReceipt])).2
     = [Millis 2000; Millis 2000; Millis 2000].
Proof.
  rewrite (waitLoop_without_poll (rt := Host.runtime) 3 4 Host.context "op-old"
             2500 (ticking [Host.oldReceipt]) [Host.oldReceipt] Host.oldReceipt).
  - split; reflexivity.
  - reflexivity.
  - reflexivity.
  - reflexivity.
  - reflexivity.
  - intros i Hi. simpl. lia.
  - simpl. lia.
  - lia.
Defined.


Lemma waitLoop_never_completes_witness :
  exists res w',
    OpsCommand.waitLoop (H := Host.runtime) 3 Host.context "op-send" 60000
      (Host.withOps [pollable] (Host.quiet 0 notFound))
    = (Ok res, w')
    /\ status (data res) = FAILED.
Proof.
  destruct (OpsCommand.waitLoop (H := Host.runtime) 3 Host.context "op-send"
              60000 (Host.withOps [pollable] (Host.quiet 0 notFound)))
    as [[res| e | c |] w'] eqn:Hrun.
  - exists res, w'. split; [reflexivity|].
    eapply (waitLoop_never_completes (rt := Host.runtime) 3 Host.context
              "op-send" 60000
              (Host.withOps [pollable] (Host.quiet 0 notFound)) w' res);
      [|exact Hrun].
    intros ops found Hs Hfind. vm_compute in Hs. simplify_eq.
    vm_compute in Hfind. by simplify_eq.
  - vm_compute in Hrun. discriminate.
  - vm_compute in Hrun. discriminate.
  - vm_compute in Hrun. discriminate.
Defined.

(** ** Configuration: where the token comes from *)

Section ConfigSources.

Import Config Cli.
Context `{rt : Runtime}.
#[local] Open Scope Z_scope.

(** The world with the environment [e]. *)
Definition withEnv (e : gmap string string) (w : World) : World :=
  mkWorld (clock w) (clockReads w) (upstream w) (netLog w) (slept w)
    (opsFile w) (configFile w) (writeFails w) (written w) e (stdin w)
    (stdout w) (stderr w).

Lemma loadConfigFile_env w :
  loadable (configFile w) ->
  exists c w',
    loadConfigFile w = (Ok c, w')
    /\ env w' = env w /\ stdin w' = stdin w
    /\ forall e, loadConfigFile (withEnv e w) = (Ok c, withEnv e w').
Proof.
  intros Hcfg. unfold loadConfigFile, bind, gets.
  destruct (configFile w) as [| e | o [| c | msg]] eqn:Hfile; try done.
  all: simpl; rewrite ?Hfile.
  all: try destruct o; simpl; eexists _, _; (split; [reflexivity|]); simpl; done.
Qed.

(** X26: the sources of the token, in order. The [--token] flag wins
    over everything; without it, the trimmed standard input is the token
    when [--token-stdin] is given and the input is not blank; without
    either, the variable NOTION_TOKEN is the token whenever it is set. The
    standard input is spent exactly when [--token-stdin] is given. *)
Theorem resolveContext_token_sources (command : string)
    (options : GlobalOptions) (w : World) :
  loadable (configFile w) ->
  exists ctx w',
    resolveContext command options w = (Ok ctx, w')
    /\ (forall t, o_token options = Some t ->
          cfg_token (ctx_config ctx) = Some t)
    /\ (o_token options = None ->
        o_tokenStdin options = Some true ->
        trim (stdin w) <> "" ->
        cfg_token (ctx_config ctx) = Some (trim (stdin w)))
    /\ (o_token options = None ->
        o_tokenStdin options <> Some true \/ trim (stdin w) = "" ->
        forall t, env w !! "NOTION_TOKEN" = Some t ->
        cfg_token (ctx_config ctx) = Some t)
    /\ stdin w' = (if default false (o_tokenStdin options) then "" else stdin w).
Proof.
  intros Hcfg. unfold resolveContext, bind at 1.
  destruct (default false (o_tokenStdin options)) eqn:Hstdin.
  - unfold bind at 1, readStdin, ret at 1. cbn [fst snd].
    unfold bind at 1, resolveConfig, bind at 1.
    match goal with |- context [loadConfigFile ?x] =>
      destruct (loadConfigFile_env x) as (c & w' & -> & Henv & Hin & _);
        [exact Hcfg|]
    end.
    unfold bind, gets, ret. cbn [fst snd]. eexists _, _.
    split; [reflexivity|]. cbn [ctx_config cfg_token co_token co_stdinToken].
    rewrite Henv, Hin. cbn [env stdin].
    split; [by intros t ->|]. split; [|split; [|done]].
    + intros -> _ Hne. apply String.eqb_neq in Hne as ->. done.
    + intros -> [Hno | Hblank] t Ht.
      * destruct (o_tokenStdin options) as [[|]|]; done.
      * rewrite Hblank. simpl. by rewrite Ht.
  - unfold ret at 1. unfold bind at 1, resolveConfig, bind at 1.
    destruct (loadConfigFile_env w) as (c & w' & -> & Henv & Hin & _);
      [exact Hcfg|].
    unfold bind, gets, ret. cbn [fst snd]. eexists _, _.
    split; [reflexivity|]. cbn [ctx_config cfg_token co_token co_stdinToken].
    rewrite Henv.
    split; [by intros t ->|]. split; [|split; [|done]].
    + intros _ Hs. rewrite Hs in Hstdin. done.
    + intros -> _ t Ht. simpl. by rewrite Ht.
Qed.

(** X27: a variable of the environment that is set to the empty string.
    For the timeout, the retries and the pretty flag it counts as unset:
    the resolved configuration is that of the environment without it. For
    the token it does not: without flag and standard input the resolved
    token is the empty string, whatever the profile holds, and
    [requireToken] fails with [AUTH_FAILED] (exit code 10). *)
Theorem resolveConfig_empty_variable (options : ConfigOptions) (w : World) :
  loadable (configFile w) ->
  (forall name,
     name = "NOTION_TIMEOUT" \/ name = "NOTION_RETRIES" \/ name = "NOTION_PRETTY" ->
     env w !! name = Some "" ->
     (resolveConfig options w).1
     = (resolveConfig options (withEnv (delete name (env w)) w)).1)
  /\ (co_token options = None ->
      co_stdinToken options = None ->
      env w !! "NOTION_TOKEN" = Some "" ->
      exists cfg w' c,
        resolveConfig options w = (Ok cfg, w')
        /\ cfg_token cfg = Some ""
        /\ requireToken cfg w' = (Throw (ECli c), w')
        /\ code c = AUTH_FAILED
        /\ EXIT_CODES (OfCode (code c)) = 10).
Proof.
  intros Hcfg.
  destruct (loadConfigFile_env w Hcfg) as (c & w' & Hload & Henv & _ & Hload').
  split.
  - intros name Hname Hempty. unfold resolveConfig, bind.
    rewrite Hload, Hload'. unfold gets, ret. cbn [fst snd].
    rewrite Henv. cbn [env withEnv]. unfold envVar.
    destruct Hname as [-> | [-> | ->]]; rewrite Hempty; simpl;
      rewrite lookup_delete_eq, ?lookup_delete_ne by done; reflexivity.
  - intros Htok Hin Hempty. unfold resolveConfig, bind at 1.
    rewrite Hload. unfold bind, gets, ret. eexists _, _, _.
    split; [reflexivity|]. cbn [cfg_token]. rewrite Htok, Hin, Henv, Hempty.
    split; [reflexivity|]. unfold requireToken. cbn [cfg_token truthyStr].
    simpl. done.
Qed.

End ConfigSources.

(** ** The keys of the [config] command ([src/commands/config.ts]) *)

Module ConfigCommand.

(** [ParsedKey]: a key of the root of the file, or a field of a profile. *)
Inductive ParsedKey :=
| RootKey (field : string)
| ProfileKey (profile : option string) (field : string).

Definition PROFILE_FIELDS : list string :=
  ["token"; "notion_version"; "timeout_ms"; "retries"; "pretty"].

Definition isProfileField (value : string) : bool :=
  existsb (String.eqb value) PROFILE_FIELDS.

(** The character [.] (code 46). *)
Definition dot : Ascii.ascii :=
  Ascii.Ascii false true true true false true false false.

(** [s.split(".")] *)
Fixpoint splitDot (s : string) : list string :=
  match s with
  | EmptyString => [EmptyString]
  | String c s' =>
      if Ascii.eqb c dot then EmptyString :: splitDot s'
      else match splitDot s' with
           | [] => [String c EmptyString]
           | part :: parts => String c part :: parts
           end
  end.

Definition keyShapeError : CliError :=
  newCliError INVALID_ARGUMENT "Config key must be profile.<name>.<field>"
    (Some {| opt_recoverable := Some true;
             opt_suggestedAction := Some "Use profile.<name>.token";
             opt_context := None |}).

Definition unknownFieldError (field : string) : CliError :=
  newCliError INVALID_ARGUMENT "Unknown profile config field"
    (Some {| opt_recoverable := Some true;
             opt_suggestedAction :=
               Some "Use token, notion_version, timeout_ms, retries, or pretty";
             opt_context := Some [("field", CJson (JStr field))] |}).

Definition unknownKeyError (key : string) : CliError :=
  newCliError INVALID_ARGUMENT "Unknown config key"
    (Some {| opt_recoverable := Some true;
             opt_suggestedAction :=
               Some "Use token, default-profile, or profile.<name>.<token|notion_version|timeout_ms|retries|pretty>";
             opt_context := Some [("key", CJson (JStr key))] |}).

(** [parseKey]: the error thrown, or the parsed key. *)
Definition parseKey (key : string) : CliError + ParsedKey :=
  if String.eqb key "token" then inr (ProfileKey (Some "default") "token")
  else if String.eqb key "default-profile" then inr (RootKey "default_profile")
  else if String.prefix "profile." key then
    match splitDot key with
    | [_; name; field] =>
        if String.eqb name "" || String.eqb field "" then inl keyShapeError
        else if negb (isProfileField field) then inl (unknownFieldError field)
        else inr (ProfileKey (Some name) field)
    | _ => inl keyShapeError
    end
  else inl (unknownKeyError key).

(** [parsed.profile ?? existing.default_profile ?? "default"]: the profile
    that [config set], [config get] and [config unset] address. *)
Definition targetProfile (profile : option string) (existing : FileConfig)
    : string :=
  default (default "default" (default_profile existing)) profile.

End ConfigCommand.

Section ConfigKeys.

Import ConfigCommand.

(** A string without a dot. *)
Fixpoint dotless (s : string) : bool :=
  match s with
  | EmptyString => true
  | String c s' => negb (Ascii.eqb c dot) && dotless s'
  end.

Lemma splitDot_cons s : exists part parts, splitDot s = part :: parts.
Proof.
  induction s as [|c s (part & parts & IH)]; simpl; [by eexists _, _|].
  destruct (Ascii.eqb c dot); [by eexists _, _|]. rewrite IH. by eexists _, _.
Qed.

Lemma splitDot_dotless s : dotless s = true -> splitDot s = [s].
Proof.
  induction s as [|c s IH]; simpl; [done|].
  destruct (Ascii.eqb c dot); [done|]. simpl. intros Hs. by rewrite IH.
Qed.

Lemma splitDot_app a b :
  dotless a = true -> splitDot (a +:+ "." +:+ b) = a :: splitDot b.
Proof.
  induction a as [|c a IH]; simpl; [done|].
  destruct (Ascii.eqb c dot); [done|]. simpl. intros Ha. by rewrite IH.
Qed.

(** The pieces of a split have no dot, and joined by dots they give the
    string back. *)
Lemma splitDot_inv s : forall part parts,
  splitDot s = part :: parts ->
  dotless part = true
  /\ match parts with
     | [] => s = part
     | _ :: _ => exists rest, s = part +:+ "." +:+ rest /\ splitDot rest = parts
     end.
Proof.
  induction s as [|c s IH]; intros part parts; simpl.
  - intros [= <- <-]. done.
  - destruct (Ascii.eqb c dot) eqn:Hc.
    + intros [= <- <-]. apply Ascii.eqb_eq in Hc as ->. split; [done|].
      destruct (splitDot_cons s) as (p & ps & Hs). rewrite Hs.
      exists s. by rewrite Hs.
    + destruct (splitDot s) as [|p ps] eqn:Hs.
      { destruct (splitDot_cons s) as (p & ps & Hs'). congruence. }
      intros [= <- <-]. destruct (IH p ps eq_refl) as [Hp Hrest].
      split; [simpl; by rewrite Hc, Hp|].
      destruct ps as [|q qs].
      * by rewrite Hrest.
      * destruct Hrest as (rest & -> & Hsplit). by exists rest.
Qed.

Lemma prefix_split p s :
  String.prefix p s = true -> exists rest, s = p +:+ rest.
Proof.
  revert s. induction p as [|c p IH]; intros s; [by exists s|].
  destruct s as [|d s]; [done|]. simpl.
  destruct (Ascii.ascii_dec c d) as [<- | ?]; [|done].
  intros Hp. destruct (IH _ Hp) as (rest & ->). by exists rest.
Qed.

Lemma prefix_app p s : String.prefix p (p +:+ s) = true.
Proof.
  induction p as [|c p IH]; simpl; [by destruct s|].
  destruct (Ascii.ascii_dec c c); [exact IH | congruence].
Qed.

Lemma profileField_dotless field :
  isProfileField field = true -> dotless field = true /\ field <> "".
Proof.
  unfold isProfileField, PROFILE_FIELDS. simpl.
  rewrite !orb_true_iff, !String.eqb_eq.
  intros [-> | [-> | [-> | [-> | [-> | ?]]]]]; done.
Qed.

(** X28: the keys that the [config] command accepts are exactly token,
    default-profile and profile.NAME.FIELD with a name that is not empty
    and has no dot and a field among the five profile fields; every other
    key is refused with [INVALID_ARGUMENT]. The key token addresses the
    profile named default: a parsed profile key always names its profile,
    so the profile that the command addresses never depends on the
    [default_profile] of the file. *)
Theorem parseKey_accepts (key : string) :
  (forall parsed,
     parseKey key = inr parsed <->
     (key = "token" /\ parsed = ProfileKey (Some "default") "token")
     \/ (key = "default-profile" /\ parsed = RootKey "default_profile")
     \/ exists name field,
          key = "profile." +:+ name +:+ "." +:+ field
          /\ name <> "" /\ dotless name = true
          /\ isProfileField field = true
          /\ parsed = ProfileKey (Some name) field)
  /\ (forall e, parseKey key = inl e -> code e = INVALID_ARGUMENT)
  /\ (forall profile field existing,
        parseKey key = inr (ProfileKey profile field) ->
        exists name, profile = Some name
                     /\ targetProfile profile existing = name
                     /\ (key = "token" -> name = "default")).
Proof.
  assert (forall parsed,
     parseKey key = inr parsed <->
     (key = "token" /\ parsed = ProfileKey (Some "default") "token")
     \/ (key = "default-profile" /\ parsed = RootKey "default_profile")
     \/ exists name field,
          key = "profile." +:+ name +:+ "." +:+ field
          /\ name <> "" /\ dotless name = true
          /\ isProfileField field = true
          /\ parsed = ProfileKey (Some name) field) as Hiff.
  { intros parsed. unfold parseKey. split.
    - destruct (String.eqb key "token") eqn:Ht.
      { apply String.eqb_eq in Ht. intros [= <-]. by left. }
      destruct (String.eqb key "default-profile") eqn:Hd.
      { apply String.eqb_eq in Hd. intros [= <-]. right. by left. }
      destruct (String.prefix "profile." key) eqn:Hp; [|done].
      apply prefix_split in Hp as (rest & ->).
      change ("profile." +:+ rest) with ("profile" +:+ "." +:+ rest).
      rewrite splitDot_app by done.
      destruct (splitDot rest) as [|name [|field [|x xs]]] eqn:Hsplit; try done.
      destruct (splitDot_inv _ _ _ Hsplit) as (Hname & rest' & -> & Hsplit').
      destruct (splitDot_inv _ _ _ Hsplit') as (_ & ->).
      destruct (String.eqb name "") eqn:Hn; [done|].
      destruct (String.eqb field "") eqn:Hf; [done|]. simpl.
      destruct (isProfileField field) eqn:Hfield; [|done]. simpl.
      intros [= <-]. right. right. exists name, field.
      apply String.eqb_neq in Hn. done.
    - intros [[-> ->] | [[-> ->] | (name & field & -> & Hne & Hname & Hfield & ->)]];
        [done | done |].
      destruct (profileField_dotless _ Hfield) as [Hdot Hfne].
      assert (String.eqb ("profile." +:+ name +:+ "." +:+ field) "token" = false)
        as -> by done.
      assert (String.eqb ("profile." +:+ name +:+ "." +:+ field)
                "default-profile" = false) as -> by done.
      rewrite (prefix_app "profile." (name +:+ "." +:+ field)).
      change ("profile." +:+ name +:+ "." +:+ field)
        with ("profile" +:+ "." +:+ (name +:+ "." +:+ field)).
      rewrite splitDot_app by done. rewrite splitDot_app by done.
      rewrite splitDot_dotless by done.
      apply String.eqb_neq in Hne as ->. apply String.eqb_neq in Hfne as ->.
      simpl. by rewrite Hfield. }
  split; [exact Hiff|]. split.
  - intros e. unfold parseKey.
    repeat (case_match; try done); by intros [= <-].
  - intros profile field existing Hparsed.
    apply Hiff in Hparsed
      as [[Hk Hp] | [[_ Hp] | (name & f & Hk & _ & _ & _ & Hp)]]; simplify_eq.
    + by exists "default".
    + exists name. split; [done|]. split; [done|]. intros [=].
Qed.

End ConfigKeys.

(** Scenarios for the configuration. *)

(** The world with [text] on the standard input. *)
Definition withStdin (text : string) (w : World) : World :=
  mkWorld (clock w) (clockReads w) (upstream w) (netLog w) (slept w)
    (opsFile w) (configFile w) (writeFails w) (written w) (env w) text
    (stdout w) (stderr w).

(** A configuration file whose default profile holds a token. *)
Definition workConfig : ConfigFile :=
  CfgReadable false
    (CfgJson
       {| default_profile := Some "work";
          profiles :=
            {[ "work" := {| pf_token := Some "secret";
                            pf_notion_version := None;
                            pf_timeout_ms := Some 5000%Z;
                            pf_retries := None;
                            pf_pretty := None |} ]} |}).

(** The token is read from the standard input and trimmed. *)
Lemma resolveContext_token_sources_witness :
  exists ctx w',
    Cli.resolveContext (H := Host.runtime) "users me" tokenStdinOptions
      (withStdin " secret "
         (Host.quiet 0 (fun _ _ => NetThrows (EValue JNull))))
    = (Ok ctx, w')
    /\ cfg_token (ctx_config ctx) = Some "secret"
    /\ stdin w' = "".
Proof.
  destruct (resolveContext_token_sources (rt := Host.runtime) "users me"
              tokenStdinOptions
              (withStdin " secret "
                 (Host.quiet 0 (fun _ _ => NetThrows (EValue JNull)))))
    as (ctx & w' & Hrun & _ & Hstdin & _ & Hspent).
  - exact I.
  - exists ctx, w'. split; [exact Hrun|]. split; [|exact Hspent].
    rewrite Hstdin; [reflexivity | reflexivity | reflexivity | discriminate].
Defined.

(** NOTION_TOKEN is set to the empty string: the token of the profile is
    not used. *)
Lemma resolveConfig_empty_variable_witness :
  exists cfg w',
    Config.resolveConfig (H := Host.runtime)
      {| Config.co_token := None; Config.co_tokenStdin := None;
         Config.co_profile := None; Config.co_notionVersion := None;
         Config.co_timeoutMs := None; Config.co_retries := None;
         Config.co_pretty := None; Config.co_stdinToken := None |}
      (withEnv {[ "NOTION_TOKEN" := "" ]}
         (Host.withConfig workConfig
            (Host.quiet 0 (fun _ _ => NetThrows (EValue JNull)))))
    = (Ok cfg, w')
    /\ cfg_token cfg = Some ""
    /\ cfg_profile cfg = Some "work"
    /\ exists c, (Cli.requireToken cfg w').1 = Throw (ECli c).
Proof.
  destruct (resolveConfig_empty_variable (rt := Host.runtime)
              {| Config.co_token := None; Config.co_tokenStdin := None;
                 Config.co_profile := None; Config.co_notionVersion := None;
                 Config.co_timeoutMs := None; Config.co_retries := None;
                 Config.co_pretty := None; Config.co_stdinToken := None |}
              (withEnv {[ "NOTION_TOKEN" := "" ]}
                 (Host.withConfig workConfig
                    (Host.quiet 0 (fun _ _ => NetThrows (EValue JNull))))))
    as (_ & Htoken).
  - exact I.
  - destruct Htoken as (cfg & w' & c & Hrun & Htok & Hreq & _);
      [reflexivity | reflexivity | reflexivity |].
    exists cfg, w'. split; [exact Hrun|]. split; [exact Htok|].
    split; [|exists c; by rewrite Hreq].
    vm_compute in Hrun. by simplify_eq.
Defined.

(** ** [file-uploads send]: the receipt of an asynchronous upload
       ([src/commands/fileUploads.ts], [src/ops/registry.ts]) *)

Section FileUploadSend.

Import Registry OpsCommand Http Cli.
Context `{rt : Runtime}.
#[local] Open Scope Z_scope.

(** [crypto.randomUUID()], for the one receipt that a run creates. *)
Variable randomUUID : string.

(** [ensureConfigDir()]: [fs.mkdir(CONFIG_DIR, { recursive: true })]. *)
Variable ensureConfigDir : M unit.

(** [fs.readFile(opts.file)], and the parts of the form built from the
    buffer. *)
Variable readFile : string -> M (list (string * string)).

(** [x ?? null] on a key of a partial receipt. *)
Definition orNull {A} (v : option (option A)) : option A :=
  match v with
  | Some (Some a) => Some a
  | _ => None
  end.

Definition createReceipt (input : ReceiptPatch) : M OperationReceipt :=
  do now <- nowIso;
  ret {| op_id := default randomUUID (p_op_id input);
         type := default "operation" (p_type input);
         status := default PENDING (p_status input);
         resource_id := orNull (p_resource_id input);
         resource_type := orNull (p_resource_type input);
         created_at := default now (p_created_at input);
         updated_at := default now (p_updated_at input);
         metadata := Some (default ∅ (orNull (p_metadata input)));
         poll := orNull (p_poll input);
         error := orNull (p_error input) |}.

(** The options of [file-uploads send]. *)
Record SendOptions := {
  so_id : option string;
  so_file : string;
  so_dryRun : bool;
  so_async : bool
}.

(** The request that sends the form. *)
Definition sendRequest (ctx : Context) (id : string)
    (form : list (string * string)) : RequestOptions :=
  {| method := "POST";
     path := units ("/file_uploads/" +:+ id +:+ "/send");
     query := None;
     body := Some (BodyForm form);
     token := cfg_token (ctx_config ctx);
     notionVersion := cfg_notionVersion (ctx_config ctx);
     timeoutMs := cfg_timeoutMs (ctx_config ctx);
     retries := cfg_retries (ctx_config ctx);
     idempotencyKey := None;
     contentType := None;
     extraHeaders := None |}.

(** The partial receipt given to [createReceipt]. *)
Definition sendReceipt (id : string) : ReceiptPatch :=
  mkPatch None (Some "file_upload_send") (Some IN_PROGRESS) (Some (Some id))
    (Some (Some "file_upload")) None None None
    (Some (Some {| poll_method := "GET";
                   poll_path := "/file_uploads/" +:+ id |}))
    None.

(** The handler of [file-uploads send [file_upload_id]]. *)
Definition fileUploadsSend (fileUploadId : option string) (opts : SendOptions)
    (ctx : Context) : M (ActionResult Json) :=
  requireToken (ctx_config ctx) ;;
  let id := parseId fileUploadId (so_id opts) in
  if String.eqb id "" then
    throwCli (newCliError MISSING_ARGUMENT "File upload id is required"
      (Some {| opt_recoverable := Some true;
               opt_suggestedAction := Some "Provide <file_upload_id> or --id";
               opt_context := None |}))
  else if so_dryRun opts then
    ret {| data := JObj [("dry_run", JBool true);
                         ("request", JObj [("file", JStr (so_file opts))])];
           exitCode := Some 40 |}
  else
    do op <- createReceipt (sendReceipt id);
    (if so_async opts then ensureConfigDir ;; appendOp op else ret tt) ;;
    do form <- readFile (so_file opts);
    do response <- request (sendRequest ctx id form);
    if so_async opts then
      do updated <- touchOp op
        (mkPatch None None (Some COMPLETED) None None None None
           (Some (Some {[ "response" := resp_data response ]})) None None);
      updateOp updated ;;
      ret {| data := toJson updated; exitCode := None |}
    else ret {| data := resp_data response; exitCode := None |}.

(** Making the directory succeeds. *)
Hypothesis ensureConfigDir_ok : forall w, ensureConfigDir w = (Ok tt, w).

(** The receipt that a run on the upload [id] creates at time [now]. *)
Definition created (id : string) (now : Z) : OperationReceipt :=
  {| op_id := randomUUID; type := "file_upload_send"; status := IN_PROGRESS;
     resource_id := Some id; resource_type := Some "file_upload";
     created_at := toISOString now; updated_at := toISOString now;
     metadata := Some ∅;
     poll := Some {| poll_method := "GET";
                     poll_path := "/file_uploads/" +:+ id |};
     error := None |}.

(** The world after the receipt of a run on [id] was appended. *)
Definition appended (id : string) (w : World) : World :=
  (appendOp (created id (clock w (clockReads w))) (dateNow w).2).2.

(** The run up to the reading of the file, with [--async]. *)
Lemma fileUploadsSend_prefix fileUploadId opts ctx w ops :
  truthyStr (cfg_token (ctx_config ctx)) = true ->
  parseId fileUploadId (so_id opts) <> "" ->
  so_dryRun opts = false ->
  so_async opts = true ->
  stored w = Some ops ->
  writeFails w OPS_PATH = None ->
  opsFile (appended (parseId fileUploadId (so_id opts)) w)
  = OpsLines (kept (clock w (S (clockReads w))) ops
                ++ [created (parseId fileUploadId (so_id opts))
                      (clock w (clockReads w))])
  /\ netLog (appended (parseId fileUploadId (so_id opts)) w) = netLog w
  /\ writeFails (appended (parseId fileUploadId (so_id opts)) w) = writeFails w
  /\ clock (appended (parseId fileUploadId (so_id opts)) w) = clock w
  /\ clockReads (appended (parseId fileUploadId (so_id opts)) w)
     = S (S (clockReads w))
  /\ fileUploadsSend fileUploadId opts ctx w
     = (do form <- readFile (so_file opts);
        do response <- request
          (sendRequest ctx (parseId fileUploadId (so_id opts)) form);
        do updated <- touchOp
          (created (parseId fileUploadId (so_id opts)) (clock w (clockReads w)))
          (mkPatch None None (Some COMPLETED) None None None None
             (Some (Some {[ "response" := resp_data response ]})) None None);
        updateOp updated ;;
        ret {| data := toJson updated; exitCode := None |})
       (appended (parseId fileUploadId (so_id opts)) w).
Proof.
  intros Htok Hid Hdry Hasync Hs Hw. unfold appended.
  destruct (appendOp_spec
              (created (parseId fileUploadId (so_id opts)) (clock w (clockReads w)))
              (dateNow w).2 ops Hs Hw)
    as (w1 & Happ & Hfile & Hwf & Hc & Hr & Hn & Hsl & _).
  rewrite Happ. cbn [snd]. repeat (split; [done|]).
  unfold fileUploadsSend, bind at 1, requireToken. rewrite Htok.
  unfold ret at 1. apply String.eqb_neq in Hid as ->. rewrite Hdry, Hasync.
  unfold bind at 1, createReceipt, bind at 1, nowIso, bind at 1.
  unfold dateNow at 1. unfold ret at 1. unfold ret at 1.
  unfold bind at 1, bind at 1. rewrite ensureConfigDir_ok.
  unfold sendReceipt. simpl.
  fold (created (parseId fileUploadId (so_id opts)) (clock w (clockReads w))).
  simpl in Happ. rewrite Happ. reflexivity.
Qed.

(** X29: an asynchronous send that fails leaves its receipt behind. With
    [--async] the receipt is appended to the registry, in status
    [IN_PROGRESS], before the file is read and before anything is sent. If
    the file cannot be read, the command fails with that error, nothing
    has been sent, and the receipt stays in the registry; if the request
    fails, the command fails with the error of the request and the
    registry is as the append left it: no step marks the receipt as
    failed. *)
Theorem send_async_failure_leaves_receipt (fileUploadId : option string)
    (opts : SendOptions) (ctx : Context) (w : World)
    (ops : list OperationReceipt) :
  truthyStr (cfg_token (ctx_config ctx)) = true ->
  parseId fileUploadId (so_id opts) <> "" ->
  so_dryRun opts = false ->
  so_async opts = true ->
  stored w = Some ops ->
  writeFails w OPS_PATH = None ->
  exists op,
    status op = IN_PROGRESS
    /\ op_id op = randomUUID
    /\ resource_id op = Some (parseId fileUploadId (so_id opts))
    /\ opsFile (appended (parseId fileUploadId (so_id opts)) w)
       = OpsLines (kept (clock w (S (clockReads w))) ops ++ [op])
    /\ netLog (appended (parseId fileUploadId (so_id opts)) w) = netLog w
    /\ (forall e,
          readFile (so_file opts) (appended (parseId fileUploadId (so_id opts)) w)
            = (Throw e, appended (parseId fileUploadId (so_id opts)) w) ->
          fileUploadsSend fileUploadId opts ctx w
            = (Throw e, appended (parseId fileUploadId (so_id opts)) w))
    /\ (forall form e w2,
          readFile (so_file opts) (appended (parseId fileUploadId (so_id opts)) w)
            = (Ok form, appended (parseId fileUploadId (so_id opts)) w) ->
          request (sendRequest ctx (parseId fileUploadId (so_id opts)) form)
            (appended (parseId fileUploadId (so_id opts)) w)
            = (Throw e, w2) ->
          fileUploadsSend fileUploadId opts ctx w = (Throw e, w2)
          /\ opsFile w2 = opsFile (appended (parseId fileUploadId (so_id opts)) w)).
Proof.
  intros Htok Hid Hdry Hasync Hs Hw.
  destruct (fileUploadsSend_prefix fileUploadId opts ctx w ops)
    as (Hfile & Hnet & _ & _ & _ & Hrun); try done.
  eexists. split; [|split; [|split; [|split; [exact Hfile|]]]]; try done.
  split; [exact Hnet|]. split.
  - intros e Hread. rewrite Hrun. unfold bind at 1. by rewrite Hread.
  - intros form e w2 Hread Hreq. rewrite Hrun. unfold bind at 1. rewrite Hread.
    unfold bind at 1. rewrite Hreq. split; [done|].
    destruct (request_afterNet _ _ _ _ Hreq) as (calls & delays & ->). done.
Qed.

(** X30: an asynchronous send that succeeds. When the file is read and
    the request returns, and the receipt appended at the start still
    counts as fresh when it is updated (its date reads back as the time
    it was made, which is not 30 days before the update), the command
    returns the receipt in status [COMPLETED] with the response as its
    only metadata, and every receipt of the registry with its identifier
    is that receipt. *)
Theorem send_async_success (fileUploadId : option string)
    (opts : SendOptions) (ctx : Context) (w w2 : World)
    (ops : list OperationReceipt) (form : list (string * string))
    (response : HttpResponse) :
  truthyStr (cfg_token (ctx_config ctx)) = true ->
  parseId fileUploadId (so_id opts) <> "" ->
  so_dryRun opts = false ->
  so_async opts = true ->
  stored w = Some ops ->
  writeFails w OPS_PATH = None ->
  readFile (so_file opts) (appended (parseId fileUploadId (so_id opts)) w)
    = (Ok form, appended (parseId fileUploadId (so_id opts)) w) ->
  request (sendRequest ctx (parseId fileUploadId (so_id opts)) form)
    (appended (parseId fileUploadId (so_id opts)) w)
    = (Ok response, w2) ->
  dateGetTime (toISOString (clock w (clockReads w)))
    = Some (clock w (clockReads w)) ->
  clock w (S (S (S (clockReads w)))) - 30 * (24 * 60 * 60 * 1000)
    <= clock w (clockReads w) ->
  exists updated w' ops',
    fileUploadsSend fileUploadId opts ctx w
    = (Ok {| data := toJson updated; exitCode := None |}, w')
    /\ status updated = COMPLETED
    /\ metadata updated = Some {[ "response" := resp_data response ]}
    /\ op_id updated = randomUUID
    /\ poll updated
       = Some {| poll_method := "GET";
                 poll_path := "/file_uploads/" +:+ parseId fileUploadId (so_id opts) |}
    /\ opsFile w' = OpsLines ops'
    /\ updated ∈ ops'
    /\ (forall r, r ∈ ops' -> op_id r = randomUUID -> r = updated).
Proof.
  intros Htok Hid Hdry Hasync Hs Hw Hread Hreq Hdate Hclock.
  destruct (fileUploadsSend_prefix fileUploadId opts ctx w ops)
    as (Hfile & Hnet & Hwf & Hc & Hr & Hrun); try done.
  set (id := parseId fileUploadId (so_id opts)) in *.
  set (op := created id (clock w (clockReads w))) in *.
  destruct (request_afterNet _ _ _ _ Hreq) as (calls & delays & Hw2).
  rewrite Hrun. unfold bind at 1. rewrite Hread.
  unfold bind at 1. rewrite Hreq.
  unfold bind at 1, touchOp, bind at 1, nowIso, bind at 1.
  unfold dateNow at 1. unfold ret at 1. unfold ret at 1. unfold bind at 1.
  match goal with |- context [updateOp ?f ?x] =>
    destruct (updateOp_spec f x (kept (clock w (S (clockReads w))) ops ++ [op]))
      as (w' & Hupd & Hfile' & _);
      [ subst w2; unfold stored; cbn [opsFile afterNet]; by rewrite Hfile
      | subst w2; cbn [writeFails afterNet]; by rewrite Hwf
      | set (updated := f) in * ]
  end.
  rewrite Hupd. unfold ret. exists updated, w'. eexists.
  split; [reflexivity|]. split; [done|]. split; [done|]. split; [done|].
  split; [done|]. split; [exact Hfile'|].
  assert (fresh (clock w (S (S (S (clockReads w))))
                 - Constants.RETENTION_DAYS * MILLIS_PER_DAY) op = true) as Hfresh.
  { unfold fresh. cbn [updated_at op created]. rewrite Hdate.
    unfold Constants.RETENTION_DAYS, MILLIS_PER_DAY. lia. }
  assert (clock w2 = clock w /\ clockReads w2 = S (S (clockReads w))) as [Hc2 Hr2].
  { subst w2. cbn [clock clockReads afterNet]. by rewrite Hc, Hr. }
  split.
  - apply list_elem_of_In, in_map_iff. exists op. split.
    + cbn [op_id updated op created]. by rewrite String.eqb_refl.
    + unfold kept. apply filter_In. split.
      * apply in_or_app. right. by left.
      * cbn [clock clockReads]. rewrite Hc2, Hr2. exact Hfresh.
  - intros r Hin Hid'. apply list_elem_of_In, in_map_iff in Hin as (x & Hx & _).
    destruct (String.eqb (op_id x) (op_id updated)) eqn:Heq; [done|].
    subst x. apply String.eqb_neq in Heq. done.
Qed.

End FileUploadSend.

(** Scenarios for [file-uploads send]. *)

Definition sendAsync : SendOptions :=
  {| so_id := None; so_file := "report.pdf"; so_dryRun := false;
     so_async := true |}.

(** The file does not exist: the receipt is in the registry, in progress,
    and nothing has been sent. *)
Lemma send_async_failure_leaves_receipt_witness :
  exists op w',
    fileUploadsSend (rt := Host.runtime) "uuid-1" (ret tt)
      (fun _ => throw (EError "Error" "ENOENT: no such file"))
      (Some "file-1") sendAsync Host.context
      (Host.quiet 1762128000000 notFound)
    = (Throw (EError "Error" "ENOENT: no such file"), w')
    /\ opsFile w' = OpsLines [op]
    /\ status op = IN_PROGRESS
    /\ netLog w' = [].
Proof.
  destruct (send_async_failure_leaves_receipt (rt := Host.runtime) "uuid-1"
              (ret tt) (fun _ => throw (EError "Error" "ENOENT: no such file"))
              (fun _ => eq_refl) (Some "file-1") sendAsync Host.context
              (Host.quiet 1762128000000 notFound) [])
    as (op & Hstatus & _ & _ & Hfile & Hnet & Hread & _).
  - reflexivity.
  - discriminate.
  - reflexivity.
  - reflexivity.
  - reflexivity.
  - reflexivity.
  - exists op. eexists. split; [apply Hread; reflexivity|].
    split; [exact Hfile|]. split; [exact Hstatus | exact Hnet].
Defined.

(** The upload goes through: the receipt is completed. *)
Lemma send_async_success_witness :
  exists updated w',
    fileUploadsSend (rt := Host.runtime) "uuid-1" (ret tt)
      (fun _ => ret [("file", "bytes")])
      (Some "file-1") sendAsync Host.context
      (Host.quiet 1762128000000
         (fun _ _ => NetResponse 200 (TextJson (JObj [("status", JStr "uploaded")])) []))
    = (Ok {| data := toJson updated; exitCode := None |}, w')
    /\ status updated = COMPLETED
    /\ updated ∈ match opsFile w' with OpsLines l => l | _ => [] end.
Proof.
  destruct (send_async_success (rt := Host.runtime) "uuid-1"
              (ret tt) (fun _ => ret [("file", "bytes")])
              (fun _ => eq_refl) (Some "file-1") sendAsync Host.context
              (Host.quiet 1762128000000
                 (fun _ _ => NetResponse 200
                               (TextJson (JObj [("status", JStr "uploaded")])) []))
              (Http.request (H := Host.runtime)
                 (sendRequest Host.context "file-1" [("file", "bytes")])
                 (appended (rt := Host.runtime) "uuid-1" "file-1"
                    (Host.quiet 1762128000000
                       (fun _ _ => NetResponse 200
                          (TextJson (JObj [("status", JStr "uploaded")])) [])))).2
              [] [("file", "bytes")]
              {| resp_status := 200;
                 resp_data := JObj [("status", JStr "uploaded")];
                 resp_headers := [] |})
    as (updated & w' & ops' & Hrun & Hstatus & _ & _ & _ & Hfile & Hin & _).
  - reflexivity.
  - discriminate.
  - reflexivity.
  - reflexivity.
  - reflexivity.
  - reflexivity.
  - reflexivity.
  - vm_compute. reflexivity.
  - vm_compute. reflexivity.
  - simpl. lia.
  - exists updated, w'. split; [exact Hrun|]. split; [exact Hstatus|].
    rewrite Hfile. exact Hin.
Defined.
